(** * novel-alerts: the model of [src/models/novel_alerts_model.py]

    A shallow embedding of the class [NovelAlertsModel] and of the parts of
    the Python runtime it calls (text files, the [csv] module with its
    default [excel] dialect, the network and the mail relay), followed by
    the properties of the ledger, the scraper dispatch, the update check
    and the CRUD operations.

    Conventions of the embedding.
    - A Python [str] is a [string], its characters being the 256 of
      [ascii] ordered by their codes; [None] where a [str] is expected
      is [option string].
    - A method is a computation in the monad [M]: it threads the state
      (the object's attributes and the outside world) and either returns
      or raises; a raised exception keeps the state reached so far.
    - The outside world is a flat file system, a time-indexed web and a
      time-indexed mail relay; every external action is appended to a
      trace, so that order and absence of actions can be stated. *)

From Stdlib Require Import String Ascii List NArith Lia.
From stdpp Require Import gmap strings list fin_maps.

Local Open Scope list_scope.

(* ===================================================================== *)
(** ** Python strings *)
(* ===================================================================== *)

Module PyStr.

(** [needle in hay] for two [str]: substring containment. *)
Fixpoint contains (needle hay : string) : bool :=
  String.prefix needle hay
  || match hay with
     | EmptyString => false
     | String _ hay' => contains needle hay'
     end.

(** [s[n:]]: the slice from index [n] (empty when [s] is shorter). *)
Fixpoint slice_from (n : nat) (s : string) : string :=
  match n, s with
  | 0, _ => s
  | S _, EmptyString => EmptyString
  | S n', String _ s' => slice_from n' s'
  end.

(** [a < b] on [str]: lexicographic on code points, a proper prefix
    being smaller.  This is [String.ltb] of the standard library. *)
Definition lt (a b : string) : bool := String.ltb a b.

(** Carriage return and line feed. *)
Definition CR : ascii := ascii_of_nat 13.
Definition LF : ascii := ascii_of_nat 10.

Definition to_list (s : string) : list ascii := list_ascii_of_string s.
Definition of_list (l : list ascii) : string := string_of_list_ascii l.

End PyStr.

(* ===================================================================== *)
(** ** Exceptions and outcomes *)
(* ===================================================================== *)

(** The exceptions the modelled code can meet.  All of them are
    subclasses of Python's [Exception], so [except Exception] catches
    every one. *)
Inductive exn : Type :=
| FileNotFoundError (path : string)
| IsADirectoryError (path : string)
| PermissionError (path : string)
| KeyError (key : string)
| TypeError
| ValueError
| CsvError
| URLError
| AttributeError
| IndexError
| SMTPException.

Inductive outcome (A : Type) : Type :=
| Ret (a : A)
| Raise (e : exn).
Arguments Ret {A} a.
Arguments Raise {A} e.

Definition returns {A} (o : outcome A) : Prop := exists a, o = Ret a.

Definition obind {A B} (o : outcome A) (k : A -> outcome B) : outcome B :=
  match o with
  | Ret a => k a
  | Raise e => Raise e
  end.

(* ===================================================================== *)
(** ** Text files as Python opens them by default *)
(* ===================================================================== *)

(** [open(path, mode)] without [newline=] uses universal newlines: on
    input [CR LF] and a lone [CR] both become [LF]; on output [LF]
    becomes [os.linesep], which is [LF] itself on the POSIX systems
    modelled here, so that writing stores the text as it is.  Encoding
    and decoding are assumed to be inverse of each other. *)
Module TextIO.
Import PyStr.

Fixpoint universal_newlines (s : list ascii) : list ascii :=
  match s with
  | [] => []
  | c :: s' =>
      if Ascii.eqb c CR then
        match s' with
        | d :: s'' =>
            if Ascii.eqb d LF then LF :: universal_newlines s''
            else LF :: universal_newlines s'
        | [] => [LF]
        end
      else c :: universal_newlines s'
  end.

(** Iterating a text file yields its lines, each with its final [LF];
    only the last line may lack one. *)
Fixpoint lines (s : list ascii) : list (list ascii) :=
  match s with
  | [] => []
  | c :: s' =>
      if Ascii.eqb c LF then [c] :: lines s'
      else match lines s' with
           | [] => [[c]]
           | l :: ls => (c :: l) :: ls
           end
  end.

Definition readlines (content : string) : list (list ascii) :=
  lines (universal_newlines (to_list content)).

End TextIO.

(* ===================================================================== *)
(** ** The [csv] module, [excel] dialect *)
(* ===================================================================== *)

(** [csv.writer], [csv.reader], [csv.DictWriter] and [csv.DictReader]
    with the defaults the model uses: delimiter [,], the double quote
    as quote character, [doublequote], no escape character, no [skipinitialspace],
    line terminator [CR LF], [QUOTE_MINIMAL], not [strict]. *)
Module Csv.
Import PyStr.

Definition delimiter : ascii := ","%char.
Definition quotechar : ascii := ascii_of_nat 34.
Definition lineterminator : list ascii := [CR; LF].
(** [csv.field_size_limit()], 128 KiB. *)
Definition field_limit : N := 131072.

(** *** Writer *)

Definition needs_quoting (c : ascii) : bool :=
  Ascii.eqb c delimiter || Ascii.eqb c quotechar
  || existsb (Ascii.eqb c) lineterminator.

(** The characters of a field as they are copied out: a quote
    character is doubled. *)
Fixpoint join_append_data (field : list ascii) : list ascii :=
  match field with
  | [] => []
  | c :: field' =>
      if Ascii.eqb c quotechar then quotechar :: c :: join_append_data field'
      else c :: join_append_data field'
  end.

Definition join_append (field : list ascii) : list ascii :=
  if existsb needs_quoting field
  then quotechar :: join_append_data field ++ [quotechar]
  else field.

Fixpoint join (fields : list (list ascii)) : list ascii :=
  match fields with
  | [] => []
  | [f] => join_append f
  | f :: fields' => join_append f ++ delimiter :: join fields'
  end.

(** [writer.writerow(row)]: [None] is written as the empty field; a
    record made of one empty field is written as a pair of quotes. *)
Definition writerow (row : list (option string)) : list ascii :=
  let fields := map (fun v => match v with
                              | None => []
                              | Some s => to_list s
                              end) row in
  match fields with
  | [ [] ] => quotechar :: quotechar :: lineterminator
  | _ => join fields ++ lineterminator
  end.

(** *** Reader *)

(** The parser states; the three states that follow an escape
    character are left out, the dialect having none. *)
Inductive parser_state : Set :=
| START_RECORD | START_FIELD | IN_FIELD
| IN_QUOTED_FIELD | QUOTE_IN_QUOTED_FIELD | EAT_CRNL.

Definition parser_state_eqb (a b : parser_state) : bool :=
  match a, b with
  | START_RECORD, START_RECORD | START_FIELD, START_FIELD
  | IN_FIELD, IN_FIELD | IN_QUOTED_FIELD, IN_QUOTED_FIELD
  | QUOTE_IN_QUOTED_FIELD, QUOTE_IN_QUOTED_FIELD | EAT_CRNL, EAT_CRNL => true
  | _, _ => false
  end.

Record reader : Type := {
  state : parser_state;
  fields : list string;   (* the fields of the record read so far *)
  field : list ascii      (* the characters of the current field *)
}.

Definition parse_reset : reader :=
  {| state := START_RECORD; fields := []; field := [] |}.

Definition set_state (st : parser_state) (r : reader) : reader :=
  {| state := st; fields := fields r; field := field r |}.

Definition parse_save_field (r : reader) : reader :=
  {| state := state r;
     fields := fields r ++ [of_list (field r)];
     field := [] |}.

Definition parse_add_char (r : reader) (c : ascii) : outcome reader :=
  if (N.of_nat (length (field r)) <? field_limit)%N
  then Ret {| state := state r; fields := fields r; field := field r ++ [c] |}
  else Raise CsvError.

Definition is_newline (c : ascii) : bool := Ascii.eqb c LF || Ascii.eqb c CR.

(** The case [START_FIELD] of the parser, which [START_RECORD] falls
    through to on an ordinary character.  [None] is the end-of-line
    marker the reader sends after each line. *)
Definition start_field (r : reader) (c : option ascii) : outcome reader :=
  match c with
  | None => Ret (set_state START_RECORD (parse_save_field r))
  | Some ch =>
      if is_newline ch then Ret (set_state EAT_CRNL (parse_save_field r))
      else if Ascii.eqb ch quotechar then Ret (set_state IN_QUOTED_FIELD r)
      else if Ascii.eqb ch delimiter
           then Ret (set_state START_FIELD (parse_save_field r))
      else obind (parse_add_char r ch) (fun r' => Ret (set_state IN_FIELD r'))
  end.

Definition parse_process_char (r : reader) (c : option ascii) : outcome reader :=
  match state r with
  | START_RECORD =>
      match c with
      | None => Ret r
      | Some ch =>
          if is_newline ch then Ret (set_state EAT_CRNL r)
          else start_field r c
      end
  | START_FIELD => start_field r c
  | IN_FIELD =>
      match c with
      | None => Ret (set_state START_RECORD (parse_save_field r))
      | Some ch =>
          if is_newline ch then Ret (set_state EAT_CRNL (parse_save_field r))
          else if Ascii.eqb ch delimiter
               then Ret (set_state START_FIELD (parse_save_field r))
          else parse_add_char r ch
      end
  | IN_QUOTED_FIELD =>
      match c with
      | None => Ret r
      | Some ch =>
          if Ascii.eqb ch quotechar then Ret (set_state QUOTE_IN_QUOTED_FIELD r)
          else parse_add_char r ch
      end
  | QUOTE_IN_QUOTED_FIELD =>
      match c with
      | None => Ret (set_state START_RECORD (parse_save_field r))
      | Some ch =>
          if Ascii.eqb ch quotechar
          then obind (parse_add_char r ch)
                     (fun r' => Ret (set_state IN_QUOTED_FIELD r'))
          else if Ascii.eqb ch delimiter
               then Ret (set_state START_FIELD (parse_save_field r))
          else if is_newline ch
               then Ret (set_state EAT_CRNL (parse_save_field r))
          else obind (parse_add_char r ch)
                     (fun r' => Ret (set_state IN_FIELD r'))
      end
  | EAT_CRNL =>
      match c with
      | None => Ret (set_state START_RECORD r)
      | Some ch => if is_newline ch then Ret r else Raise CsvError
      end
  end.

(** One line through the parser: its characters, then end-of-line. *)
Fixpoint feed_line (r : reader) (line : list ascii) : outcome reader :=
  match line with
  | [] => parse_process_char r None
  | c :: line' =>
      obind (parse_process_char r (Some c)) (fun r' => feed_line r' line')
  end.

(** All the records of the input, that is [list(csv.reader(lines))].
    A record is complete when a line leaves the parser in
    [START_RECORD]; the parser is then reset.  When the input ends
    inside a record, what was read is delivered as the last record. *)
Fixpoint reader_rows (r : reader) (input : list (list ascii))
  : outcome (list (list string)) :=
  match input with
  | [] =>
      if negb (Nat.eqb (length (field r)) 0)
         || parser_state_eqb (state r) IN_QUOTED_FIELD
      then Ret [fields (parse_save_field r)]
      else Ret []
  | line :: input' =>
      obind (feed_line r line) (fun r' =>
        if parser_state_eqb (state r') START_RECORD
        then obind (reader_rows parse_reset input')
                   (fun rows => Ret (fields r' :: rows))
        else reader_rows r' input')
  end.

Definition reader_list (input : list (list ascii)) : outcome (list (list string)) :=
  reader_rows parse_reset input.

End Csv.

(* ===================================================================== *)
(** ** Rows as dictionaries *)
(* ===================================================================== *)

(** A row dictionary as [csv.DictReader] builds it and as the model
    builds it: string keys bound to a [str] or to [None] (the reader's
    [restval]), and possibly the key [None] (the reader's [restkey])
    bound to the list of surplus fields.  Equality of two values of this
    type is Python's [==] on the dictionaries. *)
Record pydict : Type := {
  items : gmap string (option string);
  rest : option (list string)
}.

#[global] Instance pydict_eq_dec : EqDecision pydict.
Proof. solve_decision. Defined.

Definition setitem (d : pydict) (key value : string) : pydict :=
  {| items := <[key := Some value]> (items d); rest := rest d |}.

Module DictCsv.

(** [dict(zip(fieldnames, row))], then [d[restkey] = row[lf:]] when the
    row is longer than the header and [d[key] = restval] for the keys
    a shorter row leaves out.  A later binding of a key replaces an
    earlier one. *)
Definition row_dict (fieldnames row : list string) : pydict :=
  let lf := length fieldnames in
  let lr := length row in
  {| items :=
       fold_left (fun d kv => <[fst kv := snd kv]> d)
                 (combine fieldnames (map Some row)
                  ++ map (fun key => (key, None)) (skipn lr fieldnames))
                 ∅;
     rest := if Nat.ltb lf lr then Some (skipn lf row) else None |}.

(** [list(csv.DictReader(f))]: the first record, empty or not, gives
    the field names; empty records after it are skipped. *)
Definition DictReader (rows : list (list string)) : list pydict :=
  match rows with
  | [] => []
  | fieldnames :: rows' =>
      map (row_dict fieldnames)
          (List.filter (fun row => negb (Nat.eqb (length row) 0)) rows')
  end.

(** [DictWriter._dict_to_list] with [extrasaction="raise"] and
    [restval=""]: a key outside the field names is a [ValueError]. *)
Definition _dict_to_list (fieldnames : list string) (rowdict : pydict)
  : outcome (list (option string)) :=
  if decide (rest rowdict = None
             ∧ dom (items rowdict) ⊆ (list_to_set fieldnames : gset string))
  then Ret (map (fun key => default (Some EmptyString) (items rowdict !! key))
                fieldnames)
  else Raise ValueError.

(** The text [DictWriter.writerow] sends to the file. *)
Definition writerow (fieldnames : list string) (rowdict : pydict)
  : outcome string :=
  obind (_dict_to_list fieldnames rowdict)
        (fun row => Ret (PyStr.of_list (Csv.writerow row))).

(** The text [DictWriter.writeheader] sends to the file: the row that
    binds every field name to itself. *)
Definition writeheader (fieldnames : list string) : string :=
  PyStr.of_list (Csv.writerow (map Some fieldnames)).

End DictCsv.

(* ===================================================================== *)
(** ** The outside world *)
(* ===================================================================== *)

(** A path names a directory or a regular file, which may be read-only.
    The name space is flat: creating a file never fails for want of a
    parent directory, and every regular file can be read. *)
Inductive node : Type :=
| File (writable : bool) (content : string)
| Dir.

(** What the two extraction routines look for in a parsed page: the text
    of the first [h5] element, if there is one, and the texts of the
    [a] elements of class [chp-release], in document order. *)
Record page : Type := {
  find_h5 : option string;
  findAll_chp_release : list string
}.

(** How the mail relay answers one session. *)
Inductive smtp_reply : Type :=
| ConnectionFails
| LoginFails
| SendFails
| Delivers.

Inductive open_mode : Set := ModeR | ModeW | ModeA.

(** External actions, in the order they happen. *)
Inductive event : Type :=
| Message (text : string)                    (* a call of the message box *)
| HttpGet (url : string)
| FileOpen (path : string) (mode : open_mode)
| SmtpConnect
| SmtpLogin (user password : string)
| SmtpSendmail (from_addr to_addr message : string).

Record world : Type := {
  fs : gmap string node;
  (** the page a GET of a URL yields at a given time, [None] for any
      failure to fetch or parse *)
  web : nat -> string -> option page;
  smtp : nat -> smtp_reply;
  (** the number of network sessions so far *)
  clock : nat;
  trace : list event
}.

(** The attributes of a [NovelAlertsModel] object.  [_message_box] is
    the callback given at construction; calling it is the event
    [Message]. *)
Record model : Type := {
  _URL_file_path : string;
  _email_file_path : string;
  _user_email : string;
  _url_data : list pydict;
  _password : string
}.

Record state : Type := { self : model; env : world }.

(* ===================================================================== *)
(** ** The monad of methods *)
(* ===================================================================== *)

Definition M (A : Type) : Type := state -> outcome A * state.

Definition ret {A} (a : A) : M A := fun s => (Ret a, s).
Definition raise {A} (e : exn) : M A := fun s => (Raise e, s).

Definition bind {A B} (m : M A) (k : A -> M B) : M B :=
  fun s => match m s with
           | (Ret a, s') => k a s'
           | (Raise e, s') => (Raise e, s')
           end.

(** [try: m  except Exception: handler] *)
Definition try_except {A} (m : M A) (handler : M A) : M A :=
  fun s => match m s with
           | (Ret a, s') => (Ret a, s')
           | (Raise _, s') => handler s'
           end.

Notation "x <- m ;; k" := (bind m (fun x => k))
  (at level 100, m at next level, right associativity).
Notation "m ;; k" := (bind m (fun _ => k))
  (at level 100, right associativity).

Definition gets {A} (f : state -> A) : M A := fun s => (Ret (f s), s).
Definition modify (f : state -> state) : M unit := fun s => (Ret tt, f s).
Definition lift {A} (o : outcome A) : M A := fun s => (o, s).

Definition with_self (f : model -> model) (s : state) : state :=
  {| self := f (self s); env := env s |}.
Definition with_env (f : world -> world) (s : state) : state :=
  {| self := self s; env := f (env s) |}.

Definition set_user_email (v : string) (m : model) : model :=
  {| _URL_file_path := _URL_file_path m; _email_file_path := _email_file_path m;
     _user_email := v; _url_data := _url_data m; _password := _password m |}.
Definition set_url_data (v : list pydict) (m : model) : model :=
  {| _URL_file_path := _URL_file_path m; _email_file_path := _email_file_path m;
     _user_email := _user_email m; _url_data := v; _password := _password m |}.
Definition set_password (v : string) (m : model) : model :=
  {| _URL_file_path := _URL_file_path m; _email_file_path := _email_file_path m;
     _user_email := _user_email m; _url_data := _url_data m; _password := v |}.

Definition set_fs (v : gmap string node) (w : world) : world :=
  {| fs := v; web := web w; smtp := smtp w; clock := clock w; trace := trace w |}.
Definition tick (w : world) : world :=
  {| fs := fs w; web := web w; smtp := smtp w; clock := S (clock w);
     trace := trace w |}.
Definition record_event (e : event) (w : world) : world :=
  {| fs := fs w; web := web w; smtp := smtp w; clock := clock w;
     trace := trace w ++ [e] |}.

Definition log (e : event) : M unit := modify (with_env (record_event e)).

(** *** Files *)

Module Files.

(** [open(path, "r")] followed by [read()] of the whole file. *)
Definition read (path : string) : M string :=
  log (FileOpen path ModeR) ;;
  fs_now <- gets (fun s => fs (env s)) ;;
  match fs_now !! path with
  | None => raise (FileNotFoundError path)
  | Some Dir => raise (IsADirectoryError path)
  | Some (File _ content) => ret content
  end.

(** [open(path, "w")]: the file is created or emptied. *)
Definition open_w (path : string) : M unit :=
  log (FileOpen path ModeW) ;;
  fs_now <- gets (fun s => fs (env s)) ;;
  match fs_now !! path with
  | Some Dir => raise (IsADirectoryError path)
  | Some (File false _) => raise (PermissionError path)
  | Some (File true _) | None =>
      modify (with_env (set_fs (<[path := File true EmptyString]> fs_now)))
  end.

(** [open(path, "a")]: the file is created if missing and kept as it
    is otherwise. *)
Definition open_a (path : string) : M unit :=
  log (FileOpen path ModeA) ;;
  fs_now <- gets (fun s => fs (env s)) ;;
  match fs_now !! path with
  | Some Dir => raise (IsADirectoryError path)
  | Some (File false _) => raise (PermissionError path)
  | Some (File true _) => ret tt
  | None =>
      modify (with_env (set_fs (<[path := File true EmptyString]> fs_now)))
  end.

(** [f.write(text)] on a file opened for writing or appending: the
    text lands at the end of the file. *)
Definition write (path : string) (text : string) : M unit :=
  modify (with_env (fun w =>
    match fs w !! path with
    | Some (File writable content) =>
        set_fs (<[path := File writable (content +:+ text)]> (fs w)) w
    | _ => w
    end)).

End Files.

(* ===================================================================== *)
(** ** The class [NovelAlertsModel] *)
(* ===================================================================== *)

Definition FIELD_NAMES : list string := ["URL"; "latestChapter"].
(** [self.FIELD_NAMES[i]] *)
Definition FIELD_NAMES_at (i : nat) : string := nth i FIELD_NAMES EmptyString.

Definition _message_box (text : string) : M unit := log (Message text).

(** [dict_[key]] *)
Definition getitem (dict_ : pydict) (key : string) : M (option string) :=
  match items dict_ !! key with
  | Some value => ret value
  | None => raise (KeyError key)
  end.

(** A value used where only a [str] works ([in], [<]): [None] there is
    a [TypeError]. *)
Definition as_str (value : option string) : M string :=
  match value with
  | Some text => ret text
  | None => raise TypeError
  end.

Module Net.

(** [soup(urlopen(Request(URL, headers)).read(), "html.parser")] *)
Definition fetch (URL : string) : M page :=
  log (HttpGet URL) ;;
  now <- gets (fun s => clock (env s)) ;;
  answer <- gets (fun s => web (env s) now URL) ;;
  modify (with_env tick) ;;
  match answer with
  | Some page_soup => ret page_soup
  | None => raise URLError
  end.

End Net.

Definition msg_unsupported : string :=
  "ERROR: URL is not correct or from wlnupdates or novelupdates domain".
Definition msg_no_chapter : string :=
  "ERROR: Could not find the latest chapter and was not entered into the data.".
Definition msg_login : string := "ERROR: Email or password is incorrect!".
Definition msg_connection : string :=
  "ERROR: Server connection could not be established!".
Definition msg_check : string :=
  "Error: Webscraper did not work. If this continues then restart program.".
Definition msg_duplicate : string := "ERROR: URL is already in data structure".
Definition msg_success : string := "Success".
Definition msg_not_found : string :=
  "Error: URL is not within existing data or not correct!".

(** [page_soup.find("h5").text[17:]]; [find] gives [None] when the page
    has no such element, and [None.text] is an [AttributeError]. *)
Definition _webscrape_WLN_Latest_Chapter (URL : string) : M (option string) :=
  try_except
    (page_soup <- Net.fetch URL ;;
     match find_h5 page_soup with
     | Some text => ret (Some (PyStr.slice_from 17 text))
     | None => raise AttributeError
     end)
    (_message_box msg_no_chapter ;; ret None).

(** [page_soup.findAll("a", "chp-release")[0].text] *)
Definition _webscrape_Novelupdates_Latest_Chapter (URL : string)
  : M (option string) :=
  try_except
    (page_soup <- Net.fetch URL ;;
     match findAll_chp_release page_soup with
     | text :: _ => ret (Some text)
     | [] => raise IndexError
     end)
    (_message_box msg_no_chapter ;; ret None).

Definition _get_Latest_Chapter_URL_Filtered (URL : string) : M (option string) :=
  if PyStr.contains "wln" URL && PyStr.contains "series-id" URL then
    _webscrape_WLN_Latest_Chapter URL
  else if PyStr.contains "novelupdates" URL && PyStr.contains "series" URL then
    _webscrape_Novelupdates_Latest_Chapter URL
  else
    _message_box msg_unsupported ;; ret None.

Definition _integrate_Updated_URLS (updated_URLS : list string) : string :=
  fold_left (fun message url => message +:+ url +:+ String PyStr.LF EmptyString)
            updated_URLS EmptyString.

(** The session with the relay: [SMTP_SSL(...)] may fail to connect;
    inside it, [login] and [sendmail] may fail. *)
Definition _send_Email (updated_URLS : list string) : M unit :=
  let message := _integrate_Updated_URLS updated_URLS in
  try_except
    (log SmtpConnect ;;
     now <- gets (fun s => clock (env s)) ;;
     reply <- gets (fun s => smtp (env s) now) ;;
     modify (with_env tick) ;;
     match reply with
     | ConnectionFails => raise SMTPException
     | _ =>
         try_except
           (user <- gets (fun s => _user_email (self s)) ;;
            password <- gets (fun s => _password (self s)) ;;
            log (SmtpLogin user password) ;;
            match reply with
            | LoginFails => raise SMTPException
            | _ =>
                log (SmtpSendmail user user message) ;;
                match reply with
                | SendFails => raise SMTPException
                | _ => ret tt
                end
            end)
           (_message_box msg_login)
     end)
    (_message_box msg_connection).

(** [self._url_data[i]], the dictionary the loop variable is bound to in
    round [i] of a [for dict_ in self._url_data]. *)
Definition url_data_at (i : nat) : M pydict :=
  data <- gets (fun s => _url_data (self s)) ;;
  match data !! i with
  | Some dict_ => ret dict_
  | None => raise IndexError
  end.

(** The rounds [i], [i+1], ... of the loop of [_compile_updated_URLS],
    [n] of them.  The assignment [dict_[...] = latest_chapter] changes
    the dictionary stored in the list. *)
Fixpoint compile_loop (n i : nat) (updated_URLS : list string)
  : M (list string) :=
  match n with
  | 0 => ret updated_URLS
  | S n' =>
      dict_ <- url_data_at i ;;
      url <- getitem dict_ (FIELD_NAMES_at 0) ;;
      URL <- as_str url ;;
      latest_chapter <- _get_Latest_Chapter_URL_Filtered URL ;;
      match latest_chapter with
      | None => compile_loop n' (S i) updated_URLS
      | Some latest_chapter =>
          stored <- getitem dict_ (FIELD_NAMES_at 1) ;;
          stored <- as_str stored ;;
          if PyStr.lt stored latest_chapter then
            modify (with_self (fun m =>
              set_url_data
                (<[i := setitem dict_ (FIELD_NAMES_at 1) latest_chapter]>
                   (_url_data m)) m)) ;;
            compile_loop n' (S i) (updated_URLS ++ [URL])
          else compile_loop n' (S i) updated_URLS
      end
  end.

Definition _compile_updated_URLS : M (list string) :=
  data <- gets (fun s => _url_data (self s)) ;;
  compile_loop (length data) 0 [].

(** The rows of [_write_URL_data_to_file], written one by one. *)
Fixpoint write_rows (path : string) (data : list pydict) : M unit :=
  match data with
  | [] => ret tt
  | dict_ :: data' =>
      line <- lift (DictCsv.writerow FIELD_NAMES dict_) ;;
      Files.write path line ;;
      write_rows path data'
  end.

Definition _write_URL_data_to_file : M unit :=
  path <- gets (fun s => _URL_file_path (self s)) ;;
  Files.open_w path ;;
  Files.write path (DictCsv.writeheader FIELD_NAMES) ;;
  data <- gets (fun s => _url_data (self s)) ;;
  write_rows path data.

Definition _webscrape_Check : M unit :=
  data <- gets (fun s => _url_data (self s)) ;;
  match data with
  | [] => ret tt
  | _ :: _ =>
      try_except
        (updated_URLS <- _compile_updated_URLS ;;
         match updated_URLS with
         | [] => ret tt
         | _ :: _ =>
             _write_URL_data_to_file ;;
             _send_Email updated_URLS
         end)
        (_message_box msg_check)
  end.

Definition setEmail (email : string) : M unit :=
  modify (with_self (set_user_email email)) ;;
  path <- gets (fun s => _email_file_path (self s)) ;;
  Files.open_w path ;;
  user_email <- gets (fun s => _user_email (self s)) ;;
  Files.write path user_email.

Definition _load_email : M string :=
  path <- gets (fun s => _email_file_path (self s)) ;;
  Files.read path.

Definition getEmail : M string := gets (fun s => _user_email (self s)).

Definition setPassword (password : string) : M unit :=
  modify (with_self (set_password password)).

Definition getPassword : M string := gets (fun s => _password (self s)).

Definition _load_URL_Data : M (list pydict) :=
  path <- gets (fun s => _URL_file_path (self s)) ;;
  content <- Files.read path ;;
  rows <- lift (Csv.reader_list (TextIO.readlines content)) ;;
  ret (DictCsv.DictReader rows).

(** The first loop of [addURLData]: [true] when some dictionary has the
    URL, after reporting it. *)
Fixpoint add_scan (data : list pydict) (URL : string) : M bool :=
  match data with
  | [] => ret false
  | dict_ :: data' =>
      url <- getitem dict_ "URL" ;;
      if decide (url = Some URL) then
        _message_box msg_duplicate ;; ret true
      else add_scan data' URL
  end.

Definition addURLData (URL : string) : M unit :=
  data <- gets (fun s => _url_data (self s)) ;;
  found <- add_scan data URL ;;
  if (found : bool) then ret tt else
  latest_chapter <- _get_Latest_Chapter_URL_Filtered URL ;;
  match latest_chapter with
  | None => ret tt
  | Some latest_chapter =>
      let dict_row :=
        {| items := <[FIELD_NAMES_at 1 := Some latest_chapter]>
                      (<[FIELD_NAMES_at 0 := Some URL]> ∅);
           rest := None |} in
      modify (with_self (fun m => set_url_data (_url_data m ++ [dict_row]) m)) ;;
      path <- gets (fun s => _URL_file_path (self s)) ;;
      Files.open_a path ;;
      line <- lift (DictCsv.writerow FIELD_NAMES dict_row) ;;
      Files.write path line
  end.

Definition _get_URL_data : M (list pydict) := gets (fun s => _url_data (self s)).

Definition _set_URL_data (URL_data : list pydict) : M unit :=
  modify (with_self (set_url_data URL_data)) ;;
  _write_URL_data_to_file.

(** [list.remove(x)]: the first element equal to [x] goes; a list
    without one is a [ValueError]. *)
Fixpoint list_remove (x : pydict) (l : list pydict) : outcome (list pydict) :=
  match l with
  | [] => Raise ValueError
  | y :: l' =>
      if decide (y = x) then Ret l'
      else obind (list_remove x l') (fun r => Ret (y :: r))
  end.

(** The loop of [deleteURLData] over the dictionaries not yet seen. *)
Fixpoint delete_scan (todo : list pydict) (URL : string) : M unit :=
  match todo with
  | [] => _message_box msg_not_found
  | dict_ :: todo' =>
      url <- getitem dict_ (FIELD_NAMES_at 0) ;;
      if decide (url = Some URL) then
        data <- gets (fun s => _url_data (self s)) ;;
        data' <- lift (list_remove dict_ data) ;;
        modify (with_self (set_url_data data')) ;;
        _message_box msg_success ;;
        _write_URL_data_to_file
      else delete_scan todo' URL
  end.

Definition deleteURLData (URL : string) : M unit :=
  data <- gets (fun s => _url_data (self s)) ;;
  delete_scan data URL.

(** [NovelAlertsModel(message_box, URL_path, email_path)] in a world:
    the new object, or the exception that ended the construction. *)
Definition __init__ (URL_path email_path : string) : M unit :=
  modify (with_self (fun _ =>
    {| _URL_file_path := URL_path; _email_file_path := email_path;
       _user_email := EmptyString; _url_data := []; _password := EmptyString |})) ;;
  user_email <- _load_email ;;
  modify (with_self (set_user_email user_email)) ;;
  url_data <- _load_URL_Data ;;
  modify (with_self (set_url_data url_data)) ;;
  modify (with_self (set_password EmptyString)) ;;
  match url_data with
  | [] => _write_URL_data_to_file
  | _ :: _ => ret tt
  end.

(** The object the constructor leaves in world [w], with the outcome of
    the construction. *)
Definition construct (URL_path email_path : string) (w : world)
  : outcome unit * state :=
  __init__ URL_path email_path
    {| self := {| _URL_file_path := URL_path; _email_file_path := email_path;
                  _user_email := EmptyString; _url_data := [];
                  _password := EmptyString |};
       env := w |}.

(** The public operations of the core, as a caller invokes them. *)
Inductive operation : Type :=
| AddURL (URL : string)
| DeleteURL (URL : string)
| CheckForUpdates
| SetEmail (email : string)
| GetEmail
| SetPassword (password : string)
| GetPassword.

Definition run_op (op : operation) : M unit :=
  match op with
  | AddURL URL => addURLData URL
  | DeleteURL URL => deleteURLData URL
  | CheckForUpdates => _webscrape_Check
  | SetEmail email => setEmail email
  | GetEmail => getEmail ;; ret tt
  | SetPassword password => setPassword password
  | GetPassword => getPassword ;; ret tt
  end.


(* ===================================================================== *)
(** ** Ledgers of well-formed records *)
(* ===================================================================== *)

(** The dictionary [{"URL": url, "latestChapter": chapter}]. *)
Definition record (url chapter : string) : pydict :=
  {| items := <["latestChapter" := Some chapter]> (<["URL" := Some url]> ∅);
     rest := None |}.

(** The in-memory ledger that holds the given (URL, token) pairs. *)
Definition ledger_of (rows : list (string * string)) : list pydict :=
  map (fun r => record (fst r) (snd r)) rows.

Definition urls (rows : list (string * string)) : list string := map fst rows.

(** The messages among the events of a trace. *)
Definition messages (tr : list event) : list string :=
  flat_map (fun e => match e with Message text => [text] | _ => [] end) tr.

(** The scraper applied to the URLs of a list in order, as the update
    check does. *)
Fixpoint scrape_all (URLs : list string) : M (list (option string)) :=
  match URLs with
  | [] => ret []
  | URL :: URLs' =>
      o <- _get_Latest_Chapter_URL_Filtered URL ;;
      os <- scrape_all URLs' ;;
      ret (o :: os)
  end.

(** *** The update rule in the words of the specification *)

(** A record is updated when the scraper delivered a token and that
    token is strictly greater than the stored one. *)
Definition is_update (stored : string) (scraped : option string) : bool :=
  match scraped with
  | Some latest => PyStr.lt stored latest
  | None => false
  end.

(** The record after the check: the scraped token replaces the stored
    one exactly when the record is updated. *)
Definition checked (row : string * string) (scraped : option string)
  : string * string :=
  match scraped with
  | Some latest =>
      if PyStr.lt (snd row) latest then (fst row, latest) else row
  | None => row
  end.

Fixpoint apply_updates (rows : list (string * string))
                       (scraped : list (option string))
  : list (string * string) :=
  match rows, scraped with
  | row :: rows', o :: scraped' => checked row o :: apply_updates rows' scraped'
  | _, _ => rows
  end.

(** The URLs reported as updated, in ledger order. *)
Fixpoint updated_urls (rows : list (string * string))
                      (scraped : list (option string)) : list string :=
  match rows, scraped with
  | row :: rows', o :: scraped' =>
      (if is_update (snd row) o then [fst row] else [])
      ++ updated_urls rows' scraped'
  | _, _ => []
  end.

(** *** The ledger file in the words of the specification *)

(** The line of a record: both fields, quoted where the dialect asks
    for it, a comma between them and the line terminator after. *)
Definition row_line (row : string * string) : string :=
  PyStr.of_list (Csv.join_append (PyStr.to_list (fst row))
                 ++ Csv.delimiter
                    :: Csv.join_append (PyStr.to_list (snd row))
                 ++ Csv.lineterminator).

Definition header_line : string :=
  "URL,latestChapter" +:+ PyStr.of_list Csv.lineterminator.

(** The header followed by the lines of the records in order. *)
Definition ledger_text (rows : list (string * string)) : string :=
  header_line +:+ String.concat EmptyString (map row_line rows).

(** The path can be opened for writing. *)
Definition writable_path (w : world) (path : string) : Prop :=
  fs w !! path = None ∨ ∃ content, fs w !! path = Some (File true content).

(* ===================================================================== *)
(** ** States reached by the operations *)
(* ===================================================================== *)

(** *** What a scrape may change *)

Definition is_scrape_event (e : event) : Prop :=
  match e with
  | HttpGet _ | Message _ => True
  | _ => False
  end.

(** From [s] to [s'] nothing happened but GETs and messages: the
    object, the files and the oracles are the same. *)
Definition only_scraped (s s' : state) : Prop :=
  self s' = self s /\ fs (env s') = fs (env s)
  /\ web (env s') = web (env s) /\ smtp (env s') = smtp (env s)
  /\ exists evs, trace (env s') = trace (env s) ++ evs
                 /\ Forall is_scrape_event evs.

(** One more message and nothing else. *)
Definition said (text : string) (s : state) : state :=
  with_env (record_event (Message text)) s.

(** *** What persisting changes *)

(** The file at [path] now holds [text]. *)
Definition stored (path text : string) (s : state) : state :=
  with_env (fun w => set_fs (<[path := File true text]> (fs w)) w) s.

(** The state after [_write_URL_data_to_file] went through: the ledger
    file was opened for writing and holds the text of [rows]. *)
Definition persisted (rows : list (string * string)) (s : state) : state :=
  stored (_URL_file_path (self s)) (ledger_text rows)
         (with_env (record_event (FileOpen (_URL_file_path (self s)) ModeW)) s).

(** The state after [open(path, mode)] was called. *)
Definition opened (path : string) (mode : open_mode) (s : state) : state :=
  with_env (record_event (FileOpen path mode)) s.

(* ===================================================================== *)
(** ** A sample installation *)
(* ===================================================================== *)

Module Sample.

Definition wln (id : string) : string :=
  "https://www.wlnupdates.com/series-id/" +:+ id +:+ "/".

Definition page_of (token : string) : page :=
  {| find_h5 := Some ("Latest release - " +:+ token);
     findAll_chp_release := [token] |}.

(** A site that serves the tokens 6, 3 and 10 for the series 1, 2 and 3
    and fails on everything else. *)
Definition web0 (now : nat) (URL : string) : option page :=
  if String.eqb URL (wln "1") then Some (page_of "6")
  else if String.eqb URL (wln "2") then Some (page_of "3")
  else if String.eqb URL (wln "3") then Some (page_of "10")
  else None.

Definition URL_path : string := "data/URL_log.csv".
Definition email_path : string := "data/email.txt".

Definition world_with (files : gmap string node) : world :=
  {| fs := files; web := web0; smtp := fun _ => Delivers;
     clock := 0; trace := [] |}.

Definition object_with (rows : list (string * string)) : model :=
  {| _URL_file_path := URL_path; _email_file_path := email_path;
     _user_email := "reader@example.org"; _url_data := ledger_of rows;
     _password := EmptyString |}.

Definition files0 : gmap string node :=
  {[ URL_path := File true header_line;
     email_path := File true "reader@example.org" ]}.

(** The stored tokens 5, 5 and 9 against the served 6, 3 and 10. *)
Definition rows0 : list (string * string) :=
  [(wln "1", "5"); (wln "2", "5"); (wln "3", "9")].

Definition state0 : state :=
  {| self := object_with rows0; env := world_with files0 |}.

(** An installation whose two files are read-only, the ledger file
    holding one record. *)
Definition files_ro : gmap string node :=
  {[ URL_path := File false (ledger_text [(wln "1", "5")]);
     email_path := File false "reader@example.org" ]}.

(** The object constructed on that installation. *)
Definition state_ro : state :=
  snd (construct URL_path email_path (world_with files_ro)).

(** A token with a carriage return between two characters, and the
    same token with a line feed in its place. *)
Definition token_CR : string := String "a" (String PyStr.CR (String "b" EmptyString)).
Definition token_LF : string := String "a" (String PyStr.LF (String "b" EmptyString)).

Definition state_CR : state :=
  {| self := object_with [(wln "1", token_CR)]; env := world_with files0 |}.

(** A token one character longer than the reader's field size limit. *)
Definition token_long : string :=
  PyStr.of_list (repeat "a"%char (S (N.to_nat Csv.field_limit))).

Definition state_long : state :=
  {| self := object_with [(wln "1", token_long)]; env := world_with files0 |}.

(** A dictionary as the reader builds it from a row of three fields. *)
Definition surplus_row : pydict :=
  {| items := items (record (wln "2") "5"); rest := Some ["extra"] |}.

(** A ledger with that dictionary between two well-formed records. *)
Definition state_surplus : state :=
  {| self := {| _URL_file_path := URL_path; _email_file_path := email_path;
                _user_email := "reader@example.org";
                _url_data := ledger_of [(wln "1", "5")]
                             ++ surplus_row :: ledger_of [(wln "3", "9")];
                _password := EmptyString |};
     env := world_with files0 |}.

(** The sample ledger with its text in the ledger file. *)
Definition state_mirrored : state :=
  {| self := object_with rows0;
     env := world_with (<[URL_path := File true (ledger_text rows0)]> files0) |}.

(** A ledger file under another header, and the object loaded from
    it. *)
Definition files_other_header : gmap string node :=
  <[URL_path := File true
      ("url,chapter" +:+ PyStr.of_list Csv.lineterminator
       +:+ "x,1" +:+ PyStr.of_list Csv.lineterminator)]> files0.

Definition state_other_header : state :=
  snd (construct URL_path email_path (world_with files_other_header)).


(** The sample installation without its ledger file. *)
Definition state_no_file : state :=
  {| self := object_with []; env := world_with (delete URL_path files0) |}.

(** A ledger file whose second record has a URL and no token, and the
    object loaded from it. *)
Definition files_short_row : gmap string node :=
  <[URL_path := File true
      (header_line +:+ row_line (wln "1", "5")
       +:+ wln "2" +:+ PyStr.of_list Csv.lineterminator
       +:+ row_line (wln "3", "9"))]> files0.

Definition state_short_row : state :=
  snd (construct URL_path email_path (world_with files_short_row)).

(** The dictionary the reader builds from that record. *)
Definition short_row : pydict :=
  {| items := <["latestChapter" := None]> (<["URL" := Some (wln "2")]> ∅);
     rest := None |}.

End Sample.

(** A computation leaves an attribute (or any view [proj] of the
    object) as it found it, whatever its outcome. *)
Definition preserves {A B} (proj : model -> A) (m : M B) : Prop :=
  forall s, proj (self (snd (m s))) = proj (self s).


(** The exception [open(path, "w")] or [open(path, "a")] meets in a
    world, if any. *)
Definition open_error (w : world) (path : string) : option exn :=
  match fs w !! path with
  | Some Dir => Some (IsADirectoryError path)
  | Some (File false _) => Some (PermissionError path)
  | Some (File true _) | None => None
  end.

(** The file an operation opens for writing or appending. *)
Definition written_path (op : operation) (m : model) : option string :=
  match op with
  | SetEmail _ => Some (_email_file_path m)
  | AddURL _ | DeleteURL _ => Some (_URL_file_path m)
  | CheckForUpdates | GetEmail | SetPassword _ | GetPassword => None
  end.


(* ===================================================================== *)
(** ** The reader as one pass over the text *)
(* ===================================================================== *)

Module CsvPass.
Import PyStr Csv.

(** What [reader_rows] delivers when the input has ended. *)
Definition at_end (r : reader) : outcome (list (list string)) :=
  if negb (Nat.eqb (length (field r)) 0)
     || parser_state_eqb (state r) IN_QUOTED_FIELD
  then Ret [fields (parse_save_field r)]
  else Ret [].

(** [reader_rows] after a line went through the parser: the record is
    delivered and the parser reset, or the record goes on. *)
Definition after_line (input : list (list ascii)) (r : reader)
  : outcome (list (list string)) :=
  if parser_state_eqb (state r) START_RECORD
  then obind (reader_rows parse_reset input) (fun rows => Ret (fields r :: rows))
  else reader_rows r input.

(** The reader over the characters of the text without splitting it
    into lines first: the end-of-line marker follows every [LF] and the
    end of a last line that lacks one ([mid] tells whether characters
    were read since the last marker). *)
Fixpoint run (mid : bool) (r : reader) (s : list ascii)
  : outcome (list (list string)) :=
  match s with
  | [] =>
      if mid
      then obind (parse_process_char r None) (fun r2 =>
             if parser_state_eqb (state r2) START_RECORD
             then Ret [fields r2] else at_end r2)
      else at_end r
  | c :: s' =>
      obind (parse_process_char r (Some c)) (fun r1 =>
        if Ascii.eqb c LF
        then obind (parse_process_char r1 None) (fun r2 =>
               if parser_state_eqb (state r2) START_RECORD
               then obind (run false parse_reset s')
                          (fun rows => Ret (fields r2 :: rows))
               else run false r2 s')
        else run true r1 s')
  end.

(** The line being read and the lines after it. *)
Definition split_first (input : list (list ascii))
  : list ascii * list (list ascii) :=
  match input with
  | [] => ([], [])
  | l :: ls => (l, ls)
  end.

(** A character that does not make the writer quote a field. *)
Definition plain (c : ascii) : Prop := needs_quoting c = false.

(** The parser is where a field starts. *)
Definition starting (st : parser_state) : Prop :=
  st = START_RECORD \/ st = START_FIELD.

(** A text without carriage return. *)
Definition no_CR (l : list ascii) : Prop :=
  forallb (fun c => negb (Ascii.eqb c CR)) l = true.

(** The characters of a record of two fields as the reader meets them,
    the line terminator having become [LF]. *)
Definition record_chars (row : string * string) : list ascii :=
  join_append (to_list (fst row))
  ++ delimiter :: join_append (to_list (snd row)) ++ [LF].

(** The characters of a record of two fields as the writer emits them. *)
Definition record_text (row : string * string) : list ascii :=
  join_append (to_list (fst row))
  ++ delimiter :: join_append (to_list (snd row)) ++ lineterminator.

End CsvPass.

(** A field the ledger file gives back as it was stored: it has no
    carriage return and is within the reader's field size limit. *)
Definition storable (f : string) : bool :=
  forallb (fun c => negb (Ascii.eqb c PyStr.CR)) (PyStr.to_list f)
  && (N.of_nat (length (PyStr.to_list f)) <=? Csv.field_limit)%N.

Definition storable_rows (rows : list (string * string)) : bool :=
  forallb (fun row => storable (fst row) && storable (snd row)) rows.

(* ===================================================================== *)
(** ** Further states and predicates *)
(* ===================================================================== *)

(** The state after one network session that left the events [evs]. *)
Definition after_session (evs : list event) (s : state) : state :=
  with_env (fun w => {| fs := fs w; web := web w; smtp := smtp w;
                        clock := S (clock w); trace := trace w ++ evs |}) s.

(** A dictionary [DictWriter] refuses: one of its keys is no field
    name. *)
Definition has_foreign_key (d : pydict) : Prop :=
  ~ (rest d = None
     /\ dom (items d) ⊆ (list_to_set FIELD_NAMES : gset string)).

(** The ledger file is a writable regular file and holds the text of
    the ledger in memory. *)
Definition mirrored (s : state) (rows : list (string * string)) : Prop :=
  _url_data (self s) = ledger_of rows
  /\ fs (env s) !! _URL_file_path (self s) = Some (File true (ledger_text rows)).

(** One line feed, as a string. *)
Definition newline : string := String PyStr.LF EmptyString.

(** The file at [path] can be appended to and holds [old], which is
    empty when the file does not exist yet. *)
Definition appendable (w : world) (path old : string) : Prop :=
  (fs w !! path = None /\ old = EmptyString)
  \/ fs w !! path = Some (File true old).

(** A record after a check against the record before it: the same URL,
    and the same token or a strictly greater one. *)
Definition not_lowered (row row' : string * string) : Prop :=
  fst row' = fst row
  /\ (snd row' = snd row \/ PyStr.lt (snd row) (snd row') = true).

(* ===================================================================== *)
(** ** The footprint of an operation *)
(* ===================================================================== *)

(** The values under the key "URL" of the dictionaries of a ledger. *)
Definition url_keys (data : list pydict) : list (option (option string)) :=
  map (fun d => items d !! "URL") data.

(** The file an operation may open for writing or appending. *)
Definition touched_path (op : operation) (o : model) : option string :=
  match op with
  | SetEmail _ => Some (_email_file_path o)
  | AddURL _ | DeleteURL _ | CheckForUpdates => Some (_URL_file_path o)
  | GetEmail | SetPassword _ | GetPassword => None
  end.

(** The external actions an operation may take when it is called on the
    object [o]. *)
Definition allowed (o : model) (op : operation) (e : event) : Prop :=
  match op, e with
  | (AddURL _ | DeleteURL _ | CheckForUpdates), Message _ => True
  | AddURL URL, HttpGet url => url = URL
  | AddURL _, FileOpen path mode => path = _URL_file_path o /\ mode = ModeA
  | DeleteURL _, FileOpen path mode => path = _URL_file_path o /\ mode = ModeW
  | CheckForUpdates, HttpGet url => Some (Some url) ∈ url_keys (_url_data o)
  | CheckForUpdates, FileOpen path mode =>
      path = _URL_file_path o /\ mode = ModeW
  | CheckForUpdates, SmtpConnect => True
  | CheckForUpdates, SmtpLogin user password =>
      user = _user_email o /\ password = _password o
  | CheckForUpdates, SmtpSendmail from_addr to_addr _ =>
      from_addr = _user_email o /\ to_addr = _user_email o
  | SetEmail _, FileOpen path mode => path = _email_file_path o /\ mode = ModeW
  | _, _ => False
  end.

(** From [s] to [s'] the object kept the property [I], the events were
    all in [P], and no file but the one at [W] changed. *)
Definition within (I : model -> Prop) (P : event -> Prop) (W : option string)
                  (s s' : state) : Prop :=
  I (self s')
  /\ (exists evs, trace (env s') = trace (env s) ++ evs /\ Forall P evs)
  /\ (forall p, W <> Some p -> fs (env s') !! p = fs (env s) !! p).

Definition footprint {A} (I : model -> Prop) (P : event -> Prop)
                     (W : option string) (m : M A) : Prop :=
  forall s, I (self s) -> within I P W s (snd (m s)).

(** The two paths of the object [o'] are those of [o]. *)
Definition paths_kept (o o' : model) : Prop :=
  _URL_file_path o' = _URL_file_path o
  /\ _email_file_path o' = _email_file_path o.

(** What a check for updates keeps of the object: the URLs of the
    ledger, the address, the password and the paths. *)
Definition check_keeps (o o' : model) : Prop :=
  url_keys (_url_data o') = url_keys (_url_data o)
  /\ _user_email o' = _user_email o
  /\ _password o' = _password o
  /\ paths_kept o o'.

(* ===================================================================== *)
(** ** Facts about records and the monad *)
(* ===================================================================== *)

Section RecordFacts.
Implicit Types (u t c : string).

Lemma record_URL u t : items (record u t) !! "URL" = Some (Some u).
Proof. reflexivity. Qed.

Lemma record_latestChapter u t :
  items (record u t) !! "latestChapter" = Some (Some t).
Proof. reflexivity. Qed.

Lemma record_setitem u t c :
  setitem (record u t) "latestChapter" c = record u c.
Proof. unfold setitem, record; simpl. f_equal. Qed.

Lemma record_inj u t u' t' : record u t = record u' t' -> u = u' /\ t = t'.
Proof.
  intros H. split.
  - pose proof (f_equal (fun d => items d !! "URL") H) as E. cbv beta in E.
    rewrite !record_URL in E. congruence.
  - pose proof (f_equal (fun d => items d !! "latestChapter") H) as E.
    cbv beta in E. rewrite !record_latestChapter in E. congruence.
Qed.

Lemma record_dict_to_list u t :
  DictCsv._dict_to_list FIELD_NAMES (record u t) = Ret [Some u; Some t].
Proof.
  unfold DictCsv._dict_to_list. destruct (decide _) as [_|N].
  - reflexivity.
  - exfalso. apply N. split; [reflexivity|].
    unfold record; simpl. rewrite !dom_insert_L. set_solver.
Qed.

Lemma ledger_of_length rows : length (ledger_of rows) = length rows.
Proof. apply length_map. Qed.

Lemma ledger_of_app rows rows' :
  ledger_of (rows ++ rows') = ledger_of rows ++ ledger_of rows'.
Proof. apply map_app. Qed.

Lemma ledger_of_inj rows rows' : ledger_of rows = ledger_of rows' -> rows = rows'.
Proof.
  revert rows'. induction rows as [|[u t] rows IH]; intros [|[u' t'] rows'] H;
    try discriminate; [reflexivity|].
  cbn [ledger_of map fst snd] in H.
  pose proof (f_equal (hd (record u t)) H) as H1.
  pose proof (f_equal (@tl pydict) H) as H2. cbn [hd tl] in H1, H2.
  apply record_inj in H1 as [-> ->]. f_equal. apply IH.
  exact H2.
Qed.
End RecordFacts.

#[global] Opaque record.

Lemma only_scraped_refl s : only_scraped s s.
Proof.
  repeat split. exists []. split; [now rewrite app_nil_r | constructor].
Qed.

Lemma only_scraped_trans s1 s2 s3 :
  only_scraped s1 s2 -> only_scraped s2 s3 -> only_scraped s1 s3.
Proof.
  intros (A1 & A2 & A3 & A4 & e1 & A5 & A6) (B1 & B2 & B3 & B4 & e2 & B5 & B6).
  repeat split; try congruence.
  exists (e1 ++ e2). split.
  - rewrite B5, A5. now rewrite app_assoc.
  - apply Forall_app; split; assumption.
Qed.

Ltac run_monad :=
  unfold bind, ret, raise, gets, modify, lift, log, try_except,
         _message_box, with_env, with_self; simpl.

Lemma _message_box_said text s : _message_box text s = (Ret tt, said text s).
Proof. reflexivity. Qed.

Lemma only_scraped_said text s : only_scraped s (said text s).
Proof.
  repeat split. exists [Message text]. split; [reflexivity|].
  repeat constructor.
Qed.

Ltac solve_scraped :=
  unfold only_scraped, said, with_env, record_event, tick; simpl;
  repeat split;
  eexists; split; [rewrite <- ?app_assoc; reflexivity | repeat constructor].

Ltac solve_messages :=
  unfold messages, said, with_env, record_event, tick; simpl;
  rewrite ?flat_map_app; simpl; rewrite ?app_nil_r; try reflexivity.

(** The scraper never raises, and it reports exactly one message when
    it delivers no token. *)
Lemma scraper_effect URL s :
  exists o s',
    _get_Latest_Chapter_URL_Filtered URL s = (Ret o, s')
    /\ only_scraped s s'
    /\ (o = None ->
        exists text, messages (trace (env s'))
                     = messages (trace (env s)) ++ [text])
    /\ (forall latest, o = Some latest ->
        messages (trace (env s')) = messages (trace (env s))).
Proof.
  unfold _get_Latest_Chapter_URL_Filtered.
  destruct (PyStr.contains "wln" URL && PyStr.contains "series-id" URL);
    [|destruct (PyStr.contains "novelupdates" URL && PyStr.contains "series" URL)].
  - unfold _webscrape_WLN_Latest_Chapter, Net.fetch. run_monad.
    destruct (web (env s) (clock (env s)) URL) as [pg|]; simpl;
      [destruct (find_h5 pg) as [text|]; simpl|];
      (eexists _, _; split; [reflexivity|]; split; [solve_scraped|split]);
      try discriminate; intros; try (exists msg_no_chapter); solve_messages.
  - unfold _webscrape_Novelupdates_Latest_Chapter, Net.fetch. run_monad.
    destruct (web (env s) (clock (env s)) URL) as [pg|]; simpl;
      [destruct (findAll_chp_release pg) as [|text ?]; simpl|];
      (eexists _, _; split; [reflexivity|]; split; [solve_scraped|split]);
      try discriminate; intros; try (exists msg_no_chapter); solve_messages.
  - run_monad.
    eexists _, _; split; [reflexivity|]; split; [solve_scraped|split];
      try discriminate; intros; try (exists msg_unsupported); solve_messages.
Qed.

(** The scraper neither reads nor writes the object. *)
Lemma scraper_with_self f URL s :
  _get_Latest_Chapter_URL_Filtered URL (with_self f s)
  = (fst (_get_Latest_Chapter_URL_Filtered URL s),
     with_self f (snd (_get_Latest_Chapter_URL_Filtered URL s))).
Proof.
  unfold _get_Latest_Chapter_URL_Filtered.
  destruct (PyStr.contains "wln" URL && PyStr.contains "series-id" URL);
    [|destruct (PyStr.contains "novelupdates" URL && PyStr.contains "series" URL)].
  - unfold _webscrape_WLN_Latest_Chapter, Net.fetch. run_monad.
    destruct (web (env s) (clock (env s)) URL) as [pg|]; simpl;
      [destruct (find_h5 pg) as [text|]; simpl|]; reflexivity.
  - unfold _webscrape_Novelupdates_Latest_Chapter, Net.fetch. run_monad.
    destruct (web (env s) (clock (env s)) URL) as [pg|]; simpl;
      [destruct (findAll_chp_release pg) as [|text ?]; simpl|]; reflexivity.
  - reflexivity.
Qed.

Lemma scrape_all_effect URLs s :
  exists outs s1,
    scrape_all URLs s = (Ret outs, s1)
    /\ length outs = length URLs /\ only_scraped s s1.
Proof.
  revert s. induction URLs as [|URL URLs IH]; intros s.
  - exists [], s. repeat split; apply only_scraped_refl.
  - destruct (scraper_effect URL s) as (o & s' & E & F & _).
    destruct (IH s') as (outs & s1 & E1 & L1 & F1).
    exists (o :: outs), s1. split; [|split].
    + simpl. unfold bind. rewrite E, E1. reflexivity.
    + simpl. now rewrite L1.
    + eapply only_scraped_trans; eassumption.
Qed.

Lemma scrape_all_with_self f URLs s :
  scrape_all URLs (with_self f s)
  = (fst (scrape_all URLs s), with_self f (snd (scrape_all URLs s))).
Proof.
  revert s. induction URLs as [|URL URLs IH]; intros s; [reflexivity|].
  simpl. unfold bind. rewrite scraper_with_self.
  destruct (scraper_effect URL s) as (o & s' & E & _). rewrite E. simpl.
  rewrite IH.
  destruct (scrape_all_effect URLs s') as (outs & s1 & E1 & _). rewrite E1.
  reflexivity.
Qed.

Lemma with_self_url_data_id s rows :
  _url_data (self s) = rows -> with_self (set_url_data rows) s = s.
Proof. destruct s as [[a b c d e] w]. simpl. intros <-. reflexivity. Qed.

Lemma ledger_lookup_middle done row todo :
  ledger_of (done ++ row :: todo) !! length done
  = Some (record (fst row) (snd row)).
Proof.
  rewrite ledger_of_app. simpl.
  rewrite <- (ledger_of_length done). apply list_lookup_middle. reflexivity.
Qed.

Lemma ledger_insert_middle done row u t todo :
  <[length done := record u t]> (ledger_of (done ++ row :: todo))
  = ledger_of (done ++ (u, t) :: todo).
Proof.
  rewrite !ledger_of_app. simpl.
  rewrite <- (ledger_of_length done).
  rewrite insert_app_r_alt by lia. rewrite Nat.sub_diag. reflexivity.
Qed.

(** The loop of the update check, from any round on: it scrapes the
    URLs still to do in order and applies the update rule to each. *)
Lemma compile_loop_spec todo : forall done acc s,
  _url_data (self s) = ledger_of (done ++ todo) ->
  exists outs s1,
    scrape_all (urls todo) s = (Ret outs, s1)
    /\ length outs = length todo
    /\ only_scraped s s1
    /\ compile_loop (length todo) (length done) acc s
       = (Ret (acc ++ updated_urls todo outs),
          with_self (set_url_data (ledger_of (done ++ apply_updates todo outs)))
                    s1).
Proof.
  induction todo as [|[u t] todo IH]; intros done acc s Hs.
  - exists [], s. repeat split; try apply only_scraped_refl.
    simpl. unfold ret. rewrite !app_nil_r.
    rewrite app_nil_r in Hs. now rewrite with_self_url_data_id.
  - destruct (scraper_effect u s) as (o & s' & E & F & _).
    pose proof F as (Fself & _).
    destruct (scrape_all_effect (urls todo) s') as (outs & s1 & E1 & L1 & F1).
    exists (o :: outs), s1.
    split; [simpl; unfold bind; now rewrite E, E1|].
    split; [simpl; rewrite L1; unfold urls; now rewrite length_map|].
    split; [eapply only_scraped_trans; eassumption|].
    cbn [length compile_loop]. unfold bind at 1.
    unfold url_data_at, bind at 1, gets at 1. rewrite Hs.
    rewrite (ledger_lookup_middle done (u, t) todo). cbn [fst snd ret].
    change (FIELD_NAMES_at 0) with "URL".
    change (FIELD_NAMES_at 1) with "latestChapter".
    unfold bind at 1, getitem at 1. rewrite record_URL. cbn [ret].
    unfold bind at 1, as_str at 1. cbn [ret].
    unfold bind at 1. rewrite E.
    assert (Hdone : forall row, length (done ++ [row]) = S (length done)).
    { intros row. rewrite length_app. simpl. lia. }
    destruct o as [latest|].
    + unfold bind at 1, getitem at 1. rewrite record_latestChapter. cbn [ret].
      unfold bind at 1, as_str at 1. cbn [ret].
      cbn [updated_urls apply_updates checked is_update fst snd].
      destruct (PyStr.lt t latest) eqn:Hlt.
      * unfold bind at 1, modify at 1. rewrite record_setitem.
        assert (Hs'' : with_self (fun m : model =>
                           set_url_data
                             (<[length done := record u latest]> (_url_data m)) m)
                         s'
                       = with_self (set_url_data
                                      (ledger_of (done ++ (u, latest) :: todo)))
                                   s').
        { unfold with_self. rewrite Fself, Hs.
          now rewrite (ledger_insert_middle done (u, t) u latest todo). }
        rewrite Hs''. clear Hs''.
        set (s'' := with_self _ s').
        destruct (IH (done ++ [(u, latest)]) (acc ++ [u]) s'')
          as (outs' & s1' & E1' & _ & _ & C).
        { subst s''. simpl. now rewrite <- app_assoc. }
        rewrite Hdone in C. rewrite C.
        subst s''. rewrite scrape_all_with_self, E1 in E1'. simpl in E1'.
        injection E1' as <- <-.
        rewrite <- !app_assoc. reflexivity.
      * destruct (IH (done ++ [(u, t)]) acc s')
          as (outs' & s1' & E1' & _ & _ & C).
        { rewrite Fself, Hs. now rewrite <- app_assoc. }
        rewrite Hdone in C. rewrite C.
        rewrite E1 in E1'. injection E1' as <- <-.
        rewrite <- !app_assoc. reflexivity.
    + cbn [updated_urls apply_updates checked is_update fst snd].
      destruct (IH (done ++ [(u, t)]) acc s')
        as (outs' & s1' & E1' & _ & _ & C).
      { rewrite Fself, Hs. now rewrite <- app_assoc. }
      rewrite Hdone in C. rewrite C.
      rewrite E1 in E1'. injection E1' as <- <-.
      rewrite <- !app_assoc. reflexivity.
Qed.

(** *** Strings and the text of the ledger file *)

Lemma append_cons (x : ascii) (a b : string) :
  String x a +:+ b = String x (a +:+ b).
Proof. reflexivity. Qed.

Lemma append_nil_l (a : string) : EmptyString +:+ a = a.
Proof. reflexivity. Qed.

Lemma append_nil_r (a : string) : a +:+ EmptyString = a.
Proof.
  induction a as [|c a IH]; [reflexivity | now rewrite append_cons, IH].
Qed.

Lemma append_assoc (a b c : string) : (a +:+ b) +:+ c = a +:+ (b +:+ c).
Proof.
  induction a as [|x a IH]; [reflexivity | now rewrite !append_cons, IH].
Qed.

Lemma concat_cons (x : string) (l : list string) :
  String.concat EmptyString (x :: l) = x +:+ String.concat EmptyString l.
Proof. destruct l; simpl; [now rewrite append_nil_r | reflexivity]. Qed.

Lemma to_list_append (a b : string) :
  PyStr.to_list (a +:+ b) = PyStr.to_list a ++ PyStr.to_list b.
Proof.
  unfold PyStr.to_list.
  induction a as [|x a IH]; [reflexivity|].
  rewrite append_cons. simpl. now rewrite IH.
Qed.

Lemma to_list_of_list (l : list ascii) : PyStr.to_list (PyStr.of_list l) = l.
Proof. apply list_ascii_of_string_of_list_ascii. Qed.

Lemma of_list_to_list (a : string) : PyStr.of_list (PyStr.to_list a) = a.
Proof. apply string_of_list_ascii_of_string. Qed.

Lemma writerow_pair (u t : string) :
  Csv.writerow [Some u; Some t]
  = Csv.join_append (PyStr.to_list u)
    ++ Csv.delimiter :: Csv.join_append (PyStr.to_list t) ++ Csv.lineterminator.
Proof.
  unfold Csv.writerow. simpl. rewrite <- app_assoc. simpl.
  destruct (PyStr.to_list u); reflexivity.
Qed.

Lemma record_writerow (row : string * string) :
  DictCsv.writerow FIELD_NAMES (record (fst row) (snd row)) = Ret (row_line row).
Proof.
  unfold DictCsv.writerow. rewrite record_dict_to_list. simpl.
  now rewrite writerow_pair.
Qed.

Lemma writeheader_text : DictCsv.writeheader FIELD_NAMES = header_line.
Proof. reflexivity. Qed.

Lemma stored_id path text s writable :
  fs (env s) !! path = Some (File writable text) ->
  with_env (fun w => set_fs (<[path := File writable text]> (fs w)) w) s = s.
Proof.
  intros H. destruct s as [m [f w sm c tr]]. unfold with_env, set_fs. simpl in *.
  now rewrite insert_id.
Qed.

Lemma bind_Ret {A B} (m : M A) (k : A -> M B) s a s' :
  m s = (Ret a, s') -> bind m k s = k a s'.
Proof. intros H. unfold bind. now rewrite H. Qed.

Lemma bind_Raise {A B} (m : M A) (k : A -> M B) s e s' :
  m s = (Raise e, s') -> bind m k s = (Raise e, s').
Proof. intros H. unfold bind. now rewrite H. Qed.

Lemma Files_write_spec path text s writable content :
  fs (env s) !! path = Some (File writable content) ->
  Files.write path text s
  = (Ret tt,
     with_env (set_fs (<[path := File writable (content +:+ text)]> (fs (env s))))
              s).
Proof.
  intros H. unfold Files.write, modify, with_env. now rewrite H.
Qed.

Lemma Files_open_w_spec path s :
  writable_path (env s) path ->
  Files.open_w path s
  = (Ret tt, stored path EmptyString (opened path ModeW s)).
Proof.
  intros H. unfold Files.open_w. run_monad.
  destruct H as [H|[content H]]; rewrite H; reflexivity.
Qed.

Lemma write_rows_spec path rows : forall s content,
  fs (env s) !! path = Some (File true content) ->
  write_rows path (ledger_of rows) s
  = (Ret tt,
     stored path (content +:+ String.concat EmptyString (map row_line rows)) s).
Proof.
  induction rows as [|row rows IH]; intros s content H.
  - simpl. unfold ret, stored. rewrite append_nil_r.
    now rewrite (stored_id path content s true).
  - cbn [ledger_of map write_rows]. rewrite record_writerow.
    fold (ledger_of rows).
    rewrite (bind_Ret _ _ s (row_line row) s) by reflexivity.
    erewrite bind_Ret by (eapply Files_write_spec; eassumption).
    rewrite (IH _ (content +:+ row_line row)) by (simpl; apply lookup_insert_eq).
    rewrite concat_cons.
    unfold stored, with_env, set_fs. simpl.
    rewrite insert_insert_eq, append_assoc. reflexivity.
Qed.

Lemma persist_spec s rows :
  _url_data (self s) = ledger_of rows ->
  writable_path (env s) (_URL_file_path (self s)) ->
  _write_URL_data_to_file s = (Ret tt, persisted rows s).
Proof.
  intros Hs Hw. unfold _write_URL_data_to_file.
  rewrite (bind_Ret _ _ s (_URL_file_path (self s)) s) by reflexivity.
  set (path := _URL_file_path (self s)) in *.
  erewrite bind_Ret by (apply Files_open_w_spec; exact Hw).
  erewrite bind_Ret
    by (eapply Files_write_spec; simpl; apply lookup_insert_eq).
  erewrite bind_Ret by reflexivity. cbn [self with_env stored opened].
  rewrite Hs.
  erewrite write_rows_spec by (simpl; apply lookup_insert_eq).
  unfold persisted, stored, opened, with_env, set_fs, ledger_text. simpl.
  fold path. rewrite !insert_insert_eq. reflexivity.
Qed.

(** *** When the file cannot be opened *)

Lemma open_error_None w path :
  open_error w path = None -> writable_path w path.
Proof.
  unfold open_error, writable_path.
  destruct (fs w !! path) as [[[] content|]|]; try discriminate; intros _.
  - right. now exists content.
  - now left.
Qed.

Lemma Files_open_w_error path s e :
  open_error (env s) path = Some e ->
  Files.open_w path s = (Raise e, opened path ModeW s).
Proof.
  unfold open_error, Files.open_w. run_monad.
  destruct (fs (env s) !! path) as [[[] content|]|]; try discriminate;
    intros [= <-]; reflexivity.
Qed.

Lemma writable_open_error w path :
  writable_path w path -> open_error w path = None.
Proof.
  unfold open_error, writable_path. intros [H|[content H]]; now rewrite H.
Qed.

(** Persisting on a file that cannot be opened for writing: the open is
    attempted and its error raised, and nothing else happens. *)
Lemma persist_refused s e :
  open_error (env s) (_URL_file_path (self s)) = Some e ->
  _write_URL_data_to_file s
  = (Raise e, opened (_URL_file_path (self s)) ModeW s).
Proof.
  intros He. unfold _write_URL_data_to_file.
  rewrite (bind_Ret _ _ s (_URL_file_path (self s)) s) by reflexivity.
  now erewrite bind_Raise by (apply Files_open_w_error; exact He).
Qed.

(* ===================================================================== *)
(** ** Substring containment *)
(* ===================================================================== *)

Lemma prefix_spec (a b : string) :
  String.prefix a b = true <-> exists post, b = a +:+ post.
Proof.
  revert b. induction a as [|x a IH]; intros b.
  - split; [intros _; now exists b | intros _; now destruct b].
  - destruct b as [|y b]; simpl.
    + split; [discriminate | intros [post H]; discriminate].
    + destruct (ascii_dec x y) as [->|N].
      * rewrite IH. split; intros [post H]; exists post.
        -- rewrite append_cons. now rewrite H.
        -- rewrite append_cons in H. now injection H.
      * split; [discriminate|]. intros [post H].
        rewrite append_cons in H. injection H as -> _. now elim N.
Qed.

(** [PyStr.contains] is containment as a substring. *)
Lemma contains_spec (needle hay : string) :
  PyStr.contains needle hay = true
  <-> exists pre post, hay = pre +:+ needle +:+ post.
Proof.
  induction hay as [|c hay IH].
  - cbn [PyStr.contains]. rewrite orb_false_r. split.
    + intros H. apply prefix_spec in H as [post H]. now exists EmptyString, post.
    + intros (pre & post & H). apply prefix_spec.
      destruct pre; [now exists post | discriminate].
  - cbn [PyStr.contains]. rewrite orb_true_iff. split.
    + intros [H|H].
      * apply prefix_spec in H as [post H]. now exists EmptyString, post.
      * apply IH in H as (pre & post & H).
        exists (String c pre), post. rewrite append_cons. now rewrite H.
    + intros (pre & post & H). destruct pre as [|x pre].
      * left. apply prefix_spec. now exists post.
      * right. apply IH. rewrite append_cons in H. injection H as _ H.
        now exists pre, post.
Qed.

(* ===================================================================== *)
(** ** The scraper dispatch *)
(* ===================================================================== *)

(** C3: the dispatch of the scraper takes Extraction Routine A exactly
    when the URL contains both "wln" and "series-id"; failing that, it
    takes Extraction Routine B exactly when the URL contains both
    "novelupdates" and "series"; otherwise it delivers no token and
    reports the unsupported-domain error on the message channel, doing
    nothing else.  Containment is case-sensitive: the upper-case
    spelling of a supported URL is unsupported. *)
Theorem dispatch_rule (URL : string) (s : state) :
  let both_A := PyStr.contains "wln" URL = true
                /\ PyStr.contains "series-id" URL = true in
  let both_B := PyStr.contains "novelupdates" URL = true
                /\ PyStr.contains "series" URL = true in
  (both_A ->
   _get_Latest_Chapter_URL_Filtered URL s = _webscrape_WLN_Latest_Chapter URL s)
  /\ (~ both_A -> both_B ->
      _get_Latest_Chapter_URL_Filtered URL s
      = _webscrape_Novelupdates_Latest_Chapter URL s)
  /\ (~ both_A -> ~ both_B ->
      _get_Latest_Chapter_URL_Filtered URL s
      = (Ret None, said msg_unsupported s))
  /\ _get_Latest_Chapter_URL_Filtered "https://www.wlnupdates.com/series-id/1/" s
     = _webscrape_WLN_Latest_Chapter "https://www.wlnupdates.com/series-id/1/" s
  /\ _get_Latest_Chapter_URL_Filtered "https://www.WLNUPDATES.com/SERIES-ID/1/" s
     = (Ret None, said msg_unsupported s).
Proof.
  cbv zeta. unfold _get_Latest_Chapter_URL_Filtered.
  repeat split; try reflexivity.
  - intros [-> ->]. reflexivity.
  - intros NA [-> ->].
    destruct (PyStr.contains "wln" URL), (PyStr.contains "series-id" URL);
      try reflexivity.
    elim NA. now split.
  - intros NA NB.
    destruct (PyStr.contains "wln" URL), (PyStr.contains "series-id" URL);
      try (elim NA; now split);
      destruct (PyStr.contains "novelupdates" URL),
               (PyStr.contains "series" URL);
      try (elim NB; now split); reflexivity.
Qed.

(** The dispatch rule at a URL of the second site. *)
Lemma dispatch_rule_witness :
  _get_Latest_Chapter_URL_Filtered "https://www.novelupdates.com/series/x/"
    {| self := {| _URL_file_path := "u"; _email_file_path := "e";
                  _user_email := "a@b.c"; _url_data := [];
                  _password := EmptyString |};
       env := {| fs := ∅; web := fun _ _ => None; smtp := fun _ => Delivers;
                 clock := 0; trace := [] |} |}
  = _webscrape_Novelupdates_Latest_Chapter "https://www.novelupdates.com/series/x/"
    {| self := {| _URL_file_path := "u"; _email_file_path := "e";
                  _user_email := "a@b.c"; _url_data := [];
                  _password := EmptyString |};
       env := {| fs := ∅; web := fun _ _ => None; smtp := fun _ => Delivers;
                 clock := 0; trace := [] |} |}.
Proof.
  refine (proj1 (proj2 (dispatch_rule _ _)) _ _).
  - vm_compute. intros [H _]. discriminate.
  - vm_compute. split; reflexivity.
Defined.

(* ===================================================================== *)
(** ** The update check *)
(* ===================================================================== *)

Lemma apply_updates_length rows : forall outs,
  length (apply_updates rows outs) = length rows.
Proof.
  induction rows as [|row rows IH]; intros [|o outs]; simpl; try reflexivity.
  now rewrite IH.
Qed.

Lemma apply_updates_lookup rows : forall outs i row o,
  rows !! i = Some row -> outs !! i = Some o ->
  apply_updates rows outs !! i = Some (checked row o).
Proof.
  induction rows as [|r rows IH]; intros [|o' outs] [|i] row o Hr Ho;
    try discriminate; simpl in *.
  - congruence.
  - eapply IH; eassumption.
Qed.

Lemma updated_urls_filter rows : forall outs,
  updated_urls rows outs
  = map (fun p => fst (fst p))
        (List.filter (fun p => is_update (snd (fst p)) (snd p))
                     (combine rows outs)).
Proof.
  induction rows as [|row rows IH]; intros [|o outs]; simpl; try reflexivity.
  rewrite IH. destruct (is_update (snd row) o); reflexivity.
Qed.

Lemma updated_urls_delete rows : forall outs i,
  outs !! i = Some None ->
  updated_urls (delete i rows) (delete i outs) = updated_urls rows outs.
Proof.
  induction rows as [|row rows IH]; intros outs i H; [reflexivity|].
  destruct outs as [|o outs]; [destruct i; discriminate|].
  destruct i as [|i]; simpl in H.
  - injection H as ->. reflexivity.
  - change (updated_urls (row :: delete i rows) (o :: delete i outs)
            = (if is_update (snd row) o then [fst row] else [])
              ++ updated_urls rows outs).
    simpl. now rewrite IH.
Qed.

Lemma compile_spec s rows :
  _url_data (self s) = ledger_of rows ->
  exists outs s1,
    scrape_all (urls rows) s = (Ret outs, s1)
    /\ length outs = length rows
    /\ only_scraped s s1
    /\ _compile_updated_URLS s
       = (Ret (updated_urls rows outs),
          with_self (set_url_data (ledger_of (apply_updates rows outs))) s1).
Proof.
  intros Hs.
  destruct (compile_loop_spec rows [] [] s Hs) as (outs & s1 & E & L & F & C).
  exists outs, s1.
  split; [exact E|]. split; [exact L|]. split; [exact F|].
  unfold _compile_updated_URLS.
  rewrite (bind_Ret _ _ s (_url_data (self s)) s) by reflexivity.
  rewrite Hs, ledger_of_length. exact C.
Qed.

Lemma ledger_of_lookup rows i row :
  rows !! i = Some row ->
  ledger_of rows !! i = Some (record (fst row) (snd row)).
Proof. intros H. unfold ledger_of. now rewrite list_lookup_fmap, H. Qed.

Lemma updated_urls_subset rows : forall outs url,
  url ∈ updated_urls rows outs -> url ∈ urls rows.
Proof.
  induction rows as [|row rows IH]; intros [|o outs] url H;
    try (now inversion H).
  cbn [updated_urls] in H. simpl. apply elem_of_cons.
  apply elem_of_app in H as [H|H]; [|right; now apply (IH outs)].
  destruct (is_update (snd row) o); [|now inversion H].
  apply list_elem_of_singleton in H. now left.
Qed.

(** A record that is updated has its URL in the list returned. *)
Lemma updated_urls_reported rows : forall outs i row o,
  rows !! i = Some row -> outs !! i = Some o ->
  is_update (snd row) o = true -> fst row ∈ updated_urls rows outs.
Proof.
  induction rows as [|r rows IH]; intros [|o' outs] [|i] row o Hr Ho Hu;
    try discriminate; cbn [updated_urls]; apply elem_of_app.
  - injection Hr as ->. injection Ho as ->. left. rewrite Hu.
    now apply list_elem_of_singleton.
  - right. now apply (IH outs i row o).
Qed.

(** A record that is not updated has its URL in the list returned only
    when another record has the same URL. *)
Lemma updated_urls_not_reported rows : forall outs i row o,
  NoDup (urls rows) ->
  rows !! i = Some row -> outs !! i = Some o ->
  is_update (snd row) o = false -> fst row ∉ updated_urls rows outs.
Proof.
  induction rows as [|r rows IH]; intros [|o' outs] [|i] row o Hnd Hr Ho Hu;
    try discriminate; cbn [updated_urls]; simpl in Hnd;
    apply NoDup_cons in Hnd as [Hhd Hnd]; intros H;
    apply elem_of_app in H as [H|H].
  - injection Hr as ->. injection Ho as ->. rewrite Hu in H. inversion H.
  - injection Hr as ->. apply Hhd. now apply (updated_urls_subset rows outs).
  - destruct (is_update (snd r) o'); [|now inversion H].
    apply list_elem_of_singleton in H. apply Hhd. rewrite <- H.
    simpl in Hr. unfold urls. apply list_elem_of_fmap.
    exists row. split; [reflexivity|]. now apply (list_elem_of_lookup_2 _ i).
  - now apply (IH outs i row o Hnd Hr Ho Hu).
Qed.

(** C1: for every record of the ledger, the update check reports the
    record's URL and replaces the stored token by the scraped one if and
    only if the scraper delivered a token that is strictly greater than
    the stored token in the lexicographic order of strings: the ledger
    after the check then holds the scraped token at the record's place
    and the URL is in the list returned; otherwise the ledger holds the
    record as it was and, the URLs being distinct, the URL is not in the
    list returned.  The scraper is called once per record, in ledger
    order.  In that order 5 is below 6, 5 is not below 3 and 9 is not
    below 10. *)
Theorem compile_updates_rule (s : state) (rows : list (string * string)) :
  _url_data (self s) = ledger_of rows ->
  exists outs s1 updated s',
    scrape_all (urls rows) s = (Ret outs, s1)
    /\ length outs = length rows
    /\ _compile_updated_URLS s = (Ret updated, s')
    /\ s' = with_self (set_url_data (ledger_of (apply_updates rows outs))) s1
    /\ length (_url_data (self s')) = length rows
    /\ updated = updated_urls rows outs
    /\ updated
       = map (fun p => fst (fst p))
             (List.filter (fun p => is_update (snd (fst p)) (snd p))
                          (combine rows outs))
    /\ (forall i url stored o,
          rows !! i = Some (url, stored) -> outs !! i = Some o ->
          (is_update stored o = true
           <-> exists latest, o = Some latest /\ PyStr.lt stored latest = true)
          /\ apply_updates rows outs !! i
             = Some (url, if is_update stored o then default stored o else stored)
          /\ (forall latest,
                o = Some latest -> PyStr.lt stored latest = true ->
                _url_data (self s') !! i = Some (record url latest)
                /\ url ∈ updated)
          /\ (forall latest,
                o = Some latest -> PyStr.lt stored latest = false ->
                _url_data (self s') !! i = Some (record url stored)
                /\ (NoDup (urls rows) -> url ∉ updated)))
    /\ PyStr.lt "5" "6" = true
    /\ PyStr.lt "5" "3" = false
    /\ PyStr.lt "9" "10" = false.
Proof.
  intros Hs. destruct (compile_spec s rows Hs) as (outs & s1 & E & L & _ & C).
  exists outs, s1, (updated_urls rows outs),
    (with_self (set_url_data (ledger_of (apply_updates rows outs))) s1).
  split; [exact E|]. split; [exact L|]. split; [exact C|].
  split; [reflexivity|].
  split; [simpl; now rewrite ledger_of_length, apply_updates_length|].
  split; [reflexivity|].
  split; [apply updated_urls_filter|].
  split; [|repeat split; reflexivity].
  intros i url stored o Hr Ho.
  pose proof (apply_updates_lookup rows outs i (url, stored) o Hr Ho) as Hl.
  split; [|split; [|split]].
  - destruct o as [latest|]; simpl.
    + split; [intros H; now exists latest | intros (l & [= ->] & H); exact H].
    + split; [discriminate | intros (l & H & _); discriminate].
  - rewrite Hl. destruct o as [latest|]; simpl; [|reflexivity].
    now destruct (PyStr.lt stored latest).
  - intros latest -> Hlt. split.
    + cbn [self with_self set_url_data _url_data].
      rewrite (ledger_of_lookup _ i _ Hl). simpl. now rewrite Hlt.
    + now apply (updated_urls_reported rows outs i (url, stored) (Some latest)).
  - intros latest -> Hlt. split.
    + cbn [self with_self set_url_data _url_data].
      rewrite (ledger_of_lookup _ i _ Hl). simpl. now rewrite Hlt.
    + intros Hnd.
      now apply (updated_urls_not_reported rows outs i (url, stored)
                   (Some latest)).
Qed.

(** The rule on the sample ledger. *)
Lemma compile_updates_rule_witness :
  exists outs s1 updated s',
    scrape_all (urls Sample.rows0) Sample.state0 = (Ret outs, s1)
    /\ length outs = length Sample.rows0
    /\ _compile_updated_URLS Sample.state0 = (Ret updated, s')
    /\ s' = with_self (set_url_data
                         (ledger_of (apply_updates Sample.rows0 outs))) s1
    /\ length (_url_data (self s')) = length Sample.rows0
    /\ updated = updated_urls Sample.rows0 outs
    /\ updated
       = map (fun p => fst (fst p))
             (List.filter (fun p => is_update (snd (fst p)) (snd p))
                          (combine Sample.rows0 outs))
    /\ (forall i url stored o,
          Sample.rows0 !! i = Some (url, stored) -> outs !! i = Some o ->
          (is_update stored o = true
           <-> exists latest, o = Some latest /\ PyStr.lt stored latest = true)
          /\ apply_updates Sample.rows0 outs !! i
             = Some (url, if is_update stored o then default stored o else stored)
          /\ (forall latest,
                o = Some latest -> PyStr.lt stored latest = true ->
                _url_data (self s') !! i = Some (record url latest)
                /\ url ∈ updated)
          /\ (forall latest,
                o = Some latest -> PyStr.lt stored latest = false ->
                _url_data (self s') !! i = Some (record url stored)
                /\ (NoDup (urls Sample.rows0) -> url ∉ updated)))
    /\ PyStr.lt "5" "6" = true
    /\ PyStr.lt "5" "3" = false
    /\ PyStr.lt "9" "10" = false.
Proof. apply (compile_updates_rule Sample.state0 Sample.rows0). reflexivity. Defined.

(** Stored 5 against scraped 6 is updated to 6; stored 5 against 3 stays
    5; stored 9 against 10 stays 9, as 10 is smaller than 9 as a
    string. *)
Example compile_sample :
  fst (_compile_updated_URLS Sample.state0) = Ret [Sample.wln "1"]
  /\ _url_data (self (snd (_compile_updated_URLS Sample.state0)))
     = ledger_of [(Sample.wln "1", "6"); (Sample.wln "2", "5");
                  (Sample.wln "3", "9")]
  /\ PyStr.lt "5" "6" = true /\ PyStr.lt "5" "3" = false
  /\ PyStr.lt "9" "10" = false /\ PyStr.lt "5" "5" = false.
Proof. vm_compute. repeat split. Qed.

(** C2: a record for which the scraper delivers no token is skipped:
    its entry in the ledger is unchanged and nothing is reported for it,
    the list of updated URLs being that of the ledger without the record;
    the check goes on over the whole ledger and returns without raising.
    A failure to fetch or parse a page makes the scraper deliver no
    token instead of raising. *)
Theorem absent_scrape_is_skipped (s : state) (rows : list (string * string)) :
  _url_data (self s) = ledger_of rows ->
  (forall URL st, web (env st) (clock (env st)) URL = None ->
     exists st', _get_Latest_Chapter_URL_Filtered URL st = (Ret None, st'))
  /\ exists outs s1 updated s',
       scrape_all (urls rows) s = (Ret outs, s1)
       /\ length outs = length rows
       /\ _compile_updated_URLS s = (Ret updated, s')
       /\ _url_data (self s') = ledger_of (apply_updates rows outs)
       /\ length (_url_data (self s')) = length (_url_data (self s))
       /\ forall i, outs !! i = Some None ->
            _url_data (self s') !! i = _url_data (self s) !! i
            /\ updated = updated_urls (delete i rows) (delete i outs).
Proof.
  intros Hs. split.
  - intros URL st Hweb. unfold _get_Latest_Chapter_URL_Filtered.
    destruct (PyStr.contains "wln" URL && PyStr.contains "series-id" URL);
      [|destruct (PyStr.contains "novelupdates" URL
                  && PyStr.contains "series" URL)].
    + unfold _webscrape_WLN_Latest_Chapter, Net.fetch. run_monad.
      rewrite Hweb. eexists. reflexivity.
    + unfold _webscrape_Novelupdates_Latest_Chapter, Net.fetch. run_monad.
      rewrite Hweb. eexists. reflexivity.
    + eexists. reflexivity.
  - destruct (compile_spec s rows Hs) as (outs & s1 & E & L & _ & C).
    exists outs, s1, (updated_urls rows outs),
      (with_self (set_url_data (ledger_of (apply_updates rows outs))) s1).
    split; [exact E|]. split; [exact L|]. split; [exact C|].
    split; [reflexivity|]. split.
    + simpl. now rewrite Hs, !ledger_of_length, apply_updates_length.
    + intros i Hi. split.
      * simpl. rewrite Hs. unfold ledger_of. rewrite !list_lookup_fmap.
        destruct (rows !! i) as [row|] eqn:Hr.
        -- now rewrite (apply_updates_lookup rows outs i row None Hr Hi).
        -- apply lookup_ge_None in Hr. apply lookup_lt_Some in Hi. lia.
      * symmetry. now apply updated_urls_delete.
Qed.

(** Skipping on the sample ledger. *)
Lemma absent_scrape_is_skipped_witness :
  (forall URL st, web (env st) (clock (env st)) URL = None ->
     exists st', _get_Latest_Chapter_URL_Filtered URL st = (Ret None, st'))
  /\ exists outs s1 updated s',
       scrape_all (urls [("https://example.com/abc", "1"); (Sample.wln "1", "5")])
                  (with_self (set_url_data (ledger_of
                     [("https://example.com/abc", "1"); (Sample.wln "1", "5")]))
                     Sample.state0)
       = (Ret outs, s1)
       /\ length outs = 2
       /\ _compile_updated_URLS
            (with_self (set_url_data (ledger_of
               [("https://example.com/abc", "1"); (Sample.wln "1", "5")]))
               Sample.state0)
          = (Ret updated, s')
       /\ _url_data (self s')
          = ledger_of (apply_updates
               [("https://example.com/abc", "1"); (Sample.wln "1", "5")] outs)
       /\ length (_url_data (self s')) = 2
       /\ forall i, outs !! i = Some None ->
            _url_data (self s') !! i
            = ledger_of [("https://example.com/abc", "1"); (Sample.wln "1", "5")]
              !! i
            /\ updated
               = updated_urls
                   (delete i [("https://example.com/abc", "1");
                              (Sample.wln "1", "5")])
                   (delete i outs).
Proof.
  apply (absent_scrape_is_skipped
           (with_self (set_url_data (ledger_of
              [("https://example.com/abc", "1"); (Sample.wln "1", "5")]))
              Sample.state0)
           [("https://example.com/abc", "1"); (Sample.wln "1", "5")]).
  reflexivity.
Defined.

(** The unsupported first record is skipped with a message, the second
    one is still scraped and updated. *)
Example skip_sample :
  let s := with_self (set_url_data (ledger_of
             [("https://example.com/abc", "1"); (Sample.wln "1", "5")]))
             Sample.state0 in
  fst (_compile_updated_URLS s) = Ret [Sample.wln "1"]
  /\ _url_data (self (snd (_compile_updated_URLS s)))
     = ledger_of [("https://example.com/abc", "1"); (Sample.wln "1", "6")]
  /\ trace (env (snd (_compile_updated_URLS s)))
     = [Message msg_unsupported; HttpGet (Sample.wln "1")].
Proof. vm_compute. repeat split. Qed.

(* ===================================================================== *)
(** ** What the operations leave alone *)
(* ===================================================================== *)

Section Preserves.
Context {A : Type} (proj : model -> A).

Lemma preserves_ret {B} (b : B) : preserves proj (ret b).
Proof. intros s. reflexivity. Qed.

Lemma preserves_raise {B} e : preserves proj (@raise B e).
Proof. intros s. reflexivity. Qed.

Lemma preserves_gets {B} (f : state -> B) : preserves proj (gets f).
Proof. intros s. reflexivity. Qed.

Lemma preserves_lift {B} (o : outcome B) : preserves proj (lift o).
Proof. intros s. reflexivity. Qed.

Lemma preserves_modify_env f : preserves proj (modify (with_env f)).
Proof. intros s. reflexivity. Qed.

Lemma preserves_log e : preserves proj (log e).
Proof. intros s. reflexivity. Qed.

Lemma preserves_modify_self f :
  (forall m, proj (f m) = proj m) -> preserves proj (modify (with_self f)).
Proof. intros H s. simpl. apply H. Qed.

Lemma preserves_bind {B C} (m : M B) (k : B -> M C) :
  preserves proj m -> (forall b, preserves proj (k b)) ->
  preserves proj (bind m k).
Proof.
  intros Hm Hk s. unfold bind. specialize (Hm s).
  destruct (m s) as [[b|e] s']; simpl in *; [|exact Hm].
  rewrite Hk. exact Hm.
Qed.

Lemma preserves_try_except {B} (m handler : M B) :
  preserves proj m -> preserves proj handler ->
  preserves proj (try_except m handler).
Proof.
  intros Hm Hh s. unfold try_except. specialize (Hm s).
  destruct (m s) as [[b|e] s']; simpl in *; [exact Hm|].
  rewrite Hh. exact Hm.
Qed.

End Preserves.

Ltac preserves_step :=
  first
    [ assumption
    | apply preserves_ret | apply preserves_raise | apply preserves_gets
    | apply preserves_lift | apply preserves_log | apply preserves_modify_env
    | apply preserves_modify_self; intros ?; reflexivity
    | apply preserves_try_except
    | apply preserves_bind; [|intros ?]
    | match goal with
      | |- preserves _ (match ?x with _ => _ end) => destruct x
      end ].

Ltac preserves_auto := repeat preserves_step.

Section PreservesMethods.
Context {A : Type} (proj : model -> A).

Lemma preserves_message_box text : preserves proj (_message_box text).
Proof. apply preserves_log. Qed.


Lemma preserves_Files_open_w path : preserves proj (Files.open_w path).
Proof. unfold Files.open_w. preserves_auto. Qed.

Lemma preserves_Files_open_a path : preserves proj (Files.open_a path).
Proof. unfold Files.open_a. preserves_auto. Qed.

Lemma preserves_Files_write path text : preserves proj (Files.write path text).
Proof. apply preserves_modify_env. Qed.

Lemma preserves_write_rows path data : preserves proj (write_rows path data).
Proof.
  induction data as [|dict_ data IH]; simpl; preserves_auto.
Qed.

Lemma preserves_write_URL_data_to_file : preserves proj _write_URL_data_to_file.
Proof.
  unfold _write_URL_data_to_file. preserves_auto.
  apply preserves_write_rows.
Qed.

Lemma preserves_send_Email updated_URLS : preserves proj (_send_Email updated_URLS).
Proof. unfold _send_Email. cbv zeta. preserves_auto. Qed.

Lemma preserves_scraper URL : preserves proj (_get_Latest_Chapter_URL_Filtered URL).
Proof.
  unfold _get_Latest_Chapter_URL_Filtered, _webscrape_WLN_Latest_Chapter,
    _webscrape_Novelupdates_Latest_Chapter, Net.fetch.
  preserves_auto.
Qed.

End PreservesMethods.

(* ===================================================================== *)
(** ** Adding and deleting a URL *)
(* ===================================================================== *)

Lemma getitem_record_URL u t s :
  getitem (record u t) "URL" s = (Ret (Some u), s).
Proof. unfold getitem. now rewrite record_URL. Qed.

Lemma urls_app rows rows' : urls (rows ++ rows') = urls rows ++ urls rows'.
Proof. apply map_app. Qed.

(** The first record with a given URL, when there is one. *)
Lemma first_occurrence URL rows :
  URL ∈ urls rows ->
  exists pre t post, rows = pre ++ (URL, t) :: post /\ URL ∉ urls pre.
Proof.
  induction rows as [|[u t] rows IH]; intros H.
  - inversion H.
  - destruct (decide (u = URL)) as [->|N].
    + exists [], t, rows. split; [reflexivity | intros H'; inversion H'].
    + simpl in H. apply elem_of_cons in H as [H|H]; [congruence|].
      destruct (IH H) as (pre & t' & post & -> & Hpre).
      exists ((u, t) :: pre), t', post. split; [reflexivity|].
      simpl. intros H'. apply elem_of_cons in H' as [H'|H']; [congruence|].
      now apply Hpre.
Qed.

Lemma add_scan_absent URL rows s :
  URL ∉ urls rows -> add_scan (ledger_of rows) URL s = (Ret false, s).
Proof.
  induction rows as [|[u t] rows IH]; intros H; [reflexivity|].
  cbn [ledger_of map add_scan fst snd].
  rewrite (bind_Ret _ _ s (Some u) s) by apply getitem_record_URL.
  destruct (decide (Some u = Some URL)) as [[= ->]|_].
  - elim H. simpl. apply elem_of_cons. now left.
  - apply IH. intros H'. apply H. simpl. apply elem_of_cons. now right.
Qed.

Lemma add_scan_present URL rows s :
  URL ∈ urls rows ->
  add_scan (ledger_of rows) URL s = (Ret true, said msg_duplicate s).
Proof.
  induction rows as [|[u t] rows IH]; intros H; [inversion H|].
  cbn [ledger_of map add_scan fst snd].
  rewrite (bind_Ret _ _ s (Some u) s) by apply getitem_record_URL.
  destruct (decide (Some u = Some URL)) as [_|N].
  - reflexivity.
  - apply IH. simpl in H. apply elem_of_cons in H as [H|H]; [|exact H].
    elim N. now rewrite H.
Qed.

Lemma add_duplicate URL rows s :
  _url_data (self s) = ledger_of rows -> URL ∈ urls rows ->
  addURLData URL s = (Ret tt, said msg_duplicate s).
Proof.
  intros Hs H. unfold addURLData.
  rewrite (bind_Ret _ _ s (_url_data (self s)) s) by reflexivity.
  rewrite Hs.
  now rewrite (bind_Ret _ _ s true (said msg_duplicate s))
    by now apply add_scan_present.
Qed.

Lemma add_absent_scrape URL rows s s' :
  _url_data (self s) = ledger_of rows -> URL ∉ urls rows ->
  _get_Latest_Chapter_URL_Filtered URL s = (Ret None, s') ->
  addURLData URL s = (Ret tt, s').
Proof.
  intros Hs H E. unfold addURLData.
  rewrite (bind_Ret _ _ s (_url_data (self s)) s) by reflexivity.
  rewrite Hs.
  rewrite (bind_Ret _ _ s false s) by now apply add_scan_absent.
  now rewrite (bind_Ret _ _ s None s') by exact E.
Qed.

(** The object after a URL was added with a scraped token, whether the
    append to the file went through or not. *)
Lemma add_fresh_self URL rows s latest s' :
  _url_data (self s) = ledger_of rows -> URL ∉ urls rows ->
  _get_Latest_Chapter_URL_Filtered URL s = (Ret (Some latest), s') ->
  self (snd (addURLData URL s))
  = set_url_data (ledger_of (rows ++ [(URL, latest)])) (self s).
Proof.
  intros Hs H E. unfold addURLData.
  rewrite (bind_Ret _ _ s (_url_data (self s)) s) by reflexivity.
  rewrite Hs.
  rewrite (bind_Ret _ _ s false s) by now apply add_scan_absent.
  rewrite (bind_Ret _ _ s (Some latest) s') by exact E.
  erewrite bind_Ret by reflexivity.
  match goal with
  | |- self (snd (?tail ?st)) = _ =>
      assert (P : preserves (fun o : model => o) tail) by preserves_auto;
      rewrite (P st)
  end.
  pose proof (preserves_scraper (fun o : model => o) URL s) as Q. rewrite E in Q.
  simpl in Q. simpl. rewrite Q, Hs, ledger_of_app. reflexivity.
Qed.

Lemma list_remove_first URL t pre post :
  URL ∉ urls pre ->
  list_remove (record URL t) (ledger_of (pre ++ (URL, t) :: post))
  = Ret (ledger_of (pre ++ post)).
Proof.
  induction pre as [|[u t'] pre IH]; intros H.
  - cbn [app ledger_of map list_remove fst snd].
    destruct (decide (record URL t = record URL t)); [reflexivity | congruence].
  - cbn [app ledger_of map list_remove fst snd].
    destruct (decide (record u t' = record URL t)) as [E|_].
    + apply record_inj in E as [-> _]. elim H. simpl. apply elem_of_cons. now left.
    + fold (ledger_of (pre ++ (URL, t) :: post)). rewrite IH; [reflexivity|].
      intros H'. apply H. simpl. apply elem_of_cons. now right.
Qed.

Lemma delete_scan_absent URL rows s :
  URL ∉ urls rows ->
  delete_scan (ledger_of rows) URL s = (Ret tt, said msg_not_found s).
Proof.
  induction rows as [|[u t] rows IH]; intros H; [reflexivity|].
  cbn [ledger_of map delete_scan fst snd]. change (FIELD_NAMES_at 0) with "URL".
  rewrite (bind_Ret _ _ s (Some u) s) by apply getitem_record_URL.
  destruct (decide (Some u = Some URL)) as [[= ->]|_].
  - elim H. simpl. apply elem_of_cons. now left.
  - apply IH. intros H'. apply H. simpl. apply elem_of_cons. now right.
Qed.

Lemma delete_scan_present URL t pre post s data' :
  URL ∉ urls pre ->
  list_remove (record URL t) (_url_data (self s)) = Ret data' ->
  delete_scan (ledger_of (pre ++ (URL, t) :: post)) URL s
  = _write_URL_data_to_file
      (said msg_success (with_self (set_url_data data') s)).
Proof.
  intros H R. induction pre as [|[u t'] pre IH].
  - cbn [app ledger_of map delete_scan fst snd].
    change (FIELD_NAMES_at 0) with "URL".
    rewrite (bind_Ret _ _ s (Some URL) s) by apply getitem_record_URL.
    destruct (decide (Some URL = Some URL)); [|congruence].
    rewrite (bind_Ret _ _ s (_url_data (self s)) s) by reflexivity.
    rewrite R.
    rewrite (bind_Ret _ _ s data' s) by reflexivity.
    erewrite bind_Ret by reflexivity.
    erewrite bind_Ret by reflexivity. reflexivity.
  - cbn [app ledger_of map delete_scan fst snd].
    change (FIELD_NAMES_at 0) with "URL".
    rewrite (bind_Ret _ _ s (Some u) s) by apply getitem_record_URL.
    destruct (decide (Some u = Some URL)) as [[= ->]|_].
    + elim H. simpl. apply elem_of_cons. now left.
    + apply IH. intros H'. apply H. simpl. apply elem_of_cons. now right.
Qed.

Lemma delete_present URL t pre post s :
  _url_data (self s) = ledger_of (pre ++ (URL, t) :: post) ->
  URL ∉ urls pre ->
  deleteURLData URL s
  = _write_URL_data_to_file
      (said msg_success
         (with_self (set_url_data (ledger_of (pre ++ post))) s)).
Proof.
  intros Hs H. unfold deleteURLData.
  rewrite (bind_Ret _ _ s (_url_data (self s)) s) by reflexivity.
  rewrite Hs. apply delete_scan_present; [exact H|].
  rewrite Hs. now apply list_remove_first.
Qed.

Lemma delete_absent URL rows s :
  _url_data (self s) = ledger_of rows -> URL ∉ urls rows ->
  deleteURLData URL s = (Ret tt, said msg_not_found s).
Proof.
  intros Hs H. unfold deleteURLData.
  rewrite (bind_Ret _ _ s (_url_data (self s)) s) by reflexivity.
  rewrite Hs. now apply delete_scan_absent.
Qed.

Lemma urls_apply_updates rows : forall outs,
  urls (apply_updates rows outs) = urls rows.
Proof.
  induction rows as [|row rows IH]; intros [|o outs]; simpl; try reflexivity.
  rewrite IH. f_equal. unfold checked.
  destruct o as [latest|]; [|reflexivity].
  now destruct (PyStr.lt (snd row) latest).
Qed.

(** The ledger after a check holds the same URLs in the same order,
    whatever became of the write and of the mail. *)
Lemma check_ledger s rows :
  _url_data (self s) = ledger_of rows ->
  exists rows',
    _url_data (self (snd (_webscrape_Check s))) = ledger_of rows'
    /\ urls rows' = urls rows.
Proof.
  intros Hs. unfold _webscrape_Check.
  rewrite (bind_Ret _ _ s (_url_data (self s)) s) by reflexivity.
  rewrite Hs. destruct rows as [|row rows].
  - exists []. split; [exact Hs | reflexivity].
  - cbn [ledger_of map]. fold (ledger_of rows).
    destruct (compile_spec s (row :: rows) Hs) as (outs & s1 & _ & _ & _ & C).
    exists (apply_updates (row :: rows) outs).
    split; [|apply urls_apply_updates].
    unfold try_except, bind at 1. rewrite C.
    set (s2 := with_self _ s1).
    set (tail := match updated_urls (row :: rows) outs with
                 | [] => ret tt
                 | _ :: _ => _
                 end).
    assert (P : preserves (fun o : model => o) tail).
    { subst tail. destruct (updated_urls (row :: rows) outs).
      - apply preserves_ret.
      - apply preserves_bind;
          [apply preserves_write_URL_data_to_file
          |intros ?; apply preserves_send_Email]. }
    specialize (P s2). destruct (tail s2) as [[[]|e] s3]; simpl in *.
    + now rewrite P.
    + now rewrite P.
Qed.

(** C5: when the URL is not in the ledger and the initial scrape
    delivers no token, as it does for a URL of an unsupported domain
    such as https://example.com/abc, adding the URL adds no record: the
    operation returns, the object and the files are as before, and the
    only message is the one the scraper reported. *)
Theorem add_absent_aborts (s : state) (rows : list (string * string))
                          (URL : string) :
  _url_data (self s) = ledger_of rows ->
  URL ∉ urls rows ->
  fst (_get_Latest_Chapter_URL_Filtered URL s) = Ret None ->
  let s' := snd (addURLData URL s) in
  fst (addURLData URL s) = Ret tt
  /\ s' = snd (_get_Latest_Chapter_URL_Filtered URL s)
  /\ self s' = self s
  /\ fs (env s') = fs (env s)
  /\ (exists text,
        messages (trace (env s')) = messages (trace (env s)) ++ [text])
  /\ (exists evs, trace (env s') = trace (env s) ++ evs
                  /\ Forall is_scrape_event evs)
  /\ forall st, fst (_get_Latest_Chapter_URL_Filtered "https://example.com/abc" st)
                = Ret None.
Proof.
  intros Hs H E. cbv zeta.
  destruct (scraper_effect URL s) as (o & s' & E' & F & Hnone & _).
  rewrite E' in E. simpl in E. injection E as ->.
  rewrite (add_absent_scrape URL rows s s' Hs H E'). rewrite E'. simpl.
  destruct F as (F1 & F2 & _ & _ & F5).
  repeat split; try assumption.
  now apply Hnone.
Qed.

(** An unsupported URL on the sample installation. *)
Lemma add_absent_aborts_witness :
  let s' := snd (addURLData "https://example.com/abc" Sample.state0) in
  fst (addURLData "https://example.com/abc" Sample.state0) = Ret tt
  /\ s' = snd (_get_Latest_Chapter_URL_Filtered "https://example.com/abc"
                 Sample.state0)
  /\ self s' = self Sample.state0
  /\ fs (env s') = fs (env Sample.state0)
  /\ (exists text,
        messages (trace (env s'))
        = messages (trace (env Sample.state0)) ++ [text])
  /\ (exists evs, trace (env s') = trace (env Sample.state0) ++ evs
                  /\ Forall is_scrape_event evs)
  /\ forall st, fst (_get_Latest_Chapter_URL_Filtered "https://example.com/abc" st)
                = Ret None.
Proof.
  apply (add_absent_aborts Sample.state0 Sample.rows0 "https://example.com/abc").
  - reflexivity.
  - vm_compute. intros H. repeat (apply elem_of_cons in H as [H|H]; [discriminate|]).
    inversion H.
  - reflexivity.
Defined.

(** C4: the URLs of the ledger stay pairwise distinct under every public
    operation, whatever its outcome; adding a URL that is in the ledger
    reports the duplicate and does nothing else: the object and the
    files are as before, no page is fetched and no file is opened. *)
Theorem url_uniqueness_invariant (s : state) (rows : list (string * string))
                                 (op : operation) :
  _url_data (self s) = ledger_of rows ->
  NoDup (urls rows) ->
  (exists rows',
     _url_data (self (snd (run_op op s))) = ledger_of rows'
     /\ NoDup (urls rows'))
  /\ forall URL, URL ∈ urls rows ->
       let s' := snd (addURLData URL s) in
       fst (addURLData URL s) = Ret tt
       /\ self s' = self s
       /\ length (_url_data (self s')) = length rows
       /\ fs (env s') = fs (env s)
       /\ clock (env s') = clock (env s)
       /\ trace (env s') = trace (env s) ++ [Message msg_duplicate].
Proof.
  intros Hs Hnd. split.
  - destruct op as [URL|URL| |email| |password| ]; simpl.
    + destruct (decide (URL ∈ urls rows)) as [Hin|Hout].
      * rewrite (add_duplicate URL rows s Hs Hin). now exists rows.
      * destruct (scraper_effect URL s) as ([latest|] & s' & E & F & _).
        -- exists (rows ++ [(URL, latest)]). split.
           ++ now rewrite (add_fresh_self URL rows s latest s' Hs Hout E).
           ++ rewrite urls_app. apply NoDup_app. split; [exact Hnd|]. split.
              ** intros x Hx Hx'. simpl in Hx'.
                 apply list_elem_of_singleton in Hx'. now subst.
              ** simpl. apply NoDup_singleton.
        -- rewrite (add_absent_scrape URL rows s s' Hs Hout E). simpl.
           exists rows. destruct F as (-> & _). now split.
    + destruct (decide (URL ∈ urls rows)) as [Hin|Hout].
      * destruct (first_occurrence URL rows Hin) as (pre & t & post & -> & Hpre).
        rewrite (delete_present URL t pre post s Hs Hpre).
        exists (pre ++ post). split.
        -- now rewrite (preserves_write_URL_data_to_file (fun o : model => o)).
        -- rewrite urls_app in *. simpl in Hnd.
           apply NoDup_app in Hnd as (N1 & N2 & N3).
           apply NoDup_cons in N3 as (_ & N3).
           apply NoDup_app. split; [exact N1|]. split; [|exact N3].
           intros x Hx Hx'. apply (N2 x Hx). apply elem_of_cons. now right.
      * rewrite (delete_absent URL rows s Hs Hout). now exists rows.
    + destruct (check_ledger s rows Hs) as (rows' & E & U).
      exists rows'. split; [exact E | now rewrite U].
    + exists rows. split; [|exact Hnd].
      unfold setEmail.
      erewrite bind_Ret by reflexivity.
      match goal with
      | |- _url_data (self (snd (?tail ?st))) = _ =>
          assert (P : preserves _url_data tail) by preserves_auto;
          rewrite (P st)
      end.
      exact Hs.
    + now exists rows.
    + now exists rows.
    + now exists rows.
  - intros URL Hin. cbv zeta.
    rewrite (add_duplicate URL rows s Hs Hin). simpl.
    repeat split. now rewrite Hs, ledger_of_length.
Qed.

(** The invariant across an addition on the sample installation. *)
Lemma url_uniqueness_invariant_witness :
  (exists rows',
     _url_data (self (snd (run_op (AddURL (Sample.wln "4")) Sample.state0)))
     = ledger_of rows'
     /\ NoDup (urls rows'))
  /\ forall URL, URL ∈ urls Sample.rows0 ->
       let s' := snd (addURLData URL Sample.state0) in
       fst (addURLData URL Sample.state0) = Ret tt
       /\ self s' = self Sample.state0
       /\ length (_url_data (self s')) = length Sample.rows0
       /\ fs (env s') = fs (env Sample.state0)
       /\ clock (env s') = clock (env Sample.state0)
       /\ trace (env s') = trace (env Sample.state0) ++ [Message msg_duplicate].
Proof.
  apply (url_uniqueness_invariant Sample.state0 Sample.rows0
           (AddURL (Sample.wln "4"))).
  - reflexivity.
  - vm_compute. repeat constructor;
      intros H; repeat (apply elem_of_cons in H as [H|H]; [discriminate|]);
      inversion H.
Defined.

(** C6, as stated, fails: on the installation whose files are read-only,
    deleting the URL of the ledger removes its record from memory and
    reports "Success", and then opening the ledger file raises: the file
    is not rewritten and still holds the record. *)
Lemma delete_without_rewrite :
  let s := Sample.state_ro in
  let s' := snd (deleteURLData (Sample.wln "1") s) in
  _url_data (self s) = ledger_of [(Sample.wln "1", "5")]
  /\ fst (deleteURLData (Sample.wln "1") s)
     = Raise (PermissionError Sample.URL_path)
  /\ _url_data (self s') = []
  /\ messages (trace (env s')) = [msg_success]
  /\ fs (env s') = fs (env s)
  /\ fs (env s') !! Sample.URL_path
     = Some (File false (ledger_text [(Sample.wln "1", "5")])).
Proof. cbv zeta. repeat apply conj; vm_compute; reflexivity. Qed.

(** C6, amended: deleting a URL that is in the ledger removes the first
    record with that URL, the only one when URLs are distinct, so that
    the ledger is one record shorter, reports "Success" and then opens
    the ledger file for writing; when the file can be opened the
    operation returns and the file holds the text of the new ledger,
    and when it cannot the error of the open reaches the caller and the
    files are as they were.  Deleting a URL that is not in the ledger,
    an empty ledger included, reports the not-found error, returns, and
    leaves the ledger and the files as they were, whatever the state of
    the ledger file. *)
Theorem delete_rule (s : state) (rows : list (string * string)) (URL : string) :
  _url_data (self s) = ledger_of rows ->
  let s' := snd (deleteURLData URL s) in
  let path := _URL_file_path (self s) in
  (URL ∈ urls rows ->
   exists pre t post,
     rows = pre ++ (URL, t) :: post /\ (URL ∉ urls pre)
     /\ _url_data (self s') = ledger_of (pre ++ post)
     /\ length (_url_data (self s')) + 1 = length (_url_data (self s))
     /\ (NoDup (urls rows) -> URL ∉ urls (pre ++ post))
     /\ trace (env s')
        = trace (env s) ++ [Message msg_success; FileOpen path ModeW]
     /\ (writable_path (env s) path ->
         fst (deleteURLData URL s) = Ret tt
         /\ fs (env s')
            = <[path := File true (ledger_text (pre ++ post))]> (fs (env s)))
     /\ (forall e, open_error (env s) path = Some e ->
         fst (deleteURLData URL s) = Raise e
         /\ fs (env s') = fs (env s)))
  /\ (URL ∉ urls rows ->
      fst (deleteURLData URL s) = Ret tt
      /\ self s' = self s
      /\ fs (env s') = fs (env s)
      /\ trace (env s') = trace (env s) ++ [Message msg_not_found]).
Proof.
  intros Hs. cbv zeta. split.
  - intros Hin.
    destruct (first_occurrence URL rows Hin) as (pre & t & post & -> & Hpre).
    exists pre, t, post.
    split; [reflexivity|]. split; [exact Hpre|].
    rewrite (delete_present URL t pre post s Hs Hpre).
    set (st := said msg_success
                 (with_self (set_url_data (ledger_of (pre ++ post))) s)).
    assert (Hlen : length (ledger_of (pre ++ post)) + 1
                   = length (_url_data (self s))).
    { rewrite Hs, !ledger_of_length, !length_app. simpl. lia. }
    assert (Hnd : NoDup (urls (pre ++ (URL, t) :: post)) ->
                  URL ∉ urls (pre ++ post)).
    { intros Hnd. rewrite urls_app in *. simpl in Hnd.
      apply NoDup_app in Hnd as (_ & N2 & N3).
      apply NoDup_cons in N3 as (N3 & _).
      intros H. apply elem_of_app in H as [H|H];
        [now apply Hpre | now apply N3]. }
    destruct (open_error (env s) (_URL_file_path (self s))) as [e|] eqn:He.
    + rewrite (persist_refused st e He). cbn [fst snd].
      split; [reflexivity|]. split; [exact Hlen|]. split; [exact Hnd|].
      split; [simpl; now rewrite <- app_assoc|]. split.
      * intros Hw. apply writable_open_error in Hw. congruence.
      * intros e' [= <-]. split; reflexivity.
    + rewrite (persist_spec st (pre ++ post));
        [|reflexivity|now apply open_error_None].
      cbn [fst snd].
      split; [reflexivity|]. split; [exact Hlen|]. split; [exact Hnd|].
      split; [simpl; now rewrite <- app_assoc|]. split.
      * intros _. split; reflexivity.
      * intros e. discriminate.
  - intros Hout. rewrite (delete_absent URL rows s Hs Hout). simpl.
    repeat split.
Qed.

(** Deleting the second record of the sample ledger. *)
Lemma delete_rule_witness :
  let s' := snd (deleteURLData (Sample.wln "2") Sample.state0) in
  let path := _URL_file_path (self Sample.state0) in
  (Sample.wln "2" ∈ urls Sample.rows0 ->
   exists pre t post,
     Sample.rows0 = pre ++ (Sample.wln "2", t) :: post
     /\ (Sample.wln "2" ∉ urls pre)
     /\ _url_data (self s') = ledger_of (pre ++ post)
     /\ length (_url_data (self s')) + 1
        = length (_url_data (self Sample.state0))
     /\ (NoDup (urls Sample.rows0) -> Sample.wln "2" ∉ urls (pre ++ post))
     /\ trace (env s')
        = trace (env Sample.state0)
          ++ [Message msg_success; FileOpen path ModeW]
     /\ (writable_path (env Sample.state0) path ->
         fst (deleteURLData (Sample.wln "2") Sample.state0) = Ret tt
         /\ fs (env s')
            = <[path := File true (ledger_text (pre ++ post))]>
                (fs (env Sample.state0)))
     /\ (forall e, open_error (env Sample.state0) path = Some e ->
         fst (deleteURLData (Sample.wln "2") Sample.state0) = Raise e
         /\ fs (env s') = fs (env Sample.state0)))
  /\ (Sample.wln "2" ∉ urls Sample.rows0 ->
      fst (deleteURLData (Sample.wln "2") Sample.state0) = Ret tt
      /\ self s' = self Sample.state0
      /\ fs (env s') = fs (env Sample.state0)
      /\ trace (env s') = trace (env Sample.state0) ++ [Message msg_not_found]).
Proof.
  apply (delete_rule Sample.state0 Sample.rows0 (Sample.wln "2")).
  reflexivity.
Defined.

(** The sample ledger without its second record, in memory and on
    disk; and a delete on an empty ledger. *)
Example delete_sample :
  let s' := snd (deleteURLData (Sample.wln "2") Sample.state0) in
  _url_data (self s') = ledger_of [(Sample.wln "1", "5"); (Sample.wln "3", "9")]
  /\ fs (env s') !! Sample.URL_path
     = Some (File true (ledger_text [(Sample.wln "1", "5"); (Sample.wln "3", "9")]))
  /\ messages (trace (env s')) = [msg_success]
  /\ messages (trace (env (snd (deleteURLData (Sample.wln "2")
                 {| self := Sample.object_with [];
                    env := Sample.world_with Sample.files0 |}))))
     = [msg_not_found].
Proof. vm_compute. repeat split. Qed.

(* ===================================================================== *)
(** ** The check for updates *)
(* ===================================================================== *)

(** The notifier always returns; it opens with a connection to the
    relay and touches neither the object nor the files. *)
Lemma send_Email_effect updated_URLS s :
  exists s' mail,
    _send_Email updated_URLS s = (Ret tt, s')
    /\ self s' = self s /\ fs (env s') = fs (env s)
    /\ trace (env s') = trace (env s) ++ SmtpConnect :: mail.
Proof.
  unfold _send_Email. run_monad.
  destruct (smtp (env s) (clock (env s))); simpl;
    eexists _, _; (split; [reflexivity|]); (split; [reflexivity|]);
    (split; [reflexivity|]); simpl; rewrite <- ?app_assoc; reflexivity.
Qed.

(** C7, as stated, fails: on the installation whose files are read-only
    the check finds an updated URL, and neither is the ledger persisted
    nor the notifier invoked: after the GET the ledger file is opened
    for writing, which raises, and the check ends with its generic
    error.  The relay is never contacted. *)
Lemma update_without_notification :
  let s := Sample.state_ro in
  let s' := snd (_webscrape_Check s) in
  _url_data (self s) = ledger_of [(Sample.wln "1", "5")]
  /\ fst (_compile_updated_URLS s) = Ret [Sample.wln "1"]
  /\ fst (_webscrape_Check s) = Ret tt
  /\ trace (env s')
     = trace (env s)
       ++ [HttpGet (Sample.wln "1"); FileOpen Sample.URL_path ModeW;
           Message msg_check]
  /\ (SmtpConnect ∉ trace (env s'))
  /\ fs (env s') = fs (env s).
Proof.
  cbv zeta. repeat apply conj; try (vm_compute; reflexivity).
  vm_compute. intros H.
  repeat (apply elem_of_cons in H as [H|H]; [discriminate|]).
  inversion H.
Qed.

(** C7, amended: the check for updates does nothing at all on an empty
    ledger.  On a non-empty ledger it runs the update rule over every
    record; when no URL was updated it neither opens the ledger file
    nor contacts the mail relay; when some URL was updated it opens the
    ledger file for writing and, if the file can be opened, rewrites it
    from the updated ledger and then calls the notifier with the
    updated URLs, in that order; if the file cannot be opened, the
    check reports its generic error and returns, the files are as they
    were and the notifier is not called, the new tokens staying in
    memory. *)
Theorem check_for_updates_orchestration (s : state)
                                        (rows : list (string * string)) :
  _url_data (self s) = ledger_of rows ->
  let path := _URL_file_path (self s) in
  (rows = [] -> _webscrape_Check s = (Ret tt, s))
  /\ (rows <> [] ->
      exists outs s1,
        scrape_all (urls rows) s = (Ret outs, s1)
        /\ length outs = length rows
        /\ let updated := updated_urls rows outs in
           let s2 := with_self (set_url_data
                                  (ledger_of (apply_updates rows outs))) s1 in
           (updated = [] ->
            _webscrape_Check s = (Ret tt, s2)
            /\ fs (env s2) = fs (env s)
            /\ exists evs, trace (env s2) = trace (env s) ++ evs
                           /\ Forall is_scrape_event evs)
           /\ (updated <> [] ->
               (writable_path (env s) path ->
                _webscrape_Check s
                = _send_Email updated (persisted (apply_updates rows outs) s2)
                /\ exists s3 evs mail,
                     _webscrape_Check s = (Ret tt, s3)
                     /\ _url_data (self s3)
                        = ledger_of (apply_updates rows outs)
                     /\ fs (env s3)
                        = <[path
                            := File true (ledger_text (apply_updates rows outs))]>
                            (fs (env s))
                     /\ Forall is_scrape_event evs
                     /\ trace (env s3)
                        = trace (env s) ++ evs
                          ++ FileOpen path ModeW :: SmtpConnect :: mail)
               /\ (forall e, open_error (env s) path = Some e ->
                   exists s3 evs,
                     _webscrape_Check s = (Ret tt, s3)
                     /\ s3 = said msg_check (opened path ModeW s2)
                     /\ _url_data (self s3)
                        = ledger_of (apply_updates rows outs)
                     /\ fs (env s3) = fs (env s)
                     /\ Forall is_scrape_event evs
                     /\ trace (env s3)
                        = trace (env s) ++ evs
                          ++ [FileOpen path ModeW; Message msg_check]))).
Proof.
  intros Hs. cbv zeta. split.
  - intros ->. unfold _webscrape_Check.
    rewrite (bind_Ret _ _ s (_url_data (self s)) s) by reflexivity.
    now rewrite Hs.
  - intros Hne.
    destruct (compile_spec s rows Hs) as (outs & s1 & E & L & F & C).
    exists outs, s1. split; [exact E|]. split; [exact L|].
    destruct F as (F1 & F2 & _ & _ & evs & F5 & F6).
    assert (Hcheck : _webscrape_Check s
                     = try_except
                         (updated_URLS <- _compile_updated_URLS ;;
                          match updated_URLS with
                          | [] => ret tt
                          | _ :: _ =>
                              _write_URL_data_to_file ;;
                              _send_Email updated_URLS
                          end)
                         (_message_box msg_check) s).
    { unfold _webscrape_Check.
      rewrite (bind_Ret _ _ s (_url_data (self s)) s) by reflexivity.
      rewrite Hs. destruct rows; [congruence | reflexivity]. }
    set (s2 := with_self (set_url_data (ledger_of (apply_updates rows outs))) s1)
      in *.
    assert (Hpath : _URL_file_path (self s2) = _URL_file_path (self s))
      by (subst s2; simpl; now rewrite F1).
    split.
    + intros Hup. rewrite Hcheck. unfold try_except, bind. rewrite C, Hup.
      split; [reflexivity|]. split; [exact F2|].
      exists evs. now split.
    + intros Hup. split.
      * intros Hw.
        assert (Hp : _write_URL_data_to_file s2
                     = (Ret tt, persisted (apply_updates rows outs) s2)).
        { apply persist_spec; [reflexivity|].
          rewrite Hpath.
          destruct Hw as [Hw|[c Hw]]; [left|right; exists c];
            subst s2; simpl; now rewrite F2. }
        destruct (send_Email_effect (updated_urls rows outs)
                    (persisted (apply_updates rows outs) s2))
          as (s3 & mail & E3 & S1 & S2 & S3).
        assert (Hrun : _webscrape_Check s
                       = _send_Email (updated_urls rows outs)
                           (persisted (apply_updates rows outs) s2)).
        { rewrite Hcheck. unfold try_except, bind at 1. rewrite C.
          destruct (updated_urls rows outs) as [|u updated]; [congruence|].
          rewrite (bind_Ret _ _ s2 tt (persisted (apply_updates rows outs) s2) Hp).
          now rewrite E3. }
        split; [exact Hrun|].
        exists s3, evs, mail. split; [now rewrite Hrun|].
        split; [now rewrite S1|].
        split; [rewrite S2; subst s2; simpl; now rewrite F1, F2|].
        split; [exact F6|].
        rewrite S3. subst s2. simpl. rewrite F1, F5.
        now rewrite <- !app_assoc.
      * intros e He.
        assert (He2 : open_error (env s2) (_URL_file_path (self s2)) = Some e).
        { rewrite Hpath. unfold open_error in *. subst s2. simpl.
          now rewrite F2. }
        pose proof (persist_refused s2 e He2) as Hp. rewrite Hpath in Hp.
        exists (said msg_check (opened (_URL_file_path (self s)) ModeW s2)), evs.
        split.
        { rewrite Hcheck. unfold try_except, bind at 1. rewrite C.
          destruct (updated_urls rows outs) as [|u updated]; [congruence|].
          erewrite bind_Raise by exact Hp. reflexivity. }
        split; [reflexivity|]. split; [reflexivity|].
        split; [simpl; exact F2|]. split; [exact F6|].
        simpl. rewrite F5. now rewrite <- !app_assoc.
Qed.

(** The check on the sample installation. *)
Lemma check_for_updates_orchestration_witness :
  let path := _URL_file_path (self Sample.state0) in
  (Sample.rows0 = [] -> _webscrape_Check Sample.state0 = (Ret tt, Sample.state0))
  /\ (Sample.rows0 <> [] ->
      exists outs s1,
        scrape_all (urls Sample.rows0) Sample.state0 = (Ret outs, s1)
        /\ length outs = length Sample.rows0
        /\ let updated := updated_urls Sample.rows0 outs in
           let s2 := with_self (set_url_data
                        (ledger_of (apply_updates Sample.rows0 outs))) s1 in
           (updated = [] ->
            _webscrape_Check Sample.state0 = (Ret tt, s2)
            /\ fs (env s2) = fs (env Sample.state0)
            /\ exists evs, trace (env s2) = trace (env Sample.state0) ++ evs
                           /\ Forall is_scrape_event evs)
           /\ (updated <> [] ->
               (writable_path (env Sample.state0) path ->
                _webscrape_Check Sample.state0
                = _send_Email updated
                    (persisted (apply_updates Sample.rows0 outs) s2)
                /\ exists s3 evs mail,
                     _webscrape_Check Sample.state0 = (Ret tt, s3)
                     /\ _url_data (self s3)
                        = ledger_of (apply_updates Sample.rows0 outs)
                     /\ fs (env s3)
                        = <[path
                            := File true
                                 (ledger_text (apply_updates Sample.rows0 outs))]>
                            (fs (env Sample.state0))
                     /\ Forall is_scrape_event evs
                     /\ trace (env s3)
                        = trace (env Sample.state0) ++ evs
                          ++ FileOpen path ModeW :: SmtpConnect :: mail)
               /\ (forall e, open_error (env Sample.state0) path = Some e ->
                   exists s3 evs,
                     _webscrape_Check Sample.state0 = (Ret tt, s3)
                     /\ s3 = said msg_check (opened path ModeW s2)
                     /\ _url_data (self s3)
                        = ledger_of (apply_updates Sample.rows0 outs)
                     /\ fs (env s3) = fs (env Sample.state0)
                     /\ Forall is_scrape_event evs
                     /\ trace (env s3)
                        = trace (env Sample.state0) ++ evs
                          ++ [FileOpen path ModeW; Message msg_check]))).
Proof.
  apply (check_for_updates_orchestration Sample.state0 Sample.rows0).
  reflexivity.
Defined.

(** The sample check end to end: three GETs, then the file, then the
    mail with the one updated URL; and nothing at all on an empty
    ledger. *)
Example check_sample :
  trace (env (snd (_webscrape_Check Sample.state0)))
  = [HttpGet (Sample.wln "1"); HttpGet (Sample.wln "2"); HttpGet (Sample.wln "3");
     FileOpen Sample.URL_path ModeW; SmtpConnect;
     SmtpLogin "reader@example.org" EmptyString;
     SmtpSendmail "reader@example.org" "reader@example.org"
       (Sample.wln "1" +:+ String PyStr.LF EmptyString)]
  /\ fs (env (snd (_webscrape_Check Sample.state0))) !! Sample.URL_path
     = Some (File true (ledger_text [(Sample.wln "1", "6"); (Sample.wln "2", "5");
                                     (Sample.wln "3", "9")]))
  /\ _webscrape_Check {| self := Sample.object_with [];
                         env := Sample.world_with Sample.files0 |}
     = (Ret tt, {| self := Sample.object_with [];
                   env := Sample.world_with Sample.files0 |}).
Proof. vm_compute. repeat split. Qed.

(* ===================================================================== *)
(** ** The password *)
(* ===================================================================== *)

















(** Construction without the email file, and without the ledger file. *)
Example construct_sample :
  fst (construct Sample.URL_path Sample.email_path
         (Sample.world_with {[ Sample.URL_path := File true header_line ]}))
  = Raise (FileNotFoundError Sample.email_path)
  /\ fst (construct Sample.URL_path Sample.email_path
            (Sample.world_with {[ Sample.email_path := File true "a@b.c" ]}))
     = Raise (FileNotFoundError Sample.URL_path).
Proof. vm_compute. split; reflexivity. Qed.

(* ===================================================================== *)
(** ** Failures that reach the caller *)
(* ===================================================================== *)

Lemma Files_open_a_outcome path s :
  fst (Files.open_a path s)
  = match open_error (env s) path with
    | Some e => Raise e
    | None => Ret tt
    end.
Proof.
  unfold open_error, Files.open_a. run_monad.
  destruct (fs (env s) !! path) as [[[] content|]|]; reflexivity.
Qed.

Lemma check_returns st : exists s', _webscrape_Check st = (Ret tt, s').
Proof.
  unfold _webscrape_Check, bind at 1, gets at 1.
  destruct (_url_data (self st)); [eexists; reflexivity|].
  unfold try_except.
  match goal with
  | |- exists _, (let (o, _) := ?m in _) = _ =>
      destruct m as [[[]|e] s']; eexists; reflexivity
  end.
Qed.

Lemma persist_outcome s rows :
  _url_data (self s) = ledger_of rows ->
  fst (_write_URL_data_to_file s)
  = match open_error (env s) (_URL_file_path (self s)) with
    | Some e => Raise e
    | None => Ret tt
    end.
Proof.
  intros Hs.
  destruct (open_error (env s) (_URL_file_path (self s))) as [e|] eqn:He.
  - unfold _write_URL_data_to_file.
    rewrite (bind_Ret _ _ s (_URL_file_path (self s)) s) by reflexivity.
    now rewrite (bind_Raise _ _ s e _ (Files_open_w_error _ s e He)).
  - now rewrite (persist_spec s rows Hs (open_error_None _ _ He)).
Qed.

Lemma setEmail_outcome email s :
  fst (setEmail email s)
  = match open_error (env s) (_email_file_path (self s)) with
    | Some e => Raise e
    | None => Ret tt
    end.
Proof.
  unfold setEmail.
  erewrite bind_Ret by reflexivity.
  erewrite bind_Ret by reflexivity.
  cbn [self with_self set_user_email _email_file_path env].
  destruct (open_error (env s) (_email_file_path (self s))) as [e|] eqn:He.
  - erewrite bind_Raise; [reflexivity|].
    now apply Files_open_w_error.
  - erewrite bind_Ret by (apply Files_open_w_spec; now apply open_error_None).
    reflexivity.
Qed.

Lemma add_fresh_outcome URL rows s latest s' :
  _url_data (self s) = ledger_of rows -> URL ∉ urls rows ->
  _get_Latest_Chapter_URL_Filtered URL s = (Ret (Some latest), s') ->
  fst (addURLData URL s)
  = match open_error (env s) (_URL_file_path (self s)) with
    | Some e => Raise e
    | None => Ret tt
    end.
Proof.
  intros Hs H E. unfold addURLData.
  rewrite (bind_Ret _ _ s (_url_data (self s)) s) by reflexivity.
  rewrite Hs.
  rewrite (bind_Ret _ _ s false s) by now apply add_scan_absent.
  rewrite (bind_Ret _ _ s (Some latest) s') by exact E.
  erewrite bind_Ret by reflexivity.
  erewrite bind_Ret by reflexivity.
  destruct (scraper_effect URL s) as (o & s'' & E' & F & _).
  rewrite E in E'. injection E' as <- <-.
  destruct F as (F1 & F2 & _).
  cbn [self with_self set_url_data _URL_file_path]. rewrite F1.
  set (path := _URL_file_path (self s)).
  set (s2 := with_self _ s').
  pose proof (Files_open_a_outcome path s2) as O.
  assert (Oe : open_error (env s2) path = open_error (env s) path).
  { unfold open_error. subst s2. simpl. now rewrite F2. }
  rewrite Oe in O. unfold bind at 1.
  destruct (Files.open_a path s2) as [[[]|e] s3]; simpl in O; rewrite <- O;
    [|reflexivity].
  change (FIELD_NAMES_at 0) with "URL".
  change (FIELD_NAMES_at 1) with "latestChapter".
  change {| items := <["latestChapter" := Some latest]> (<["URL" := Some URL]> ∅);
            rest := None |}
    with (record (fst (URL, latest)) (snd (URL, latest))).
  rewrite record_writerow. reflexivity.
Qed.

(** C9, as stated, fails: on an installation whose files are read-only
    the construction goes through, and then [setEmail], [addURLData]
    and [deleteURLData] each end in a [PermissionError] that reaches the
    caller. *)
Lemma file_errors_reach_the_caller :
  fst (construct Sample.URL_path Sample.email_path
         (Sample.world_with Sample.files_ro)) = Ret tt
  /\ _url_data (self Sample.state_ro) = ledger_of [(Sample.wln "1", "5")]
  /\ fst (run_op (SetEmail "other@example.org") Sample.state_ro)
     = Raise (PermissionError Sample.email_path)
  /\ fst (run_op (AddURL (Sample.wln "2")) Sample.state_ro)
     = Raise (PermissionError Sample.URL_path)
  /\ fst (run_op (DeleteURL (Sample.wln "1")) Sample.state_ro)
     = Raise (PermissionError Sample.URL_path)
  /\ ~ returns (fst (run_op (SetEmail "other@example.org") Sample.state_ro)).
Proof.
  vm_compute. repeat split. intros [a H]. discriminate.
Qed.

(** The notifier always returns, and a session that fails leaves one
    message: that of the connection, or that of the credentials. *)
Lemma send_Email_messages updated_URLS st :
  exists st',
    _send_Email updated_URLS st = (Ret tt, st')
    /\ messages (trace (env st'))
       = messages (trace (env st))
         ++ match smtp (env st) (clock (env st)) with
            | ConnectionFails => [msg_connection]
            | LoginFails | SendFails => [msg_login]
            | Delivers => []
            end.
Proof.
  unfold _send_Email. run_monad.
  destruct (smtp (env st) (clock (env st))); simpl;
    eexists; (split; [reflexivity|]); solve_messages.
Qed.

(** An exception inside the check ends as its generic message. *)
Lemma check_catches st e st1 :
  _url_data (self st) <> [] ->
  (updated_URLS <- _compile_updated_URLS ;;
   match updated_URLS with
   | [] => ret tt
   | _ :: _ => _write_URL_data_to_file ;; _send_Email updated_URLS
   end) st = (Raise e, st1) ->
  _webscrape_Check st = (Ret tt, said msg_check st1).
Proof.
  intros Hne H. unfold _webscrape_Check.
  rewrite (bind_Ret _ _ st (_url_data (self st)) st) by reflexivity.
  destruct (_url_data (self st)); [congruence|].
  unfold try_except. now rewrite H.
Qed.

(** C9, amended: the check for updates, [getEmail], [getPassword] and
    [setPassword] never raise, in any state.  Failures are converted to
    messages where they are caught: a scrape that fails makes the
    scraper deliver no token after exactly one message; a session with
    the relay that fails makes the notifier return after the message of
    the connection or that of the credentials; an exception of the
    update rule or of persisting inside a check ends as the generic
    message of the check.  [setEmail] raises exactly the error of
    opening the email file for writing.  On a ledger of well-formed
    records the only exception a public operation lets through is the
    error of opening its file for writing or appending (a directory or
    a read-only file at the path), which [setEmail] meets on the email
    file and [addURLData] and [deleteURLData] meet on the ledger file:
    [deleteURLData] when the URL is in the ledger, [addURLData] when
    the URL is new and its scrape gave a token. *)
Theorem only_file_errors_propagate (s : state) (rows : list (string * string))
                                   (op : operation) :
  (forall st, fst (_webscrape_Check st) = Ret tt)
  /\ (forall st, fst (getEmail st) = Ret (_user_email (self st)))
  /\ (forall st, fst (getPassword st) = Ret (_password (self st)))
  /\ (forall password st, fst (setPassword password st) = Ret tt)
  /\ (forall URL st, exists o st',
        _get_Latest_Chapter_URL_Filtered URL st = (Ret o, st')
        /\ (o = None ->
            exists text, messages (trace (env st'))
                         = messages (trace (env st)) ++ [text])
        /\ (forall latest, o = Some latest ->
            messages (trace (env st')) = messages (trace (env st))))
  /\ (forall updated_URLS st, exists st',
        _send_Email updated_URLS st = (Ret tt, st')
        /\ messages (trace (env st'))
           = messages (trace (env st))
             ++ match smtp (env st) (clock (env st)) with
                | ConnectionFails => [msg_connection]
                | LoginFails | SendFails => [msg_login]
                | Delivers => []
                end)
  /\ (forall st e st1,
        _url_data (self st) <> [] ->
        _compile_updated_URLS st = (Raise e, st1) ->
        _webscrape_Check st = (Ret tt, said msg_check st1))
  /\ (forall st u updated st1 e st2,
        _url_data (self st) <> [] ->
        _compile_updated_URLS st = (Ret (u :: updated), st1) ->
        _write_URL_data_to_file st1 = (Raise e, st2) ->
        _webscrape_Check st = (Ret tt, said msg_check st2))
  /\ (forall email st,
        fst (setEmail email st)
        = match open_error (env st) (_email_file_path (self st)) with
          | Some e => Raise e
          | None => Ret tt
          end)
  /\ (_url_data (self s) = ledger_of rows ->
      (forall e, fst (run_op op s) = Raise e ->
         exists path, written_path op (self s) = Some path
                      /\ open_error (env s) path = Some e)
      /\ (forall path, written_path op (self s) = Some path ->
          open_error (env s) path = None -> fst (run_op op s) = Ret tt)
      /\ (forall URL e,
            URL ∈ urls rows ->
            open_error (env s) (_URL_file_path (self s)) = Some e ->
            fst (deleteURLData URL s) = Raise e)
      /\ (forall URL latest e,
            (URL ∉ urls rows) ->
            fst (_get_Latest_Chapter_URL_Filtered URL s) = Ret (Some latest) ->
            open_error (env s) (_URL_file_path (self s)) = Some e ->
            fst (addURLData URL s) = Raise e)).
Proof.
  assert (Hcheck : forall st, fst (_webscrape_Check st) = Ret tt).
  { intros st. destruct (check_returns st) as (s' & E). now rewrite E. }
  split; [exact Hcheck|]. split; [reflexivity|]. split; [reflexivity|].
  split; [reflexivity|]. split; [|split; [|split; [|split; [|split]]]].
  - intros URL st. destruct (scraper_effect URL st) as (o & s' & E & _ & N & S).
    exists o, s'. split; [exact E|]. split; [exact N | exact S].
  - intros U st. apply send_Email_messages.
  - intros st e st1 Hne C. apply (check_catches st e st1 Hne).
    unfold bind. now rewrite C.
  - intros st u updated st1 e st2 Hne C W.
    apply (check_catches st e st2 Hne).
    unfold bind at 1. rewrite C.
    now erewrite bind_Raise by exact W.
  - intros email st. apply setEmail_outcome.
  - intros Hs.
    assert (Hdel : forall URL, URL ∈ urls rows ->
              fst (deleteURLData URL s)
              = match open_error (env s) (_URL_file_path (self s)) with
                | Some e => Raise e
                | None => Ret tt
                end).
    { intros URL Hin.
      destruct (first_occurrence URL rows Hin) as (pre & t & post & -> & Hpre).
      rewrite (delete_present URL t pre post s Hs Hpre).
      rewrite (persist_outcome _ (pre ++ post)) by reflexivity.
      reflexivity. }
    assert (Hout : fst (run_op op s) = Ret tt
                   \/ exists path e,
                        written_path op (self s) = Some path
                        /\ open_error (env s) path = Some e
                        /\ fst (run_op op s) = Raise e).
    { destruct op as [URL|URL| |email| |password| ]; simpl.
      - destruct (decide (URL ∈ urls rows)) as [Hin|Hno].
        + left. now rewrite (add_duplicate URL rows s Hs Hin).
        + destruct (scraper_effect URL s) as ([latest|] & s' & E & _).
          * rewrite (add_fresh_outcome URL rows s latest s' Hs Hno E).
            destruct (open_error (env s) (_URL_file_path (self s)))
              as [e|] eqn:He; [right|now left].
            now exists (_URL_file_path (self s)), e.
          * left. now rewrite (add_absent_scrape URL rows s s' Hs Hno E).
      - destruct (decide (URL ∈ urls rows)) as [Hin|Hno].
        + rewrite (Hdel URL Hin).
          destruct (open_error (env s) (_URL_file_path (self s)))
              as [e|] eqn:He; [right|now left].
          now exists (_URL_file_path (self s)), e.
        + left. now rewrite (delete_absent URL rows s Hs Hno).
      - left. apply Hcheck.
      - rewrite setEmail_outcome.
        destruct (open_error (env s) (_email_file_path (self s)))
          as [e|] eqn:He; [right|now left].
        now exists (_email_file_path (self s)), e.
      - now left.
      - now left.
      - now left. }
    split; [|split; [|split]].
    + intros e He. destruct Hout as [Hout|(path & e' & Hp & Ho & Hr)];
        [congruence|].
      exists path. split; [exact Hp | congruence].
    + intros path Hp Ho. destruct Hout as [Hout|(path' & e' & Hp' & Ho' & Hr)];
        [exact Hout | congruence].
    + intros URL e Hin He. now rewrite (Hdel URL Hin), He.
    + intros URL latest e Hno E He.
      destruct (scraper_effect URL s) as (o & s' & E' & _).
      rewrite E' in E. simpl in E. injection E as ->.
      now rewrite (add_fresh_outcome URL rows s latest s' Hs Hno E'), He.
Qed.

(** The amended claim on the read-only installation: [setEmail] meets
    the error of the email file, a delete of the stored URL that of the
    ledger file, and a check that finds the update ends with its
    generic message. *)
Lemma only_file_errors_propagate_witness :
  (exists path,
     written_path (SetEmail "other@example.org") (self Sample.state_ro)
     = Some path
     /\ open_error (env Sample.state_ro) path
        = Some (PermissionError Sample.email_path))
  /\ fst (deleteURLData (Sample.wln "1") Sample.state_ro)
     = Raise (PermissionError Sample.URL_path)
  /\ _webscrape_Check Sample.state_ro
     = (Ret tt,
        said msg_check
          (snd (_write_URL_data_to_file
                  (snd (_compile_updated_URLS Sample.state_ro))))).
Proof.
  destruct (only_file_errors_propagate Sample.state_ro [(Sample.wln "1", "5")]
              (SetEmail "other@example.org"))
    as (_ & _ & _ & _ & _ & _ & _ & Hpersist & _ & Hrows).
  assert (Hs : _url_data (self Sample.state_ro)
               = ledger_of [(Sample.wln "1", "5")])
    by (vm_compute; reflexivity).
  destruct (Hrows Hs) as (Hraise & _ & Hdel & _).
  split; [|split].
  - apply Hraise. vm_compute. reflexivity.
  - apply Hdel; [|vm_compute; reflexivity].
    simpl. apply elem_of_cons. now left.
  - apply (Hpersist Sample.state_ro (Sample.wln "1") []
             (snd (_compile_updated_URLS Sample.state_ro))
             (PermissionError Sample.URL_path)).
    + rewrite Hs. discriminate.
    + vm_compute. reflexivity.
    + vm_compute. reflexivity.
Defined.

(* ===================================================================== *)
(** ** Reading back what was persisted *)
(* ===================================================================== *)

Section ReaderPass.
Import PyStr Csv CsvPass.

Lemma obind_assoc {A B C} (o : outcome A) (f : A -> outcome B)
      (g : B -> outcome C) :
  obind (obind o f) g = obind o (fun a => obind (f a) g).
Proof. now destruct o. Qed.

Lemma obind_ext {A B} (o : outcome A) (f g : A -> outcome B) :
  (forall a, f a = g a) -> obind o f = obind o g.
Proof. intros H. destruct o; simpl; [apply H | reflexivity]. Qed.

Lemma reader_rows_cons r l ls :
  reader_rows r (l :: ls) = obind (feed_line r l) (after_line ls).
Proof. reflexivity. Qed.

Lemma lines_cons c s :
  TextIO.lines (c :: s)
  = if Ascii.eqb c LF then [c] :: TextIO.lines s
    else (c :: fst (split_first (TextIO.lines s)))
         :: snd (split_first (TextIO.lines s)).
Proof. simpl. destruct (Ascii.eqb c LF); [reflexivity|]. now destruct (TextIO.lines s). Qed.

(** The pass over the characters is the reader over the lines. *)
Lemma run_lines s :
  (forall r, reader_rows r (TextIO.lines s) = run false r s)
  /\ (forall r, run true r s
                = obind (feed_line r (fst (split_first (TextIO.lines s))))
                        (after_line (snd (split_first (TextIO.lines s))))).
Proof.
  induction s as [|c s [IHA IHB]].
  - split; intros r; reflexivity.
  - assert (B : forall r,
              run true r (c :: s)
              = obind (feed_line r (fst (split_first (TextIO.lines (c :: s)))))
                      (after_line (snd (split_first (TextIO.lines (c :: s)))))).
    { intros r. rewrite lines_cons. cbn [run].
      destruct (Ascii.eqb c LF); cbn [split_first fst snd feed_line].
      - rewrite obind_assoc. apply obind_ext. intros r1.
        apply obind_ext. intros r2. unfold after_line.
        now rewrite !IHA.
      - rewrite obind_assoc. apply obind_ext. intros r1. apply IHB. }
    split; [|exact B].
    intros r. change (run false r (c :: s)) with (run true r (c :: s)).
    rewrite B, lines_cons.
    destruct (Ascii.eqb c LF); reflexivity.
Qed.

End ReaderPass.

Section ReaderFields.
Import PyStr Csv CsvPass.

Lemma plain_inv c :
  plain c ->
  Ascii.eqb c delimiter = false /\ Ascii.eqb c quotechar = false
  /\ is_newline c = false /\ Ascii.eqb c LF = false.
Proof.
  unfold plain, needs_quoting, is_newline, lineterminator. simpl.
  destruct (Ascii.eqb c delimiter), (Ascii.eqb c quotechar),
    (Ascii.eqb c CR), (Ascii.eqb c LF); simpl; intros H;
    try discriminate; repeat split.
Qed.

Lemma existsb_plain f : existsb needs_quoting f = false -> Forall plain f.
Proof.
  induction f as [|c f IH]; simpl; intros H; [constructor|].
  apply orb_false_elim in H as [H1 H2]. constructor; [exact H1 | now apply IH].
Qed.

Lemma add_char_ok st fs f c :
  (N.of_nat (length f) < field_limit)%N ->
  parse_add_char {| state := st; fields := fs; field := f |} c
  = Ret {| state := st; fields := fs; field := f ++ [c] |}.
Proof.
  intros H. unfold parse_add_char. cbn [field state fields].
  apply N.ltb_lt in H. now rewrite H.
Qed.

Lemma step_plain_start st fs c :
  starting st -> plain c ->
  parse_process_char {| state := st; fields := fs; field := [] |} (Some c)
  = Ret {| state := IN_FIELD; fields := fs; field := [c] |}.
Proof.
  intros Hst Hc. apply plain_inv in Hc as (H1 & H2 & H3 & _).
  unfold parse_process_char, start_field. cbn [state].
  destruct Hst as [-> | ->]; rewrite H3, H2, H1; reflexivity.
Qed.

Lemma step_plain_in_field fs f c :
  plain c -> (N.of_nat (length f) < field_limit)%N ->
  parse_process_char {| state := IN_FIELD; fields := fs; field := f |} (Some c)
  = Ret {| state := IN_FIELD; fields := fs; field := f ++ [c] |}.
Proof.
  intros Hc Hl. apply plain_inv in Hc as (H1 & H2 & H3 & _).
  unfold parse_process_char. cbn [state]. rewrite H3, H1.
  now apply add_char_ok.
Qed.

Lemma run_cons_mid mid r c s : run mid r (c :: s) = run true r (c :: s).
Proof. reflexivity. Qed.

Lemma run_step mid r c s r1 :
  parse_process_char r (Some c) = Ret r1 -> Ascii.eqb c LF = false ->
  run mid r (c :: s) = run true r1 s.
Proof. intros H1 H2. cbn [run]. rewrite H1. cbn [obind]. now rewrite H2. Qed.

(** The characters of an unquoted field after its first one. *)
Lemma run_plain p : forall f fs c rest mid,
  Forall plain p ->
  (N.of_nat (length f + length p) <= field_limit)%N ->
  run mid {| state := IN_FIELD; fields := fs; field := f |} (p ++ c :: rest)
  = run true {| state := IN_FIELD; fields := fs; field := f ++ p |} (c :: rest).
Proof.
  induction p as [|x p IH]; intros f fs c rest mid Hp Hl.
  - rewrite app_nil_r. reflexivity.
  - apply Forall_cons in Hp as [Hx Hp]. simpl in Hl.
    cbn [app].
    rewrite (run_step mid _ x _ _ (step_plain_in_field fs f x Hx ltac:(lia))).
    + rewrite IH; [|exact Hp|rewrite length_app; simpl; lia].
      now rewrite <- app_assoc.
    + now apply plain_inv in Hx.
Qed.

(** The body of a quoted field up to and including the closing quote. *)
Lemma run_quoted q : forall f fs rest mid,
  (N.of_nat (length f + length q) <= field_limit)%N ->
  run mid {| state := IN_QUOTED_FIELD; fields := fs; field := f |}
      (join_append_data q ++ quotechar :: rest)
  = run true {| state := QUOTE_IN_QUOTED_FIELD; fields := fs; field := f ++ q |}
        rest.
Proof.
  induction q as [|x q IH]; intros f fs rest mid Hl.
  - rewrite app_nil_r. reflexivity.
  - simpl in Hl. cbn [join_append_data].
    assert (Hadd : forall st,
              parse_add_char {| state := st; fields := fs; field := f |} x
              = Ret {| state := st; fields := fs; field := f ++ [x] |}).
    { intros st. apply add_char_ok. lia. }
    assert (Hnext : forall mid',
              run mid' {| state := IN_QUOTED_FIELD; fields := fs;
                          field := f ++ [x] |}
                  (join_append_data q ++ quotechar :: rest)
              = run true {| state := QUOTE_IN_QUOTED_FIELD; fields := fs;
                            field := f ++ x :: q |} rest).
    { intros mid'. rewrite IH; [|rewrite length_app; simpl; lia].
      now rewrite <- app_assoc. }
    destruct (Ascii.eqb x quotechar) eqn:Hq.
    + apply Ascii.eqb_eq in Hq. subst x. cbn [app].
      rewrite (run_step mid _ quotechar _
                 {| state := QUOTE_IN_QUOTED_FIELD; fields := fs; field := f |})
        by reflexivity.
      rewrite (run_step true _ quotechar _
                 {| state := IN_QUOTED_FIELD; fields := fs;
                    field := f ++ [quotechar] |}).
      * apply Hnext.
      * unfold parse_process_char. cbn [state].
        rewrite Ascii.eqb_refl, Hadd. reflexivity.
      * reflexivity.
    + cbn [app run].
      unfold parse_process_char at 1. cbn [state]. rewrite Hq, Hadd.
      cbn [obind].
      destruct (Ascii.eqb x LF).
      * unfold parse_process_char at 1. cbn [state obind parser_state_eqb].
        apply Hnext.
      * apply Hnext.
Qed.

(** A field followed by the delimiter. *)
Lemma run_field f st fs rest mid :
  starting st ->
  (N.of_nat (length f) <= field_limit)%N ->
  run mid {| state := st; fields := fs; field := [] |}
      (join_append f ++ delimiter :: rest)
  = run true {| state := START_FIELD; fields := fs ++ [of_list f]; field := [] |}
        rest.
Proof.
  intros Hst Hl. unfold join_append.
  destruct (existsb needs_quoting f) eqn:Hq.
  - cbn [app]. rewrite <- app_assoc. cbn [app].
    rewrite (run_step mid _ quotechar _
               {| state := IN_QUOTED_FIELD; fields := fs; field := [] |}).
    + rewrite run_quoted by (simpl; lia). cbn [app].
      now rewrite (run_step true _ delimiter _
                 {| state := START_FIELD; fields := fs ++ [of_list f];
                    field := [] |}) by reflexivity.
    + destruct Hst as [-> | ->]; reflexivity.
    + reflexivity.
  - apply existsb_plain in Hq. destruct f as [|x f].
    + cbn [app].
      rewrite (run_step mid _ delimiter _
                 {| state := START_FIELD; fields := fs ++ [of_list []];
                    field := [] |}); [reflexivity| |reflexivity].
      destruct Hst as [-> | ->]; reflexivity.
    + apply Forall_cons in Hq as [Hx Hf]. simpl in Hl. cbn [app].
      rewrite (run_step mid _ x _ _ (step_plain_start st fs x Hst Hx))
        by now apply plain_inv in Hx.
      rewrite run_plain; [|exact Hf|simpl; lia]. cbn [app].
      now rewrite (run_step true _ delimiter _
                 {| state := START_FIELD; fields := fs ++ [of_list (x :: f)];
                    field := [] |}) by reflexivity.
Qed.

Lemma run_end_of_record mid r rest fs :
  parse_process_char r (Some LF)
  = Ret {| state := EAT_CRNL; fields := fs; field := [] |} ->
  run mid r (LF :: rest)
  = obind (run false parse_reset rest) (fun rows => Ret (fs :: rows)).
Proof. intros H. cbn [run]. rewrite H. reflexivity. Qed.

(** The last field of a record, followed by the end of the line. *)
Lemma run_last_field f fs rest mid :
  (N.of_nat (length f) <= field_limit)%N ->
  run mid {| state := START_FIELD; fields := fs; field := [] |}
      (join_append f ++ LF :: rest)
  = obind (run false parse_reset rest)
          (fun rows => Ret ((fs ++ [of_list f]) :: rows)).
Proof.
  intros Hl. unfold join_append.
  destruct (existsb needs_quoting f) eqn:Hq.
  - cbn [app]. rewrite <- app_assoc. cbn [app].
    rewrite (run_step mid _ quotechar _
               {| state := IN_QUOTED_FIELD; fields := fs; field := [] |})
      by reflexivity.
    rewrite run_quoted by (simpl; lia). cbn [app].
    now apply run_end_of_record.
  - apply existsb_plain in Hq. destruct f as [|x f].
    + cbn [app]. now apply run_end_of_record.
    + apply Forall_cons in Hq as [Hx Hf]. simpl in Hl. cbn [app].
      rewrite (run_step mid _ x _ _
                 (step_plain_start START_FIELD fs x (or_intror eq_refl) Hx))
        by now apply plain_inv in Hx.
      rewrite run_plain; [|exact Hf|simpl; lia]. cbn [app].
      now apply run_end_of_record.
Qed.

End ReaderFields.

Section ReadBack.
Import PyStr Csv CsvPass.

Lemma storable_inv f :
  storable f = true ->
  forallb (fun c => negb (Ascii.eqb c CR)) (to_list f) = true
  /\ (N.of_nat (length (to_list f)) <= field_limit)%N.
Proof.
  unfold storable. intros H. apply andb_true_iff in H as [H1 H2].
  split; [exact H1 | now apply N.leb_le].
Qed.

(** One record, read from the start of a line. *)
Lemma run_record row rest mid :
  storable (fst row) = true -> storable (snd row) = true ->
  run mid parse_reset (record_chars row ++ rest)
  = obind (run false parse_reset rest)
          (fun rows => Ret ([fst row; snd row] :: rows)).
Proof.
  intros Hu Ht. apply storable_inv in Hu as [_ Hu].
  apply storable_inv in Ht as [_ Ht].
  unfold record_chars. rewrite <- app_assoc. cbn [app].
  rewrite <- app_assoc. cbn [app].
  unfold parse_reset.
  rewrite run_field; [|now left|exact Hu].
  rewrite run_last_field by exact Ht.
  cbn [app]. now rewrite !of_list_to_list.
Qed.

Lemma run_records rows :
  storable_rows rows = true ->
  run false parse_reset (concat (map record_chars rows))
  = Ret (map (fun row => [fst row; snd row]) rows).
Proof.
  induction rows as [|row rows IH]; intros H; [reflexivity|].
  cbn [storable_rows forallb] in H. apply andb_true_iff in H as [H1 H2].
  apply andb_true_iff in H1 as [Hu Ht].
  cbn [map concat]. rewrite run_record by assumption.
  fold (storable_rows rows) in H2. now rewrite IH.
Qed.

(** *** Universal newlines on the text of the ledger *)

Lemma no_CR_app a b : no_CR a -> no_CR b -> no_CR (a ++ b).
Proof. unfold no_CR. rewrite forallb_app. intros -> ->. reflexivity. Qed.

Lemma no_CR_join_append_data f : no_CR f -> no_CR (join_append_data f).
Proof.
  unfold no_CR. induction f as [|c f IH]; [reflexivity|].
  cbn [forallb join_append_data]. intros H.
  apply andb_true_iff in H as [H1 H2].
  destruct (Ascii.eqb c quotechar); cbn [forallb]; rewrite ?H1, IH by exact H2;
    reflexivity.
Qed.

Lemma no_CR_join_append f : no_CR f -> no_CR (join_append f).
Proof.
  intros H. unfold join_append. destruct (existsb needs_quoting f); [|exact H].
  change (no_CR ([quotechar] ++ join_append_data f ++ [quotechar])).
  apply no_CR_app; [reflexivity|].
  apply no_CR_app; [now apply no_CR_join_append_data | reflexivity].
Qed.

Lemma universal_newlines_no_CR a b :
  no_CR a ->
  TextIO.universal_newlines (a ++ b) = a ++ TextIO.universal_newlines b.
Proof.
  unfold no_CR. induction a as [|c a IH]; intros H; [reflexivity|].
  cbn [forallb] in H. apply andb_true_iff in H as [H1 H2].
  cbn [app TextIO.universal_newlines].
  destruct (Ascii.eqb c CR); [discriminate|]. now rewrite IH.
Qed.

Lemma universal_newlines_record row rest :
  storable (fst row) = true -> storable (snd row) = true ->
  TextIO.universal_newlines (record_text row ++ rest)
  = record_chars row ++ TextIO.universal_newlines rest.
Proof.
  intros Hu Ht. apply storable_inv in Hu as [Hu _].
  apply storable_inv in Ht as [Ht _].
  unfold record_text, record_chars, lineterminator.
  change (join_append (to_list (fst row))
          ++ delimiter :: join_append (to_list (snd row)) ++ [CR; LF])
    with (join_append (to_list (fst row))
          ++ [delimiter] ++ join_append (to_list (snd row)) ++ [CR; LF]).
  change (join_append (to_list (fst row))
          ++ delimiter :: join_append (to_list (snd row)) ++ [LF])
    with (join_append (to_list (fst row))
          ++ [delimiter] ++ join_append (to_list (snd row)) ++ [LF]).
  rewrite <- !app_assoc.
  rewrite universal_newlines_no_CR by now apply no_CR_join_append.
  rewrite universal_newlines_no_CR by reflexivity.
  rewrite universal_newlines_no_CR by now apply no_CR_join_append.
  reflexivity.
Qed.

Lemma universal_newlines_records rows :
  storable_rows rows = true ->
  TextIO.universal_newlines (concat (map record_text rows))
  = concat (map record_chars rows).
Proof.
  induction rows as [|row rows IH]; intros H; [reflexivity|].
  cbn [storable_rows forallb] in H. apply andb_true_iff in H as [H1 H2].
  apply andb_true_iff in H1 as [Hu Ht].
  cbn [map concat]. rewrite universal_newlines_record by assumption.
  fold (storable_rows rows) in H2. now rewrite IH.
Qed.

(** *** The text of the ledger as a list of records *)

Lemma to_list_row_line row : to_list (row_line row) = record_text row.
Proof. unfold row_line. apply to_list_of_list. Qed.

Lemma to_list_ledger_text rows :
  to_list (ledger_text rows)
  = concat (map record_text (("URL", "latestChapter") :: rows)).
Proof.
  unfold ledger_text. rewrite to_list_append. cbn [map concat].
  f_equal. induction rows as [|row rows IH]; [reflexivity|].
  cbn [map concat]. rewrite concat_cons, to_list_append, to_list_row_line.
  now rewrite IH.
Qed.

Lemma DictReader_records rows :
  DictCsv.DictReader
    (map (fun row => [fst row; snd row]) (("URL", "latestChapter") :: rows))
  = ledger_of rows.
Proof.
  cbn [map DictCsv.DictReader fst snd].
  induction rows as [|[u t] rows IH]; [reflexivity|].
  cbn [map List.filter length Nat.eqb negb ledger_of fst snd].
  f_equal. exact IH.
Qed.

(** Reading the text of a ledger of storable records gives the ledger. *)
Lemma read_ledger_text rows :
  storable_rows rows = true ->
  obind (reader_list (TextIO.readlines (ledger_text rows)))
        (fun records => Ret (DictCsv.DictReader records))
  = Ret (ledger_of rows).
Proof.
  intros H. unfold reader_list, TextIO.readlines.
  rewrite (proj1 (run_lines _)).
  rewrite to_list_ledger_text, universal_newlines_records, run_records.
  - cbn [obind]. now rewrite DictReader_records.
  - cbn [storable_rows forallb]. fold (storable_rows rows). now rewrite H.
  - cbn [storable_rows forallb]. fold (storable_rows rows). now rewrite H.
Qed.

Lemma load_spec s rows writable :
  fs (env s) !! _URL_file_path (self s)
  = Some (File writable (ledger_text rows)) ->
  storable_rows rows = true ->
  _load_URL_Data s
  = (Ret (ledger_of rows), opened (_URL_file_path (self s)) ModeR s).
Proof.
  intros Hf H. unfold _load_URL_Data.
  rewrite (bind_Ret _ _ s (_URL_file_path (self s)) s) by reflexivity.
  rewrite (bind_Ret _ _ s (ledger_text rows)
             (opened (_URL_file_path (self s)) ModeR s)).
  2:{ unfold Files.read. run_monad. now rewrite Hf. }
  pose proof (read_ledger_text rows H) as R.
  unfold bind, lift, ret.
  destruct (reader_list (TextIO.readlines (ledger_text rows))) as [records|e];
    simpl in R; [|discriminate].
  now injection R as ->.
Qed.

End ReadBack.

(** *** A field beyond the size limit *)

Section FieldLimit.
Import PyStr Csv CsvPass.

Lemma plain_existsb f : Forall plain f -> existsb needs_quoting f = false.
Proof.
  induction 1 as [|c f Hc _ IH]; [reflexivity|].
  simpl. unfold plain in Hc. now rewrite Hc, IH.
Qed.

Lemma plain_no_CR f : Forall plain f -> no_CR f.
Proof.
  unfold no_CR. induction 1 as [|c f Hc _ IH]; [reflexivity|].
  cbn [forallb]. rewrite IH, andb_true_r.
  unfold plain, needs_quoting, lineterminator in Hc. simpl in Hc.
  destruct (Ascii.eqb c CR); [|reflexivity].
  now rewrite !orb_true_r in Hc.
Qed.

(** An unquoted field that outgrows the limit stops the reader. *)
Lemma run_plain_overflow p : forall f fs rest mid,
  Forall plain p ->
  (N.of_nat (length f) <= field_limit)%N ->
  (field_limit < N.of_nat (length f + length p))%N ->
  run mid {| state := IN_FIELD; fields := fs; field := f |} (p ++ rest)
  = Raise CsvError.
Proof.
  induction p as [|x p IH]; intros f fs rest mid Hp Hf Hl.
  - simpl in Hl. lia.
  - apply Forall_cons in Hp as [Hx Hp]. simpl in Hl. cbn [app].
    destruct (N.ltb (N.of_nat (length f)) field_limit) eqn:Hlt.
    + apply N.ltb_lt in Hlt.
      rewrite (run_step mid _ x _ _ (step_plain_in_field fs f x Hx Hlt))
        by now apply plain_inv in Hx.
      apply IH; [exact Hp| |]; rewrite length_app; simpl; lia.
    + cbn [run]. apply plain_inv in Hx as (H1 & _ & H3 & _).
      unfold parse_process_char, parse_add_char. cbn [state field].
      now rewrite H3, H1, Hlt.
Qed.

Lemma run_field_too_long f fs rest mid :
  Forall plain f ->
  (field_limit < N.of_nat (length f))%N ->
  run mid {| state := START_FIELD; fields := fs; field := [] |} (f ++ rest)
  = Raise CsvError.
Proof.
  intros Hp Hl. destruct f as [|x f]; [simpl in Hl; lia|].
  apply Forall_cons in Hp as [Hx Hp]. cbn [app].
  rewrite (run_step mid _ x _ _
             (step_plain_start START_FIELD fs x (or_intror eq_refl) Hx))
    by now apply plain_inv in Hx.
  apply run_plain_overflow; [exact Hp| |].
  - simpl. unfold field_limit. lia.
  - simpl in *. lia.
Qed.

Lemma universal_newlines_record_no_CR row rest :
  no_CR (to_list (fst row)) -> no_CR (to_list (snd row)) ->
  TextIO.universal_newlines (record_text row ++ rest)
  = record_chars row ++ TextIO.universal_newlines rest.
Proof.
  intros Hu Ht.
  unfold record_text, record_chars, lineterminator.
  change (join_append (to_list (fst row))
          ++ delimiter :: join_append (to_list (snd row)) ++ [CR; LF])
    with (join_append (to_list (fst row))
          ++ [delimiter] ++ join_append (to_list (snd row)) ++ [CR; LF]).
  change (join_append (to_list (fst row))
          ++ delimiter :: join_append (to_list (snd row)) ++ [LF])
    with (join_append (to_list (fst row))
          ++ [delimiter] ++ join_append (to_list (snd row)) ++ [LF]).
  rewrite <- !app_assoc.
  rewrite universal_newlines_no_CR by now apply no_CR_join_append.
  rewrite universal_newlines_no_CR by reflexivity.
  rewrite universal_newlines_no_CR by now apply no_CR_join_append.
  reflexivity.
Qed.

(** A ledger of one record whose token is unquoted and longer than the
    limit is persisted, and loading the file raises [csv.Error]. *)
Lemma load_too_long s u f :
  _url_data (self s) = ledger_of [(u, f)] ->
  writable_path (env s) (_URL_file_path (self s)) ->
  storable u = true ->
  Forall plain (to_list f) ->
  (field_limit < N.of_nat (length (to_list f)))%N ->
  fst (_write_URL_data_to_file s) = Ret tt
  /\ fst (_load_URL_Data (snd (_write_URL_data_to_file s))) = Raise CsvError.
Proof.
  intros Hs Hw Hu Hp Hl. rewrite (persist_spec s [(u, f)] Hs Hw).
  split; [reflexivity|]. cbn [snd].
  unfold _load_URL_Data.
  erewrite bind_Ret by reflexivity.
  rewrite (bind_Ret _ _ _ (ledger_text [(u, f)])
             (opened (_URL_file_path (self s)) ModeR (persisted [(u, f)] s))).
  2:{ unfold Files.read, persisted, stored.
      erewrite bind_Ret by reflexivity. erewrite bind_Ret by reflexivity.
      cbn [with_env env fs set_fs record_event self].
      now rewrite lookup_insert_eq. }
  assert (R : reader_list (TextIO.readlines (ledger_text [(u, f)]))
              = Raise CsvError).
  { unfold reader_list, TextIO.readlines.
    rewrite (proj1 (run_lines _)), to_list_ledger_text.
    cbn [map concat]. rewrite app_nil_r.
    rewrite universal_newlines_record_no_CR by reflexivity.
    rewrite <- (app_nil_r (record_text (u, f))).
    rewrite universal_newlines_record_no_CR;
      [|now apply storable_inv in Hu|now apply plain_no_CR].
    rewrite run_record by reflexivity.
    cbn [TextIO.universal_newlines]. rewrite app_nil_r.
    unfold record_chars, parse_reset. cbn [fst snd].
    rewrite run_field; [|now left|now apply storable_inv in Hu].
    unfold join_append at 1. rewrite (plain_existsb _ Hp).
    now rewrite run_field_too_long. }
  unfold bind, lift. now rewrite R.
Qed.

End FieldLimit.

(** C8, as stated, fails: a ledger whose one token holds a carriage
    return is persisted without error, and loading the file gives a
    ledger whose token holds a line feed instead; a ledger whose one
    token is longer than the reader's field size limit is persisted
    without error, and loading the file raises [csv.Error]. *)
Lemma roundtrip_fails :
  fst (_write_URL_data_to_file Sample.state_CR) = Ret tt
  /\ fst (_load_URL_Data (snd (_write_URL_data_to_file Sample.state_CR)))
     = Ret (ledger_of [(Sample.wln "1", Sample.token_LF)])
  /\ fst (_load_URL_Data (snd (_write_URL_data_to_file Sample.state_CR)))
     <> Ret (_url_data (self Sample.state_CR))
  /\ fst (_write_URL_data_to_file Sample.state_long) = Ret tt
  /\ fst (_load_URL_Data (snd (_write_URL_data_to_file Sample.state_long)))
     = Raise CsvError.
Proof.
  assert (E : fst (_load_URL_Data (snd (_write_URL_data_to_file Sample.state_CR)))
              = Ret (ledger_of [(Sample.wln "1", Sample.token_LF)]))
    by (vm_compute; reflexivity).
  split; [vm_compute; reflexivity|]. split; [exact E|]. split.
  - rewrite E. intros H.
    pose proof (f_equal (fun o : outcome (list pydict) =>
                           match o with Ret a => a | Raise _ => [] end) H) as H'.
    cbv beta iota in H'.
    change (_url_data (self Sample.state_CR))
      with (ledger_of [(Sample.wln "1", Sample.token_CR)]) in H'.
    apply ledger_of_inj in H'. discriminate.
  - apply (load_too_long Sample.state_long (Sample.wln "1") Sample.token_long).
    + reflexivity.
    + right. exists header_line. reflexivity.
    + vm_compute. reflexivity.
    + unfold Sample.token_long. rewrite to_list_of_list.
      apply Forall_forall. intros c Hc. apply list_elem_of_In in Hc.
      apply repeat_spec in Hc. subst c. reflexivity.
    + unfold Sample.token_long. rewrite to_list_of_list, repeat_length.
      unfold Csv.field_limit. lia.
Qed.

(** C8, amended: for every ledger whose URLs and tokens hold no carriage
    return and are within the reader's field size limit, persisting
    writes the fixed header followed by the lines of all records in the
    given order, and loading the file then yields the identical ordered
    sequence of records. *)
Theorem persist_load_roundtrip (s : state) (rows : list (string * string)) :
  _url_data (self s) = ledger_of rows ->
  writable_path (env s) (_URL_file_path (self s)) ->
  storable_rows rows = true ->
  let s1 := snd (_write_URL_data_to_file s) in
  fst (_write_URL_data_to_file s) = Ret tt
  /\ fs (env s1) !! _URL_file_path (self s)
     = Some (File true (header_line
                        +:+ String.concat EmptyString (map row_line rows)))
  /\ self s1 = self s
  /\ fst (_load_URL_Data s1) = Ret (_url_data (self s))
  /\ fs (env (snd (_load_URL_Data s1))) = fs (env s1).
Proof.
  intros Hs Hw Hok. cbv zeta. rewrite (persist_spec s rows Hs Hw). simpl.
  assert (Hf : fs (env (persisted rows s)) !! _URL_file_path (self (persisted rows s))
               = Some (File true (ledger_text rows))).
  { simpl. apply lookup_insert_eq. }
  split; [reflexivity|]. split; [exact Hf|]. split; [reflexivity|].
  rewrite (load_spec (persisted rows s) rows true Hf Hok).
  split; [simpl; now rewrite Hs | reflexivity].
Qed.

(** The round trip on the sample ledger. *)
Lemma persist_load_roundtrip_witness :
  let s1 := snd (_write_URL_data_to_file Sample.state0) in
  fst (_write_URL_data_to_file Sample.state0) = Ret tt
  /\ fs (env s1) !! _URL_file_path (self Sample.state0)
     = Some (File true (header_line
                        +:+ String.concat EmptyString
                              (map row_line Sample.rows0)))
  /\ self s1 = self Sample.state0
  /\ fst (_load_URL_Data s1) = Ret (_url_data (self Sample.state0))
  /\ fs (env (snd (_load_URL_Data s1))) = fs (env s1).
Proof.
  apply (persist_load_roundtrip Sample.state0 Sample.rows0).
  - reflexivity.
  - right. exists header_line. reflexivity.
  - vm_compute. reflexivity.
Defined.

(** Fields with a comma, a quote and a line feed come back as they
    were. *)
Example roundtrip_sample :
  let rows := [("a,b", String (ascii_of_nat 34) "x");
               (EmptyString, Sample.token_LF)] in
  let s := {| self := Sample.object_with rows;
              env := Sample.world_with Sample.files0 |} in
  fst (_load_URL_Data (snd (_write_URL_data_to_file s))) = Ret (ledger_of rows).
Proof. vm_compute. reflexivity. Qed.

(* ===================================================================== *)
(** ** The digest and the notifier *)
(* ===================================================================== *)

Ltac run_world :=
  repeat (progress (run_monad; unfold tick, record_event, set_fs; simpl)).

Lemma integrate_from (urls : list string) : forall acc,
  fold_left (fun message url => message +:+ url +:+ String PyStr.LF EmptyString)
            urls acc
  = acc +:+ _integrate_Updated_URLS urls.
Proof.
  unfold _integrate_Updated_URLS.
  induction urls as [|url urls IH]; intros acc.
  - simpl. now rewrite append_nil_r.
  - cbn [fold_left]. rewrite (IH (acc +:+ _)), (IH (EmptyString +:+ _)).
    rewrite append_nil_l. now rewrite append_assoc.
Qed.

(** X1: the body of the digest is the updated URLs in order, each
    followed by a line feed; hence the body of two lists put end to end
    is the two bodies put end to end, and no URL gives the empty
    body. *)
Theorem integrate_lines (urls urls' : list string) :
  _integrate_Updated_URLS urls
  = String.concat EmptyString (map (fun url => url +:+ newline) urls)
  /\ _integrate_Updated_URLS (urls ++ urls')
     = _integrate_Updated_URLS urls +:+ _integrate_Updated_URLS urls'.
Proof.
  assert (Hcons : forall url l,
            _integrate_Updated_URLS (url :: l)
            = (url +:+ newline) +:+ _integrate_Updated_URLS l).
  { intros url l. unfold _integrate_Updated_URLS at 1. cbn [fold_left].
    now rewrite integrate_from, append_nil_l. }
  split.
  - induction urls as [|url urls IH]; [reflexivity|].
    cbn [map]. now rewrite concat_cons, Hcons, IH.
  - induction urls as [|url urls IH]; [reflexivity|].
    cbn [app]. rewrite !Hcons, IH. symmetry. apply append_assoc.
Qed.

(** X2: the notifier always returns and leaves the object and the files
    alone.  When the connection fails it reports the connection error
    and never sends the credentials; when the login fails, and also when
    the login succeeds and the sending fails, it reports the wrong
    credentials error; otherwise it sends one mail from the user's
    address to that same address with the digest as its text, and
    reports nothing. *)
Theorem send_Email_outcomes (updated_URLS : list string) (s : state) :
  let user := _user_email (self s) in
  let password := _password (self s) in
  let message := _integrate_Updated_URLS updated_URLS in
  _send_Email updated_URLS s
  = (Ret tt,
     after_session
       match smtp (env s) (clock (env s)) with
       | ConnectionFails => [SmtpConnect; Message msg_connection]
       | LoginFails =>
           [SmtpConnect; SmtpLogin user password; Message msg_login]
       | SendFails =>
           [SmtpConnect; SmtpLogin user password;
            SmtpSendmail user user message; Message msg_login]
       | Delivers =>
           [SmtpConnect; SmtpLogin user password;
            SmtpSendmail user user message]
       end s).
Proof.
  cbv zeta. unfold _send_Email, after_session. run_world.
  destruct (smtp (env s) (clock (env s))); run_world;
    rewrite <- ?app_assoc; reflexivity.
Qed.

(* ===================================================================== *)
(** ** The two extraction routines *)
(* ===================================================================== *)

Lemma slice_from_prefix (prefix token : string) :
  PyStr.slice_from (String.length prefix) (prefix +:+ token) = token.
Proof. induction prefix as [|c prefix IH]; [now destruct token | exact IH]. Qed.

Lemma slice_from_short (n : nat) : forall text,
  String.length text <= n -> PyStr.slice_from n text = EmptyString.
Proof.
  induction n as [|n IH]; intros [|c text] H; simpl in *;
    try reflexivity; try lia.
  apply IH. lia.
Qed.

(** X3: Extraction Routine A makes one GET and never raises.  It
    delivers the text of the first [h5] element without its first 17
    characters: the token after "Latest release - ", and the empty
    token, not Absent, when the heading has 17 characters or fewer.  It
    delivers Absent and reports the error when the fetch fails or the
    page has no [h5] element. *)
Theorem WLN_routine (URL : string) (s : state) :
  _webscrape_WLN_Latest_Chapter URL s
  = match web (env s) (clock (env s)) URL with
    | Some {| find_h5 := Some text |} =>
        (Ret (Some (PyStr.slice_from 17 text)), after_session [HttpGet URL] s)
    | _ => (Ret None, after_session [HttpGet URL; Message msg_no_chapter] s)
    end
  /\ (forall token,
        PyStr.slice_from 17 ("Latest release - " +:+ token) = token)
  /\ (forall text, String.length text <= 17 ->
        PyStr.slice_from 17 text = EmptyString).
Proof.
  split; [|split].
  - unfold _webscrape_WLN_Latest_Chapter, Net.fetch, after_session. run_world.
    destruct (web (env s) (clock (env s)) URL) as [[[text|] anchors]|];
      run_world; rewrite <- ?app_assoc; reflexivity.
  - intros token. apply (slice_from_prefix "Latest release - " token).
  - apply slice_from_short.
Qed.

(** The sample page, and a heading shorter than the prefix. *)
Lemma WLN_routine_witness :
  _webscrape_WLN_Latest_Chapter (Sample.wln "1") Sample.state0
  = (Ret (Some "6"), after_session [HttpGet (Sample.wln "1")] Sample.state0)
  /\ PyStr.slice_from 17 "Latest" = EmptyString.
Proof.
  split.
  - exact (proj1 (WLN_routine (Sample.wln "1") Sample.state0)).
  - refine (proj2 (proj2 (WLN_routine (Sample.wln "1") Sample.state0))
              "Latest" _).
    simpl. lia.
Defined.

(** X4: Extraction Routine B makes one GET and never raises.  It
    delivers the text of the first anchor of class [chp-release],
    whatever the anchors after it; it delivers Absent and reports the
    error when the fetch fails or the page has no such anchor. *)
Theorem Novelupdates_routine (URL : string) (s : state) :
  _webscrape_Novelupdates_Latest_Chapter URL s
  = match web (env s) (clock (env s)) URL with
    | Some {| findAll_chp_release := text :: _ |} =>
        (Ret (Some text), after_session [HttpGet URL] s)
    | _ => (Ret None, after_session [HttpGet URL; Message msg_no_chapter] s)
    end.
Proof.
  unfold _webscrape_Novelupdates_Latest_Chapter, Net.fetch, after_session.
  run_world.
  destruct (web (env s) (clock (env s)) URL) as [[h5 [|text anchors]]|];
    run_world; rewrite <- ?app_assoc; reflexivity.
Qed.

(* ===================================================================== *)
(** ** Persisting and appending *)
(* ===================================================================== *)

Lemma write_rows_app path l1 : forall l2 s,
  write_rows path (l1 ++ l2) s
  = bind (write_rows path l1) (fun _ => write_rows path l2) s.
Proof.
  induction l1 as [|d l1 IH]; intros l2 s; [reflexivity|].
  cbn [app write_rows]. unfold bind at 1 4. unfold lift.
  destruct (DictCsv.writerow FIELD_NAMES d) as [line|e]; [|reflexivity].
  unfold bind at 1 3. unfold Files.write, modify.
  rewrite IH. reflexivity.
Qed.

Lemma writerow_foreign_key d :
  has_foreign_key d -> DictCsv.writerow FIELD_NAMES d = Raise ValueError.
Proof.
  intros H. unfold DictCsv.writerow, DictCsv._dict_to_list.
  destruct (decide _) as [Hd|_]; [now elim H | reflexivity].
Qed.

(** X5: persisting is not atomic.  When the ledger holds, after
    well-formed records, a dictionary with a key that is no field name
    (the reader makes one from a row with more fields than the header)
    and the ledger file can be opened for writing, persisting raises
    [ValueError] after the file was emptied and rewritten up to that
    record: the file is left with the header and the records before it,
    the records from it on are no longer on disk. *)
Theorem persist_stops_at_foreign_key (s : state) (pre : list (string * string))
                                     (bad : pydict) (post : list pydict) :
  _url_data (self s) = ledger_of pre ++ bad :: post ->
  has_foreign_key bad ->
  writable_path (env s) (_URL_file_path (self s)) ->
  let s' := snd (_write_URL_data_to_file s) in
  fst (_write_URL_data_to_file s) = Raise ValueError
  /\ self s' = self s
  /\ fs (env s')
     = <[(_URL_file_path (self s)) := File true (ledger_text pre)]> (fs (env s))
  /\ trace (env s')
     = trace (env s) ++ [FileOpen (_URL_file_path (self s)) ModeW].
Proof.
  intros Hs Hbad Hw. cbv zeta. unfold _write_URL_data_to_file.
  rewrite (bind_Ret _ _ s (_URL_file_path (self s)) s) by reflexivity.
  set (path := _URL_file_path (self s)) in *.
  erewrite bind_Ret by (apply Files_open_w_spec; exact Hw).
  erewrite bind_Ret
    by (eapply Files_write_spec; simpl; apply lookup_insert_eq).
  erewrite bind_Ret by reflexivity. cbn [self with_env stored opened].
  rewrite Hs, write_rows_app.
  erewrite bind_Ret
    by (apply write_rows_spec; simpl; apply lookup_insert_eq).
  cbn [write_rows]. rewrite (writerow_foreign_key bad Hbad).
  unfold bind, lift. cbn [fst snd].
  split; [reflexivity|]. split; [reflexivity|]. split; [|reflexivity].
  unfold stored, with_env, set_fs, ledger_text. simpl.
  now rewrite !insert_insert_eq.
Qed.

(** A ledger with a row of three fields in the middle. *)
Lemma persist_stops_at_foreign_key_witness :
  let s' := snd (_write_URL_data_to_file Sample.state_surplus) in
  fst (_write_URL_data_to_file Sample.state_surplus) = Raise ValueError
  /\ self s' = self Sample.state_surplus
  /\ fs (env s')
     = <[(_URL_file_path (self Sample.state_surplus))
         := File true (ledger_text [(Sample.wln "1", "5")])]>
         (fs (env Sample.state_surplus))
  /\ trace (env s')
     = trace (env Sample.state_surplus)
       ++ [FileOpen (_URL_file_path (self Sample.state_surplus)) ModeW].
Proof.
  apply (persist_stops_at_foreign_key Sample.state_surplus
           [(Sample.wln "1", "5")] Sample.surplus_row
           (ledger_of [(Sample.wln "3", "9")])).
  - reflexivity.
  - intros [H _]. discriminate H.
  - right. exists header_line. reflexivity.
Defined.

Lemma concat_app (l1 l2 : list string) :
  String.concat EmptyString (l1 ++ l2)
  = String.concat EmptyString l1 +:+ String.concat EmptyString l2.
Proof.
  induction l1 as [|x l1 IH]; [reflexivity|].
  cbn [app]. now rewrite !concat_cons, IH, append_assoc.
Qed.

Lemma ledger_text_snoc rows row :
  ledger_text (rows ++ [row]) = ledger_text rows +:+ row_line row.
Proof.
  unfold ledger_text. rewrite map_app, concat_app. cbn [map].
  rewrite concat_cons. cbn [String.concat]. rewrite append_nil_r.
  symmetry. apply append_assoc.
Qed.

Lemma Files_open_a_spec path old s :
  appendable (env s) path old ->
  Files.open_a path s = (Ret tt, stored path old (opened path ModeA s)).
Proof.
  intros H. unfold Files.open_a. run_monad.
  destruct H as [[H ->]|H]; rewrite H; [reflexivity|].
  unfold stored, opened, with_env, set_fs. simpl.
  rewrite insert_id by exact H. reflexivity.
Qed.

(** The whole effect of adding a fresh URL whose scrape gave a token. *)
Lemma add_fresh_spec URL rows s latest s' old :
  _url_data (self s) = ledger_of rows -> URL ∉ urls rows ->
  _get_Latest_Chapter_URL_Filtered URL s = (Ret (Some latest), s') ->
  appendable (env s) (_URL_file_path (self s)) old ->
  addURLData URL s
  = (Ret tt,
     stored (_URL_file_path (self s)) (old +:+ row_line (URL, latest))
       (opened (_URL_file_path (self s)) ModeA
          (with_self (set_url_data (ledger_of (rows ++ [(URL, latest)]))) s'))).
Proof.
  intros Hs H E Ha. unfold addURLData.
  rewrite (bind_Ret _ _ s (_url_data (self s)) s) by reflexivity.
  rewrite Hs.
  rewrite (bind_Ret _ _ s false s) by now apply add_scan_absent.
  rewrite (bind_Ret _ _ s (Some latest) s') by exact E.
  destruct (scraper_effect URL s) as (o & s'' & E' & F & _).
  rewrite E in E'. injection E' as <- <-.
  destruct F as (F1 & F2 & _).
  change (FIELD_NAMES_at 0) with "URL".
  change (FIELD_NAMES_at 1) with "latestChapter".
  change {| items := <["latestChapter" := Some latest]> (<["URL" := Some URL]> ∅);
            rest := None |}
    with (record (fst (URL, latest)) (snd (URL, latest))).
  set (s2 := with_self (set_url_data (ledger_of (rows ++ [(URL, latest)]))) s').
  assert (Hs2 : with_self (fun m : model =>
                  set_url_data (_url_data m
                                ++ [record (fst (URL, latest)) (snd (URL, latest))])
                               m) s'
                = s2).
  { subst s2. unfold with_self. rewrite F1, Hs, ledger_of_app. reflexivity. }
  erewrite bind_Ret by reflexivity. rewrite Hs2.
  erewrite bind_Ret by reflexivity.
  assert (Hp : _URL_file_path (self s2) = _URL_file_path (self s)).
  { subst s2. simpl. now rewrite F1. }
  rewrite Hp. set (path := _URL_file_path (self s)) in *.
  assert (Ha2 : appendable (env s2) path old).
  { unfold appendable in *. subst s2. simpl. now rewrite F2. }
  erewrite bind_Ret by (apply Files_open_a_spec; exact Ha2).
  rewrite record_writerow.
  erewrite bind_Ret by reflexivity.
  erewrite Files_write_spec by (simpl; apply lookup_insert_eq).
  unfold stored, opened, with_env, set_fs. simpl.
  now rewrite insert_insert_eq.
Qed.

(** X6: adding a fresh URL whose scrape gave a token, when the ledger
    file can be opened for appending (a writable file, or no file, at
    its path), puts the new record at the end of the ledger in memory
    and one line at the end of the ledger file, which is opened for
    appending and not rewritten;
    when the file held the text of the old ledger it now holds the text
    of the new one, as a full rewrite would have left it. *)
Theorem add_appends (s : state) (rows : list (string * string))
                    (URL latest old : string) :
  _url_data (self s) = ledger_of rows ->
  URL ∉ urls rows ->
  fst (_get_Latest_Chapter_URL_Filtered URL s) = Ret (Some latest) ->
  appendable (env s) (_URL_file_path (self s)) old ->
  let s' := snd (addURLData URL s) in
  let scraped := snd (_get_Latest_Chapter_URL_Filtered URL s) in
  fst (addURLData URL s) = Ret tt
  /\ _url_data (self s') = ledger_of (rows ++ [(URL, latest)])
  /\ fs (env s')
     = <[(_URL_file_path (self s)) := File true (old +:+ row_line (URL, latest))]>
         (fs (env s))
  /\ trace (env s')
     = trace (env scraped) ++ [FileOpen (_URL_file_path (self s)) ModeA]
  /\ (old = ledger_text rows ->
      fs (env s') !! _URL_file_path (self s)
      = Some (File true (ledger_text (rows ++ [(URL, latest)])))).
Proof.
  intros Hs H E Ha. cbv zeta.
  destruct (scraper_effect URL s) as (o & s1 & E1 & F & _).
  rewrite E1 in E. simpl in E. injection E as ->.
  rewrite (add_fresh_spec URL rows s latest s1 old Hs H E1 Ha), E1.
  destruct F as (F1 & F2 & _). cbn [fst snd].
  split; [reflexivity|]. split; [reflexivity|].
  split; [simpl; now rewrite F2|]. split; [reflexivity|].
  intros ->. simpl. rewrite lookup_insert_eq. now rewrite ledger_text_snoc.
Qed.

(** Adding a fourth series to the sample ledger. *)
Lemma add_appends_witness :
  let s := with_env (fun w => {| fs := fs w;
                                 web := fun _ _ => Some (Sample.page_of "7");
                                 smtp := smtp w; clock := clock w;
                                 trace := trace w |}) Sample.state0 in
  let s' := snd (addURLData (Sample.wln "4") s) in
  let scraped := snd (_get_Latest_Chapter_URL_Filtered (Sample.wln "4") s) in
  fst (addURLData (Sample.wln "4") s) = Ret tt
  /\ _url_data (self s') = ledger_of (Sample.rows0 ++ [(Sample.wln "4", "7")])
  /\ fs (env s')
     = <[(_URL_file_path (self s))
         := File true (header_line +:+ row_line (Sample.wln "4", "7"))]>
         (fs (env s))
  /\ trace (env s')
     = trace (env scraped) ++ [FileOpen (_URL_file_path (self s)) ModeA]
  /\ (header_line = ledger_text Sample.rows0 ->
      fs (env s') !! _URL_file_path (self s)
      = Some (File true (ledger_text (Sample.rows0 ++ [(Sample.wln "4", "7")])))).
Proof.
  apply (add_appends _ Sample.rows0 (Sample.wln "4") "7" header_line).
  - reflexivity.
  - vm_compute. intros H.
    repeat (apply elem_of_cons in H as [H|H]; [discriminate|]). inversion H.
  - reflexivity.
  - right. reflexivity.
Defined.

(** X7: when the ledger file does not exist at the time of an add of a
    fresh URL whose scrape gave a token, the append creates it with the
    line of the new record and no header line.  Loading that file takes
    the line for the header and yields the empty ledger, the URL and
    the token holding no carriage return and being within the reader's
    field size limit: the record is not there after a restart. *)
Theorem add_without_file_loses_record (s : state) (rows : list (string * string))
                                      (URL latest : string) :
  _url_data (self s) = ledger_of rows ->
  URL ∉ urls rows ->
  fst (_get_Latest_Chapter_URL_Filtered URL s) = Ret (Some latest) ->
  fs (env s) !! _URL_file_path (self s) = None ->
  storable URL = true -> storable latest = true ->
  let s' := snd (addURLData URL s) in
  fst (addURLData URL s) = Ret tt
  /\ fs (env s') !! _URL_file_path (self s)
     = Some (File true (row_line (URL, latest)))
  /\ fst (_load_URL_Data s') = Ret [].
Proof.
  intros Hs H E Hf Hu Ht. cbv zeta.
  destruct (scraper_effect URL s) as (o & s1 & E1 & F & _).
  rewrite E1 in E. simpl in E. injection E as ->.
  rewrite (add_fresh_spec URL rows s latest s1 EmptyString Hs H E1)
    by (left; now split).
  destruct F as (F1 & F2 & _). cbn [fst snd].
  split; [reflexivity|].
  assert (Hfile : forall st,
            fs (env (stored (_URL_file_path (self s))
                       (EmptyString +:+ row_line (URL, latest)) st))
            !! _URL_file_path (self s)
            = Some (File true (row_line (URL, latest)))).
  { intros st. simpl. apply lookup_insert_eq. }
  split; [apply Hfile|].
  unfold _load_URL_Data.
  erewrite bind_Ret by reflexivity.
  cbn [self stored opened with_env with_self set_url_data _URL_file_path].
  rewrite F1.
  erewrite (bind_Ret (Files.read _) _ _ (row_line (URL, latest)));
    [|unfold Files.read; erewrite bind_Ret by reflexivity;
      erewrite bind_Ret by reflexivity; simpl;
      now rewrite lookup_insert_eq].
  assert (R : Csv.reader_list (TextIO.readlines (row_line (URL, latest)))
              = Ret [[URL; latest]]).
  { unfold Csv.reader_list, TextIO.readlines.
    rewrite (proj1 (run_lines _)), to_list_row_line.
    rewrite <- (app_nil_r (CsvPass.record_text (URL, latest))).
    rewrite universal_newlines_record by assumption.
    now rewrite run_record by assumption. }
  unfold bind, lift. now rewrite R.
Qed.

(** An add on the sample installation without its ledger file. *)
Lemma add_without_file_loses_record_witness :
  let s' := snd (addURLData (Sample.wln "1") Sample.state_no_file) in
  fst (addURLData (Sample.wln "1") Sample.state_no_file) = Ret tt
  /\ fs (env s') !! _URL_file_path (self Sample.state_no_file)
     = Some (File true (row_line (Sample.wln "1", "6")))
  /\ fst (_load_URL_Data s') = Ret [].
Proof.
  apply (add_without_file_loses_record Sample.state_no_file []
           (Sample.wln "1") "6").
  - reflexivity.
  - intros H. inversion H.
  - reflexivity.
  - reflexivity.
  - reflexivity.
  - reflexivity.
Defined.

(* ===================================================================== *)
(** ** The file mirrors the memory *)
(* ===================================================================== *)

Lemma updated_none rows : forall outs,
  updated_urls rows outs = [] -> apply_updates rows outs = rows.
Proof.
  induction rows as [|row rows IH]; intros [|o outs] H; try reflexivity.
  cbn [updated_urls] in H. cbn [apply_updates].
  destruct (is_update (snd row) o) eqn:Hu; [discriminate|].
  cbn [app] in H. rewrite (IH outs H). f_equal.
  unfold checked. destruct o as [latest|]; [|reflexivity].
  simpl in Hu. now rewrite Hu.
Qed.

(** The check on a non-empty ledger of well-formed records whose file
    can be written. *)
Lemma check_run s rows :
  _url_data (self s) = ledger_of rows -> rows <> [] ->
  writable_path (env s) (_URL_file_path (self s)) ->
  exists outs s1,
    scrape_all (urls rows) s = (Ret outs, s1)
    /\ only_scraped s s1
    /\ _webscrape_Check s
       = match updated_urls rows outs with
         | [] => (Ret tt, with_self (set_url_data
                                       (ledger_of (apply_updates rows outs))) s1)
         | _ :: _ =>
             _send_Email (updated_urls rows outs)
               (persisted (apply_updates rows outs)
                  (with_self (set_url_data
                                (ledger_of (apply_updates rows outs))) s1))
         end.
Proof.
  intros Hs Hne Hw.
  destruct (compile_spec s rows Hs) as (outs & s1 & E & L & F & C).
  exists outs, s1. split; [exact E|]. split; [exact F|].
  destruct F as (F1 & F2 & _).
  unfold _webscrape_Check.
  rewrite (bind_Ret _ _ s (_url_data (self s)) s) by reflexivity.
  rewrite Hs. destruct rows as [|row rows]; [congruence|].
  cbn [ledger_of map]. unfold try_except, bind at 1. rewrite C.
  destruct (updated_urls (row :: rows) outs) as [|u updated]; [reflexivity|].
  set (s2 := with_self _ s1).
  rewrite (bind_Ret _ _ s2 tt (persisted (apply_updates (row :: rows) outs) s2)).
  - destruct (send_Email_effect (u :: updated)
                (persisted (apply_updates (row :: rows) outs) s2))
      as (s3 & mail & E3 & _).
    now rewrite E3.
  - apply persist_spec; [reflexivity|].
    subst s2. simpl. rewrite F1.
    destruct Hw as [Hw|[c Hw]]; [left|right; exists c]; simpl; now rewrite F2.
Qed.

Lemma setEmail_spec email s :
  setEmail email s
  = match open_error (env s) (_email_file_path (self s)) with
    | Some e =>
        (Raise e, opened (_email_file_path (self s)) ModeW
                    (with_self (set_user_email email) s))
    | None =>
        (Ret tt, stored (_email_file_path (self s)) email
                   (opened (_email_file_path (self s)) ModeW
                      (with_self (set_user_email email) s)))
    end.
Proof.
  unfold setEmail.
  erewrite bind_Ret by reflexivity.
  erewrite bind_Ret by reflexivity.
  cbn [self with_self set_user_email _email_file_path env].
  destruct (open_error (env s) (_email_file_path (self s))) as [e|] eqn:He.
  - erewrite bind_Raise; [reflexivity|]. now apply Files_open_w_error.
  - erewrite bind_Ret by (apply Files_open_w_spec; now apply open_error_None).
    erewrite bind_Ret by reflexivity.
    erewrite Files_write_spec by (simpl; apply lookup_insert_eq).
    unfold stored, opened, with_env, set_fs. simpl.
    now rewrite insert_insert_eq.
Qed.

(** One operation from a state whose file mirrors its memory. *)
Lemma mirror_step s rows op :
  mirrored s rows ->
  _email_file_path (self s) <> _URL_file_path (self s) ->
  exists rows',
    mirrored (snd (run_op op s)) rows'
    /\ _URL_file_path (self (snd (run_op op s))) = _URL_file_path (self s).
Proof.
  intros [Hs Hf] Hne.
  assert (Hw : writable_path (env s) (_URL_file_path (self s))).
  { right. now exists (ledger_text rows). }
  destruct op as [URL|URL| |email| |password| ]; simpl.
  - destruct (decide (URL ∈ urls rows)) as [Hin|Hout].
    + rewrite (add_duplicate URL rows s Hs Hin). exists rows.
      split; [split|]; [exact Hs|exact Hf|reflexivity].
    + destruct (scraper_effect URL s) as ([latest|] & s' & E & F & _);
        destruct F as (F1 & F2 & _).
      * rewrite (add_fresh_spec URL rows s latest s' (ledger_text rows)
                   Hs Hout E (or_intror Hf)).
        exists (rows ++ [(URL, latest)]). cbn [snd].
        split; [split|]; [reflexivity| |simpl; now rewrite F1].
        simpl. rewrite F1, lookup_insert_eq. now rewrite ledger_text_snoc.
      * rewrite (add_absent_scrape URL rows s s' Hs Hout E). exists rows.
        cbn [snd]. split; [split|]; rewrite ?F1, ?F2; assumption || reflexivity.
  - destruct (decide (URL ∈ urls rows)) as [Hin|Hout].
    + destruct (first_occurrence URL rows Hin) as (pre & t & post & -> & Hpre).
      rewrite (delete_present URL t pre post s Hs Hpre).
      rewrite (persist_spec _ (pre ++ post)); [|reflexivity|exact Hw].
      exists (pre ++ post). cbn [snd].
      split; [split|]; [reflexivity| |reflexivity].
      simpl. apply lookup_insert_eq.
    + rewrite (delete_absent URL rows s Hs Hout). exists rows.
      split; [split|]; [exact Hs|exact Hf|reflexivity].
  - destruct rows as [|row rows].
    + exists []. unfold _webscrape_Check.
      rewrite (bind_Ret _ _ s (_url_data (self s)) s) by reflexivity.
      rewrite Hs. split; [split|]; [exact Hs|exact Hf|reflexivity].
    + destruct (check_run s (row :: rows) Hs ltac:(discriminate) Hw)
        as (outs & s1 & _ & F & C).
      destruct F as (F1 & F2 & _). rewrite C.
      destruct (updated_urls (row :: rows) outs) as [|u updated] eqn:Hu.
      * exists (row :: rows). rewrite (updated_none _ _ Hu). cbn [snd].
        split; [split|]; simpl; rewrite ?F1, ?F2; assumption || reflexivity.
      * destruct (send_Email_effect (u :: updated)
                    (persisted (apply_updates (row :: rows) outs)
                       (with_self (set_url_data
                          (ledger_of (apply_updates (row :: rows) outs))) s1)))
          as (s3 & mail & E3 & S1 & S2 & _).
        rewrite E3. exists (apply_updates (row :: rows) outs). cbn [snd].
        split; [split|]; rewrite ?S1, ?S2; simpl; rewrite ?F1;
          [reflexivity|apply lookup_insert_eq|reflexivity].
  - exists rows. rewrite setEmail_spec.
    destruct (open_error (env s) (_email_file_path (self s))); cbn [snd];
      (split; [split|]; [exact Hs| |reflexivity]); simpl; [exact Hf|].
    rewrite lookup_insert_ne by exact Hne. exact Hf.
  - exists rows. split; [split|]; [exact Hs|exact Hf|reflexivity].
  - exists rows. split; [split|]; [exact Hs|exact Hf|reflexivity].
  - exists rows. split; [split|]; [exact Hs|exact Hf|reflexivity].
Qed.

(** X8: when the ledger file is a writable file that holds exactly the
    text of the ledger in memory and the email file is another file,
    then after any public operation, whatever its outcome, the ledger
    file is still a writable file that holds exactly the text of the
    ledger in memory: the append of an add, the rewrite of a delete and
    the rewrite of a check keep file and memory in step, and a check
    that finds no update changes neither. *)
Theorem file_mirrors_memory (s : state) (rows : list (string * string))
                            (op : operation) :
  _url_data (self s) = ledger_of rows ->
  fs (env s) !! _URL_file_path (self s) = Some (File true (ledger_text rows)) ->
  _email_file_path (self s) <> _URL_file_path (self s) ->
  let s' := snd (run_op op s) in
  exists rows',
    _url_data (self s') = ledger_of rows'
    /\ fs (env s') !! _URL_file_path (self s')
       = Some (File true (ledger_text rows')).
Proof.
  intros Hs Hf Hne. cbv zeta.
  destruct (mirror_step s rows op (conj Hs Hf) Hne) as (rows' & [H1 H2] & _).
  now exists rows'.
Qed.

(** The sample installation with the text of its ledger in the file,
    after a check. *)
Lemma file_mirrors_memory_witness :
  let s' := snd (run_op CheckForUpdates Sample.state_mirrored) in
  exists rows',
    _url_data (self s') = ledger_of rows'
    /\ fs (env s') !! _URL_file_path (self s')
       = Some (File true (ledger_text rows')).
Proof.
  apply (file_mirrors_memory Sample.state_mirrored Sample.rows0 CheckForUpdates).
  - reflexivity.
  - reflexivity.
  - discriminate.
Defined.

(** X9: from a state whose ledger file is a writable file that holds
    exactly the text of the ledger in memory, the email file being
    another file, after any public operation loading the ledger file
    gives back exactly the ledger in memory, provided its URLs and
    tokens hold no carriage return and are within the reader's field
    size limit: what a restart would load is what the program had. *)
Theorem reload_after_operation (s : state) (rows : list (string * string))
                               (op : operation) :
  _url_data (self s) = ledger_of rows ->
  fs (env s) !! _URL_file_path (self s) = Some (File true (ledger_text rows)) ->
  _email_file_path (self s) <> _URL_file_path (self s) ->
  let s' := snd (run_op op s) in
  forall rows', _url_data (self s') = ledger_of rows' ->
                storable_rows rows' = true ->
                fst (_load_URL_Data s') = Ret (_url_data (self s')).
Proof.
  intros Hs Hf Hne. cbv zeta. intros rows' Hs' Hok.
  destruct (mirror_step s rows op (conj Hs Hf) Hne) as (rows'' & [M1 M2] & _).
  rewrite Hs' in M1. apply ledger_of_inj in M1. subst rows''.
  rewrite (load_spec _ rows' true M2 Hok). now rewrite Hs'.
Qed.

(** Reloading after a delete on that installation. *)
Lemma reload_after_operation_witness :
  fst (_load_URL_Data (snd (run_op (DeleteURL (Sample.wln "2"))
                              Sample.state_mirrored)))
  = Ret (_url_data (self (snd (run_op (DeleteURL (Sample.wln "2"))
                                 Sample.state_mirrored)))).
Proof.
  apply (reload_after_operation Sample.state_mirrored Sample.rows0
           (DeleteURL (Sample.wln "2"))
           eq_refl eq_refl ltac:(discriminate)
           [(Sample.wln "1", "5"); (Sample.wln "3", "9")]).
  - vm_compute. reflexivity.
  - vm_compute. reflexivity.
Defined.

(* ===================================================================== *)
(** ** Construction *)
(* ===================================================================== *)


Lemma load_content s writable content :
  fs (env s) !! _URL_file_path (self s) = Some (File writable content) ->
  _load_URL_Data s
  = (obind (Csv.reader_list (TextIO.readlines content))
           (fun records => Ret (DictCsv.DictReader records)),
     opened (_URL_file_path (self s)) ModeR s).
Proof.
  intros H. unfold _load_URL_Data.
  erewrite bind_Ret by reflexivity.
  rewrite (bind_Ret _ _ s content (opened (_URL_file_path (self s)) ModeR s)).
  2:{ unfold Files.read. run_monad. now rewrite H. }
  unfold bind, lift, ret.
  now destruct (Csv.reader_list (TextIO.readlines content)).
Qed.




(* ===================================================================== *)
(** ** Ledgers that are not well formed *)
(* ===================================================================== *)

(** X11: when the first dictionary of the ledger has no key "URL", as
    after loading a file whose header does not name that column, adding
    a URL and deleting a URL both raise [KeyError] to the caller and
    change nothing, and the check for updates reports its generic error
    without fetching any page. *)
Theorem missing_URL_key (s : state) (d : pydict) (data : list pydict)
                        (URL : string) :
  _url_data (self s) = d :: data ->
  items d !! "URL" = None ->
  addURLData URL s = (Raise (KeyError "URL"), s)
  /\ deleteURLData URL s = (Raise (KeyError "URL"), s)
  /\ _webscrape_Check s = (Ret tt, said msg_check s).
Proof.
  intros Hs Hd. split; [|split].
  - unfold addURLData.
    rewrite (bind_Ret _ _ s (_url_data (self s)) s) by reflexivity.
    rewrite Hs. cbn [add_scan].
    erewrite bind_Raise; [reflexivity|].
    erewrite bind_Raise; [reflexivity|].
    unfold getitem. now rewrite Hd.
  - unfold deleteURLData.
    rewrite (bind_Ret _ _ s (_url_data (self s)) s) by reflexivity.
    rewrite Hs. cbn [delete_scan]. change (FIELD_NAMES_at 0) with "URL".
    erewrite bind_Raise; [reflexivity|].
    unfold getitem. now rewrite Hd.
  - unfold _webscrape_Check.
    rewrite (bind_Ret _ _ s (_url_data (self s)) s) by reflexivity.
    rewrite Hs. unfold try_except.
    erewrite bind_Raise; [reflexivity|].
    unfold _compile_updated_URLS.
    rewrite (bind_Ret _ _ s (_url_data (self s)) s) by reflexivity.
    rewrite Hs. cbn [length compile_loop].
    change (FIELD_NAMES_at 0) with "URL".
    erewrite bind_Ret
      by (unfold url_data_at; erewrite bind_Ret by reflexivity;
          rewrite Hs; reflexivity).
    erewrite bind_Raise; [reflexivity|].
    unfold getitem. now rewrite Hd.
Qed.

(** The object loaded from a file under the header url,chapter. *)
Lemma missing_URL_key_witness :
  addURLData (Sample.wln "1") Sample.state_other_header
  = (Raise (KeyError "URL"), Sample.state_other_header)
  /\ deleteURLData (Sample.wln "1") Sample.state_other_header
     = (Raise (KeyError "URL"), Sample.state_other_header)
  /\ _webscrape_Check Sample.state_other_header
     = (Ret tt, said msg_check Sample.state_other_header).
Proof.
  apply (missing_URL_key Sample.state_other_header
           {| items := <["chapter" := Some "1"]> (<["url" := Some "x"]> ∅);
              rest := None |} []).
  - vm_compute. reflexivity.
  - reflexivity.
Defined.

(* ===================================================================== *)
(** ** Loading any file *)
(* ===================================================================== *)

Section ReaderTotal.
Import PyStr Csv CsvPass.

Lemma universal_newlines_shape l :
  (no_CR (TextIO.universal_newlines l)
   /\ length (TextIO.universal_newlines l) <= length l)
  /\ forall c,
       no_CR (TextIO.universal_newlines (c :: l))
       /\ length (TextIO.universal_newlines (c :: l)) <= S (length l).
Proof.
  unfold no_CR. induction l as [|d l [[IH1 IH2] IH3]].
  - split; [split; [reflexivity | simpl; lia]|].
    intros c. cbn [TextIO.universal_newlines].
    destruct (Ascii.eqb c CR) eqn:Hc; simpl; [split; [reflexivity|lia]|].
    rewrite Hc. simpl. split; [reflexivity|lia].
  - split; [apply IH3|].
    intros c. cbn [TextIO.universal_newlines].
    destruct (Ascii.eqb c CR) eqn:Hc.
    + destruct (Ascii.eqb d LF).
      * cbn [forallb length]. rewrite IH1. split; [reflexivity|lia].
      * destruct (IH3 d) as [H1 H2]. cbn [forallb length].
        cbn [TextIO.universal_newlines] in H1, H2. rewrite H1.
        split; [reflexivity|]. simpl in H2. lia.
    + destruct (IH3 d) as [H1 H2]. cbn [forallb length].
      cbn [TextIO.universal_newlines] in H1, H2. rewrite Hc, H1.
      split; [reflexivity|]. simpl in H2. lia.
Qed.

(** The parser takes the end-of-line marker in every state. *)
Lemma step_end_of_line r :
  exists r2, parse_process_char r None = Ret r2
             /\ state r2 <> EAT_CRNL
             /\ length (field r2) <= length (field r).
Proof.
  destruct r as [st fs f]. unfold parse_process_char, start_field.
  destruct st; cbn [state]; eexists; (split; [reflexivity|]);
    cbn [state field set_state parse_save_field length];
    (split; [discriminate | lia]).
Qed.

(** The parser takes every character but a carriage return while the
    field has room, and only a line feed leads to [EAT_CRNL]. *)
Lemma step_any_char r c :
  Ascii.eqb c CR = false ->
  state r <> EAT_CRNL ->
  (N.of_nat (length (field r)) < field_limit)%N ->
  exists r1, parse_process_char r (Some c) = Ret r1
             /\ length (field r1) <= S (length (field r))
             /\ (Ascii.eqb c LF = false -> state r1 <> EAT_CRNL).
Proof.
  intros Hc Hst Hl. destruct r as [st fs f]. cbn [state field] in *.
  pose proof (fun st' => add_char_ok st' fs f c Hl) as Hadd.
  unfold parse_process_char, start_field, is_newline. cbn [state].
  rewrite Hc, orb_false_r.
  destruct st; try congruence;
    destruct (Ascii.eqb c LF) eqn:Hlf;
    destruct (Ascii.eqb c quotechar) eqn:Hq;
    destruct (Ascii.eqb c delimiter) eqn:Hd;
    rewrite ?Hadd; cbn [obind];
    eexists; (split; [reflexivity|]);
    cbn [state field set_state parse_save_field length];
    rewrite ?length_app; simpl;
    (split; [lia | intros; congruence]).
Qed.

Lemma at_end_returns r : returns (at_end r).
Proof. unfold at_end. destruct (_ || _); eexists; reflexivity. Qed.

(** On a text without carriage return that fits in one field whatever
    it holds, the reader returns. *)
Lemma run_returns text : forall r mid,
  no_CR text ->
  state r <> EAT_CRNL ->
  (N.of_nat (length (field r) + length text) <= field_limit)%N ->
  returns (run mid r text).
Proof.
  unfold no_CR. induction text as [|c text IH]; intros r mid Hcr Hst Hl.
  - cbn [run]. destruct mid; [|apply at_end_returns].
    destruct (step_end_of_line r) as (r2 & E & _). rewrite E. cbn [obind].
    destruct (parser_state_eqb (state r2) START_RECORD);
      [eexists; reflexivity | apply at_end_returns].
  - cbn [forallb] in Hcr. apply andb_true_iff in Hcr as [Hc Hcr].
    apply negb_true_iff in Hc. cbn [length] in Hl.
    destruct (step_any_char r c Hc Hst ltac:(lia)) as (r1 & E1 & L1 & S1).
    cbn [run]. rewrite E1. cbn [obind].
    destruct (Ascii.eqb c LF).
    + destruct (step_end_of_line r1) as (r2 & E2 & S2 & L2). rewrite E2.
      cbn [obind].
      destruct (parser_state_eqb (state r2) START_RECORD).
      * destruct (IH parse_reset false Hcr) as [rows Hrows];
          [discriminate|simpl; lia|].
        rewrite Hrows. eexists. reflexivity.
      * apply IH; [exact Hcr|exact S2|lia].
    + apply IH; [exact Hcr|now apply S1|lia].
Qed.

Lemma to_list_length (a : string) : length (to_list a) = String.length a.
Proof. induction a as [|c a IH]; simpl; [reflexivity | now rewrite IH]. Qed.

End ReaderTotal.

(** X12: loading accepts any text.  Whatever a readable ledger file of
    at most 131072 characters holds, a well-formed ledger or not,
    [_load_URL_Data] returns a list of dictionaries and raises nothing;
    a missing file raises [FileNotFoundError] and a directory at the
    path [IsADirectoryError]. *)
Theorem load_accepts_any_text (s : state) :
  (forall writable content,
     fs (env s) !! _URL_file_path (self s) = Some (File writable content) ->
     (N.of_nat (String.length content) <= Csv.field_limit)%N ->
     exists data,
       _load_URL_Data s
       = (Ret data, opened (_URL_file_path (self s)) ModeR s))
  /\ (fs (env s) !! _URL_file_path (self s) = None ->
      fst (_load_URL_Data s) = Raise (FileNotFoundError (_URL_file_path (self s))))
  /\ (fs (env s) !! _URL_file_path (self s) = Some Dir ->
      fst (_load_URL_Data s)
      = Raise (IsADirectoryError (_URL_file_path (self s)))).
Proof.
  split; [|split].
  - intros writable content Hf Hl.
    rewrite (load_content s writable content Hf).
    unfold Csv.reader_list, TextIO.readlines.
    rewrite (proj1 (run_lines _)).
    destruct (universal_newlines_shape (PyStr.to_list content)) as [[H1 H2] _].
    rewrite to_list_length in H2.
    destruct (run_returns _ Csv.parse_reset false H1) as [rows Hrows].
    + discriminate.
    + simpl. lia.
    + rewrite Hrows. eexists. reflexivity.
  - intros Hf. unfold _load_URL_Data, Files.read. run_monad. now rewrite Hf.
  - intros Hf. unfold _load_URL_Data, Files.read. run_monad. now rewrite Hf.
Qed.

(** The ledger file of the sample installation, and the installation
    without that file. *)
Lemma load_accepts_any_text_witness :
  (exists data,
     _load_URL_Data Sample.state0
     = (Ret data, opened (_URL_file_path (self Sample.state0)) ModeR
                    Sample.state0))
  /\ fst (_load_URL_Data Sample.state_no_file)
     = Raise (FileNotFoundError (_URL_file_path (self Sample.state_no_file))).
Proof.
  split.
  - refine (proj1 (load_accepts_any_text Sample.state0) true header_line _ _).
    + reflexivity.
    + vm_compute. discriminate.
  - refine (proj1 (proj2 (load_accepts_any_text Sample.state_no_file)) _).
    reflexivity.
Defined.

(* ===================================================================== *)
(** ** The email address *)
(* ===================================================================== *)

(** X13: [setEmail] changes the address in memory before it opens the
    file.  When the file can be written, the file then holds exactly the
    new address, whatever it held; when opening it fails, the exception
    reaches the caller, the file is as before, and [getEmail] returns
    the new address all the same: memory and file disagree.  The ledger
    and the password are untouched either way. *)
Theorem setEmail_outcomes (email : string) (s : state) :
  let s' := snd (setEmail email s) in
  let path := _email_file_path (self s) in
  fst (getEmail s') = Ret email
  /\ _url_data (self s') = _url_data (self s)
  /\ _password (self s') = _password (self s)
  /\ (open_error (env s) path = None ->
      fst (setEmail email s) = Ret tt
      /\ fs (env s') = <[path := File true email]> (fs (env s)))
  /\ (forall e, open_error (env s) path = Some e ->
      fst (setEmail email s) = Raise e
      /\ fs (env s') = fs (env s)).
Proof.
  cbv zeta. rewrite setEmail_spec.
  destruct (open_error (env s) (_email_file_path (self s))) as [e|];
    cbn [fst snd].
  - split; [reflexivity|]. split; [reflexivity|]. split; [reflexivity|].
    split; [discriminate|]. intros e' [= <-]. split; reflexivity.
  - split; [reflexivity|]. split; [reflexivity|]. split; [reflexivity|].
    split; [|discriminate]. intros _. split; reflexivity.
Qed.

(** A new address on the sample installation, and on the installation
    whose files are read-only. *)
Lemma setEmail_outcomes_witness :
  (fst (setEmail "other@example.org" Sample.state0) = Ret tt
   /\ fs (env (snd (setEmail "other@example.org" Sample.state0)))
      = <[_email_file_path (self Sample.state0)
          := File true "other@example.org"]> (fs (env Sample.state0)))
  /\ (fst (setEmail "other@example.org" Sample.state_ro)
      = Raise (PermissionError Sample.email_path)
      /\ fs (env (snd (setEmail "other@example.org" Sample.state_ro)))
         = fs (env Sample.state_ro)).
Proof.
  split.
  - refine (proj1 (proj2 (proj2 (proj2
              (setEmail_outcomes "other@example.org" Sample.state0)))) _).
    reflexivity.
  - refine (proj2 (proj2 (proj2 (proj2
              (setEmail_outcomes "other@example.org" Sample.state_ro))))
              (PermissionError Sample.email_path) _).
    reflexivity.
Defined.

(* ===================================================================== *)
(** ** Tokens over the checks *)
(* ===================================================================== *)

Lemma lt_irrefl (a : string) : PyStr.lt a a = false.
Proof.
  unfold PyStr.lt, String.ltb.
  pose proof (String.compare_antisym a a) as H.
  destruct (String.compare a a); try reflexivity; discriminate.
Qed.

Lemma apply_updates_not_lowered rows : forall outs,
  Forall2 not_lowered rows (apply_updates rows outs).
Proof.
  assert (Hrefl : forall l, Forall2 not_lowered l l).
  { induction l; constructor; [split; [reflexivity | now left] | assumption]. }
  induction rows as [|row rows IH]; intros [|o outs]; cbn [apply_updates];
    try apply Hrefl.
  constructor; [|apply IH].
  unfold not_lowered, checked. destruct o as [latest|]; [|split; [reflexivity|now left]].
  destruct (PyStr.lt (snd row) latest) eqn:Hlt; simpl;
    [split; [reflexivity | now right] | split; [reflexivity | now left]].
Qed.

(** The ledger after a check, whatever became of the write and of the
    mail. *)
Lemma check_ledger_exact s rows :
  _url_data (self s) = ledger_of rows ->
  exists outs,
    _url_data (self (snd (_webscrape_Check s)))
    = ledger_of (apply_updates rows outs).
Proof.
  intros Hs. unfold _webscrape_Check.
  rewrite (bind_Ret _ _ s (_url_data (self s)) s) by reflexivity.
  rewrite Hs. destruct rows as [|row rows].
  - exists []. exact Hs.
  - cbn [ledger_of map]. fold (ledger_of rows).
    destruct (compile_spec s (row :: rows) Hs) as (outs & s1 & _ & _ & _ & C).
    exists outs.
    unfold try_except, bind at 1. rewrite C.
    set (s2 := with_self _ s1).
    set (tail := match updated_urls (row :: rows) outs with
                 | [] => ret tt
                 | _ :: _ => _
                 end).
    assert (P : preserves (fun o : model => o) tail).
    { subst tail. destruct (updated_urls (row :: rows) outs).
      - apply preserves_ret.
      - apply preserves_bind;
          [apply preserves_write_URL_data_to_file
          |intros ?; apply preserves_send_Email]. }
    specialize (P s2). destruct (tail s2) as [[[]|e] s3]; simpl in *;
      now rewrite P.
Qed.

(** X14: a check for updates never lowers a stored token: after it,
    whether the write and the mail went through or not, the ledger holds
    the same URLs in the same order, and each token is the one stored
    before or a strictly greater one. *)
Theorem check_never_lowers_a_token (s : state) (rows : list (string * string)) :
  _url_data (self s) = ledger_of rows ->
  exists rows',
    _url_data (self (snd (_webscrape_Check s))) = ledger_of rows'
    /\ Forall2 not_lowered rows rows'.
Proof.
  intros Hs. destruct (check_ledger_exact s rows Hs) as (outs & E).
  exists (apply_updates rows outs). split; [exact E|].
  apply apply_updates_not_lowered.
Qed.

(** Tokens after the sample check. *)
Lemma check_never_lowers_a_token_witness :
  exists rows',
    _url_data (self (snd (_webscrape_Check Sample.state0))) = ledger_of rows'
    /\ Forall2 not_lowered Sample.rows0 rows'.
Proof.
  apply (check_never_lowers_a_token Sample.state0 Sample.rows0). reflexivity.
Defined.

Lemma updated_urls_again rows : forall outs,
  updated_urls (apply_updates rows outs) outs = [].
Proof.
  induction rows as [|row rows IH]; intros [|o outs]; try reflexivity.
  cbn [apply_updates updated_urls]. rewrite IH, app_nil_r.
  unfold checked, is_update. destruct o as [latest|]; [|reflexivity].
  destruct (PyStr.lt (snd row) latest) eqn:Hlt; simpl;
    [now rewrite lt_irrefl | now rewrite Hlt].
Qed.

(** X15: a check is quiet when the site has nothing new.  If the ledger
    is the outcome of applying the update rule to some scraped tokens
    and the scraper delivers those same tokens, the check returns having
    only scraped: no token changes, no file is opened and no mail is
    sent. *)
Theorem check_again_is_quiet (s s1 : state) (rows : list (string * string))
                             (outs : list (option string)) :
  _url_data (self s) = ledger_of (apply_updates rows outs) ->
  scrape_all (urls rows) s = (Ret outs, s1) ->
  _webscrape_Check s = (Ret tt, s1)
  /\ self s1 = self s /\ fs (env s1) = fs (env s)
  /\ exists evs, trace (env s1) = trace (env s) ++ evs
                 /\ Forall is_scrape_event evs.
Proof.
  intros Hs E.
  destruct (compile_spec s (apply_updates rows outs) Hs)
    as (outs' & s1' & E' & _ & F & C).
  rewrite urls_apply_updates, E in E'. injection E' as <- <-.
  destruct F as (F1 & F2 & _ & _ & F5).
  split; [|split; [exact F1|split; [exact F2|exact F5]]].
  rewrite updated_urls_again in C.
  rewrite (updated_none _ _ (updated_urls_again rows outs)) in C.
  rewrite with_self_url_data_id in C by now rewrite F1.
  unfold _webscrape_Check.
  rewrite (bind_Ret _ _ s (_url_data (self s)) s) by reflexivity.
  destruct (_url_data (self s)) as [|d data] eqn:Hd.
  - unfold _compile_updated_URLS in C.
    rewrite (bind_Ret _ _ s (_url_data (self s)) s) in C by reflexivity.
    rewrite Hd in C. cbn [length compile_loop] in C. unfold ret in *.
    congruence.
  - unfold try_except, bind. now rewrite C.
Qed.

(** A second check on the sample installation, the site unchanged. *)
Lemma check_again_is_quiet_witness :
  let s := snd (_webscrape_Check Sample.state0) in
  _webscrape_Check s = (Ret tt, snd (scrape_all (urls Sample.rows0) s))
  /\ self (snd (scrape_all (urls Sample.rows0) s)) = self s
  /\ fs (env (snd (scrape_all (urls Sample.rows0) s))) = fs (env s)
  /\ exists evs,
       trace (env (snd (scrape_all (urls Sample.rows0) s)))
       = trace (env s) ++ evs
       /\ Forall is_scrape_event evs.
Proof.
  apply (check_again_is_quiet _ _ Sample.rows0
           [Some "6"; Some "3"; Some "10"]).
  - vm_compute. reflexivity.
  - vm_compute. reflexivity.
Defined.

(* ===================================================================== *)
(** ** Adding, then deleting *)
(* ===================================================================== *)

(** X16: deleting a URL right after it was added brings the ledger in
    memory back to what it was, and leaves the ledger file holding the
    text of that ledger, whatever the file held before the add. *)
Theorem add_then_delete (s : state) (rows : list (string * string))
                        (URL latest old : string) :
  _url_data (self s) = ledger_of rows ->
  URL ∉ urls rows ->
  fst (_get_Latest_Chapter_URL_Filtered URL s) = Ret (Some latest) ->
  appendable (env s) (_URL_file_path (self s)) old ->
  let s1 := snd (addURLData URL s) in
  let s2 := snd (deleteURLData URL s1) in
  fst (deleteURLData URL s1) = Ret tt
  /\ _url_data (self s2) = _url_data (self s)
  /\ fs (env s2) !! _URL_file_path (self s) = Some (File true (ledger_text rows)).
Proof.
  intros Hs H E Ha. cbv zeta.
  destruct (scraper_effect URL s) as (o & s' & E1 & F & _).
  rewrite E1 in E. simpl in E. injection E as ->.
  rewrite (add_fresh_spec URL rows s latest s' old Hs H E1 Ha). cbn [snd].
  destruct F as (F1 & F2 & _).
  set (s1 := stored _ _ _).
  assert (Hs1 : _url_data (self s1) = ledger_of (rows ++ (URL, latest) :: []))
    by reflexivity.
  rewrite (delete_present URL latest rows [] s1 Hs1 H).
  rewrite (persist_spec _ (rows ++ [])); [|reflexivity|].
  - cbn [fst snd]. rewrite app_nil_r.
    split; [reflexivity|]. split; [simpl; now rewrite Hs|].
    simpl. rewrite F1. apply lookup_insert_eq.
  - right. exists (old +:+ row_line (URL, latest)).
    subst s1. simpl. rewrite F1. apply lookup_insert_eq.
Qed.

(** A fourth series added to the sample ledger and deleted again. *)
Lemma add_then_delete_witness :
  let s := with_env (fun w => {| fs := fs w;
                                 web := fun _ _ => Some (Sample.page_of "7");
                                 smtp := smtp w; clock := clock w;
                                 trace := trace w |}) Sample.state0 in
  let s1 := snd (addURLData (Sample.wln "4") s) in
  let s2 := snd (deleteURLData (Sample.wln "4") s1) in
  fst (deleteURLData (Sample.wln "4") s1) = Ret tt
  /\ _url_data (self s2) = _url_data (self s)
  /\ fs (env s2) !! _URL_file_path (self s)
     = Some (File true (ledger_text Sample.rows0)).
Proof.
  apply (add_then_delete _ Sample.rows0 (Sample.wln "4") "7" header_line).
  - reflexivity.
  - vm_compute. intros H.
    repeat (apply elem_of_cons in H as [H|H]; [discriminate|]). inversion H.
  - reflexivity.
  - right. reflexivity.
Defined.

(* ===================================================================== *)
(** ** Replacing the ledger *)
(* ===================================================================== *)

(** X17: [_set_URL_data] replaces the ledger in memory before it writes
    the file, so [_get_URL_data] returns the new ledger whatever became
    of the write.  With a ledger of well-formed records and a file that
    can be written, the file then holds the text of the new ledger,
    whatever it held; when opening the file fails, the exception reaches
    the caller and the files are as before, the memory already
    changed. *)
Theorem set_URL_data_outcomes (URL_data : list pydict) (s : state) :
  let s' := snd (_set_URL_data URL_data s) in
  let path := _URL_file_path (self s) in
  fst (_get_URL_data s') = Ret URL_data
  /\ (forall rows, URL_data = ledger_of rows ->
      writable_path (env s) path ->
      fst (_set_URL_data URL_data s) = Ret tt /\ mirrored s' rows)
  /\ (forall e, open_error (env s) path = Some e ->
      fst (_set_URL_data URL_data s) = Raise e
      /\ fs (env s') = fs (env s)).
Proof.
  cbv zeta. unfold _set_URL_data.
  rewrite (bind_Ret _ _ s tt (with_self (set_url_data URL_data) s))
    by reflexivity.
  set (s0 := with_self (set_url_data URL_data) s).
  split; [|split].
  - unfold _get_URL_data, gets. cbn [fst].
    now rewrite (preserves_write_URL_data_to_file _url_data s0).
  - intros rows -> Hw.
    rewrite (persist_spec s0 rows); [|reflexivity|exact Hw].
    cbn [fst snd]. split; [reflexivity|]. split; [reflexivity|].
    simpl. apply lookup_insert_eq.
  - intros e He. unfold _write_URL_data_to_file.
    rewrite (bind_Ret _ _ s0 (_URL_file_path (self s0)) s0) by reflexivity.
    erewrite bind_Raise by (apply Files_open_w_error; exact He).
    split; reflexivity.
Qed.

(** The sample ledger set on the sample installation, and on the
    installation whose files are read-only. *)
Lemma set_URL_data_outcomes_witness :
  (fst (_set_URL_data (ledger_of Sample.rows0) Sample.state0) = Ret tt
   /\ mirrored (snd (_set_URL_data (ledger_of Sample.rows0) Sample.state0))
               Sample.rows0)
  /\ (fst (_set_URL_data (ledger_of Sample.rows0) Sample.state_ro)
      = Raise (PermissionError Sample.URL_path)
      /\ fs (env (snd (_set_URL_data (ledger_of Sample.rows0) Sample.state_ro)))
         = fs (env Sample.state_ro)).
Proof.
  split.
  - refine (proj1 (proj2 (set_URL_data_outcomes (ledger_of Sample.rows0)
                            Sample.state0)) Sample.rows0 eq_refl _).
    right. exists header_line. reflexivity.
  - refine (proj2 (proj2 (set_URL_data_outcomes (ledger_of Sample.rows0)
                            Sample.state_ro))
              (PermissionError Sample.URL_path) _).
    reflexivity.
Defined.

(* ===================================================================== *)
(** ** A record without a token *)
(* ===================================================================== *)

(** The loop of the update check over well-formed records that are
    followed by any dictionaries: it scrapes their URLs, applies the
    update rule to them and goes on with the rounds that are left. *)
Lemma compile_loop_prefix todo : forall done acc rest n s,
  _url_data (self s) = ledger_of (done ++ todo) ++ rest ->
  exists outs s1,
    scrape_all (urls todo) s = (Ret outs, s1)
    /\ only_scraped s s1
    /\ compile_loop (length todo + n) (length done) acc s
       = compile_loop n (length done + length todo)
           (acc ++ updated_urls todo outs)
           (with_self
              (set_url_data (ledger_of (done ++ apply_updates todo outs) ++ rest))
              s1).
Proof.
  induction todo as [|[u t] todo IH]; intros done acc rest n s Hs.
  - exists [], s. split; [reflexivity|]. split; [apply only_scraped_refl|].
    simpl. rewrite !app_nil_r, Nat.add_0_r.
    rewrite app_nil_r in Hs. now rewrite with_self_url_data_id.
  - destruct (scraper_effect u s) as (o & s' & E & F & _).
    pose proof F as (Fself & _).
    destruct (scrape_all_effect (urls todo) s') as (outs & s1 & E1 & L1 & F1).
    exists (o :: outs), s1.
    split; [simpl; unfold bind; now rewrite E, E1|].
    split; [eapply only_scraped_trans; eassumption|].
    cbn [length Nat.add compile_loop]. unfold bind at 1.
    unfold url_data_at, bind at 1, gets at 1. rewrite Hs.
    rewrite lookup_app_l
      by (rewrite ledger_of_length, length_app; simpl; lia).
    rewrite (ledger_lookup_middle done (u, t) todo). cbn [fst snd ret].
    change (FIELD_NAMES_at 0) with "URL".
    change (FIELD_NAMES_at 1) with "latestChapter".
    unfold bind at 1, getitem at 1. rewrite record_URL. cbn [ret].
    unfold bind at 1, as_str at 1. cbn [ret].
    unfold bind at 1. rewrite E.
    assert (Hdone : forall row, length (done ++ [row]) = S (length done)).
    { intros row. rewrite length_app. simpl. lia. }
    assert (Hnext : length done + S (length todo)
                    = S (length done) + length todo) by lia.
    destruct o as [latest|].
    + unfold bind at 1, getitem at 1. rewrite record_latestChapter. cbn [ret].
      unfold bind at 1, as_str at 1. cbn [ret].
      cbn [updated_urls apply_updates checked is_update fst snd].
      destruct (PyStr.lt t latest) eqn:Hlt.
      * unfold bind at 1, modify at 1. rewrite record_setitem.
        assert (Hs'' : with_self (fun m : model =>
                           set_url_data
                             (<[length done := record u latest]> (_url_data m)) m)
                         s'
                       = with_self (set_url_data
                                      (ledger_of (done ++ (u, latest) :: todo)
                                       ++ rest))
                                   s').
        { unfold with_self. rewrite Fself, Hs.
          rewrite insert_app_l
            by (rewrite ledger_of_length, length_app; simpl; lia).
          now rewrite (ledger_insert_middle done (u, t) u latest todo). }
        rewrite Hs''. clear Hs''.
        set (s'' := with_self _ s').
        destruct (IH (done ++ [(u, latest)]) (acc ++ [u]) rest n s'')
          as (outs' & s1' & E1' & _ & C).
        { subst s''. simpl. now rewrite <- app_assoc. }
        rewrite Hdone in C. rewrite C.
        subst s''. rewrite scrape_all_with_self, E1 in E1'. simpl in E1'.
        injection E1' as <- <-.
        rewrite <- !app_assoc, Hnext. reflexivity.
      * destruct (IH (done ++ [(u, t)]) acc rest n s')
          as (outs' & s1' & E1' & _ & C).
        { rewrite Fself, Hs. now rewrite <- app_assoc. }
        rewrite Hdone in C. rewrite C.
        rewrite E1 in E1'. injection E1' as <- <-.
        rewrite <- !app_assoc, Hnext. reflexivity.
    + cbn [updated_urls apply_updates checked is_update fst snd].
      destruct (IH (done ++ [(u, t)]) acc rest n s')
        as (outs' & s1' & E1' & _ & C).
      { rewrite Fself, Hs. now rewrite <- app_assoc. }
      rewrite Hdone in C. rewrite C.
      rewrite E1 in E1'. injection E1' as <- <-.
      rewrite <- !app_assoc, Hnext. reflexivity.
Qed.

(** X18: a record without a token stops the check.  When the ledger
    holds, after well-formed records, a dictionary whose token is
    [None] (the reader makes one from a line with a URL and nothing
    else) and the scrape of its URL gives a token, the comparison raises
    and the check ends with its generic error: the records after it are
    not checked, the updates found before it stay in memory, and
    neither is the file written nor a mail sent. *)
Theorem check_stops_at_tokenless_row (s s1 s2 : state)
    (pre : list (string * string)) (bad : pydict) (post : list pydict)
    (URL latest : string) (outs : list (option string)) :
  _url_data (self s) = ledger_of pre ++ bad :: post ->
  items bad !! "URL" = Some (Some URL) ->
  items bad !! "latestChapter" = Some None ->
  scrape_all (urls pre) s = (Ret outs, s1) ->
  _get_Latest_Chapter_URL_Filtered URL s1 = (Ret (Some latest), s2) ->
  let s' := snd (_webscrape_Check s) in
  fst (_webscrape_Check s) = Ret tt
  /\ _url_data (self s')
     = ledger_of (apply_updates pre outs) ++ bad :: post
  /\ fs (env s') = fs (env s)
  /\ trace (env s') = trace (env s2) ++ [Message msg_check]
  /\ exists evs, trace (env s2) = trace (env s) ++ evs
                 /\ Forall is_scrape_event evs.
Proof.
  intros Hs HU HT E1 E2. cbv zeta.
  destruct (compile_loop_prefix pre [] [] (bad :: post) (S (length post)) s Hs)
    as (outs' & s1' & E1' & F1 & C).
  rewrite E1 in E1'. injection E1' as <- <-.
  destruct (scraper_effect URL s1) as (o & s2' & E2' & F2 & _).
  rewrite E2 in E2'. injection E2' as <- <-.
  pose proof (only_scraped_trans _ _ _ F1 F2) as (G1 & G2 & _ & _ & G5).
  destruct F2 as (F2 & _).
  set (data' := ledger_of (apply_updates pre outs) ++ bad :: post).
  assert (R : _webscrape_Check s
              = (Ret tt, said msg_check (with_self (set_url_data data') s2))).
  { unfold _webscrape_Check.
    rewrite (bind_Ret _ _ s (_url_data (self s)) s) by reflexivity.
    destruct (_url_data (self s)) as [|d data] eqn:Hd.
    { now apply app_cons_not_nil in Hs. }
    unfold try_except, bind at 1, _compile_updated_URLS.
    rewrite (bind_Ret _ _ s (_url_data (self s)) s) by reflexivity.
    rewrite Hd, Hs, length_app, ledger_of_length. cbn [length].
    change (@length (string * string) []) with 0 in C.
    cbn [app] in C. rewrite C. clear C.
    cbn [Nat.add compile_loop]. fold data'.
    set (s1' := with_self (set_url_data data') s1).
    assert (Hat : url_data_at (length pre) s1' = (Ret bad, s1')).
    { unfold url_data_at, bind, gets. subst s1' data'. simpl.
      rewrite list_lookup_middle
        by now rewrite ledger_of_length, apply_updates_length.
      reflexivity. }
    rewrite (bind_Ret _ _ s1' bad s1') by exact Hat.
    change (FIELD_NAMES_at 0) with "URL".
    change (FIELD_NAMES_at 1) with "latestChapter".
    rewrite (bind_Ret _ _ s1' (Some URL) s1')
      by (unfold getitem; now rewrite HU).
    rewrite (bind_Ret _ _ s1' URL s1') by reflexivity.
    rewrite (bind_Ret _ _ s1' (Some latest) (with_self (set_url_data data') s2))
      by (subst s1'; now rewrite scraper_with_self, E2).
    erewrite bind_Ret by (unfold getitem; rewrite HT; reflexivity).
    erewrite bind_Raise by reflexivity.
    reflexivity. }
  rewrite R. cbn [fst snd].
  split; [reflexivity|]. split; [reflexivity|].
  split; [simpl; exact G2|]. split; [reflexivity|exact G5].
Qed.

(** The ledger loaded from a file whose second line has a URL only:
    the update of the first record stays in memory, the file keeps the
    old token. *)
Lemma check_stops_at_tokenless_row_witness :
  let s := Sample.state_short_row in
  let s1 := snd (scrape_all [Sample.wln "1"] s) in
  let s2 := snd (_get_Latest_Chapter_URL_Filtered (Sample.wln "2") s1) in
  let s' := snd (_webscrape_Check s) in
  fst (_webscrape_Check s) = Ret tt
  /\ _url_data (self s')
     = ledger_of (apply_updates [(Sample.wln "1", "5")] [Some "6"])
       ++ Sample.short_row :: ledger_of [(Sample.wln "3", "9")]
  /\ fs (env s') = fs (env s)
  /\ trace (env s') = trace (env s2) ++ [Message msg_check]
  /\ exists evs, trace (env s2) = trace (env s) ++ evs
                 /\ Forall is_scrape_event evs.
Proof.
  apply (check_stops_at_tokenless_row Sample.state_short_row
           (snd (scrape_all [Sample.wln "1"] Sample.state_short_row)) _
           [(Sample.wln "1", "5")] Sample.short_row
           (ledger_of [(Sample.wln "3", "9")]) (Sample.wln "2") "3"
           [Some "6"]).
  - vm_compute. reflexivity.
  - reflexivity.
  - reflexivity.
  - vm_compute. reflexivity.
  - vm_compute. reflexivity.
Defined.

(* ===================================================================== *)
(** ** What an operation may do outside *)
(* ===================================================================== *)

Section Footprint.
Context (I : model -> Prop) (P : event -> Prop) (W : option string).

Lemma within_refl s : I (self s) -> within I P W s s.
Proof.
  intros H. split; [exact H|]. split; [|reflexivity].
  exists []. split; [now rewrite app_nil_r | constructor].
Qed.

Lemma within_trans s1 s2 s3 :
  within I P W s1 s2 -> within I P W s2 s3 -> within I P W s1 s3.
Proof.
  intros (_ & (e1 & A1 & A2) & A3) (B0 & (e2 & B1 & B2) & B3).
  split; [exact B0|]. split.
  - exists (e1 ++ e2). split; [now rewrite B1, A1, app_assoc|].
    apply Forall_app; split; assumption.
  - intros p Hp. now rewrite B3, A3.
Qed.

Lemma footprint_ret {B} (b : B) : footprint I P W (ret b).
Proof. intros s. apply within_refl. Qed.

Lemma footprint_raise {B} e : footprint I P W (@raise B e).
Proof. intros s. apply within_refl. Qed.

Lemma footprint_gets {B} (f : state -> B) : footprint I P W (gets f).
Proof. intros s. apply within_refl. Qed.

Lemma footprint_lift {B} (o : outcome B) : footprint I P W (lift o).
Proof. intros s. apply within_refl. Qed.

Lemma footprint_tick : footprint I P W (modify (with_env tick)).
Proof. intros s H. apply (within_refl s H). Qed.

Lemma footprint_log e : P e -> footprint I P W (log e).
Proof.
  intros He s H. split; [exact H|]. split; [|reflexivity].
  exists [e]. split; [reflexivity | now repeat constructor].
Qed.

Lemma footprint_modify_self f :
  (forall o, I o -> I (f o)) -> footprint I P W (modify (with_self f)).
Proof.
  intros Hf s H. split; [now apply Hf|]. split; [|reflexivity].
  exists []. split; [simpl; now rewrite app_nil_r | constructor].
Qed.

Lemma footprint_bind {B C} (m : M B) (k : B -> M C) :
  footprint I P W m -> (forall b, footprint I P W (k b)) ->
  footprint I P W (bind m k).
Proof.
  intros Hm Hk s H. unfold bind. specialize (Hm s H).
  destruct (m s) as [[b|e] s']; simpl in *; [|exact Hm].
  eapply within_trans; [exact Hm|]. apply Hk. apply Hm.
Qed.

(** The continuation of a read of the state is run in that state. *)
Lemma footprint_bind_gets {B C} (f : state -> B) (k : B -> M C) :
  (forall s, I (self s) -> within I P W s (snd (k (f s) s))) ->
  footprint I P W (bind (gets f) k).
Proof. intros H s HI. apply (H s HI). Qed.

Lemma footprint_try_except {B} (m handler : M B) :
  footprint I P W m -> footprint I P W handler ->
  footprint I P W (try_except m handler).
Proof.
  intros Hm Hh s H. unfold try_except. specialize (Hm s H).
  destruct (m s) as [[b|e] s']; simpl in *; [exact Hm|].
  eapply within_trans; [exact Hm|]. apply Hh. apply Hm.
Qed.

Lemma footprint_message_box text :
  (forall t, P (Message t)) -> footprint I P W (_message_box text).
Proof. intros H. apply footprint_log, H. Qed.

(** Opening a file changes the file at its path at most. *)
Lemma within_set_fs s path n :
  I (self s) -> W = Some path ->
  within I P W s (with_env (set_fs (<[path := n]> (fs (env s)))) s).
Proof.
  intros H HW. split; [exact H|]. split.
  - exists []. split; [simpl; now rewrite app_nil_r | constructor].
  - intros p Hp. simpl. apply lookup_insert_ne. congruence.
Qed.

Lemma footprint_Files_open_w path :
  P (FileOpen path ModeW) -> W = Some path ->
  footprint I P W (Files.open_w path).
Proof.
  intros HP HW. unfold Files.open_w.
  apply footprint_bind; [now apply footprint_log|]. intros _.
  apply footprint_bind_gets. intros s H.
  destruct (fs (env s) !! path) as [[[|] content|]|];
    try (apply within_refl; exact H); now apply within_set_fs.
Qed.

Lemma footprint_Files_open_a path :
  P (FileOpen path ModeA) -> W = Some path ->
  footprint I P W (Files.open_a path).
Proof.
  intros HP HW. unfold Files.open_a.
  apply footprint_bind; [now apply footprint_log|]. intros _.
  apply footprint_bind_gets. intros s H.
  destruct (fs (env s) !! path) as [[[|] content|]|];
    try (apply within_refl; exact H); now apply within_set_fs.
Qed.

Lemma footprint_Files_write path text :
  W = Some path -> footprint I P W (Files.write path text).
Proof.
  intros HW s H. unfold Files.write, modify. cbn [snd].
  unfold with_env. simpl.
  destruct (fs (env s) !! path) as [[writable content|]|] eqn:Hf;
    try (destruct s as [o w]; destruct w; apply within_refl; exact H).
  now apply within_set_fs.
Qed.

Lemma footprint_write_rows path data :
  W = Some path -> footprint I P W (write_rows path data).
Proof.
  intros HW. induction data as [|dict_ data IH]; cbn [write_rows].
  - apply footprint_ret.
  - apply footprint_bind; [apply footprint_lift|]. intros line.
    apply footprint_bind; [now apply footprint_Files_write|]. intros _.
    exact IH.
Qed.

Lemma footprint_write_URL_data_to_file path :
  (forall o, I o -> _URL_file_path o = path) ->
  P (FileOpen path ModeW) -> W = Some path ->
  footprint I P W _write_URL_data_to_file.
Proof.
  intros HI HP HW. unfold _write_URL_data_to_file.
  apply footprint_bind_gets. intros s H. rewrite (HI _ H).
  refine (footprint_bind _ _ _ _ s H);
    [now apply footprint_Files_open_w|]. intros _.
  apply footprint_bind; [now apply footprint_Files_write|]. intros _.
  apply footprint_bind; [apply footprint_gets|]. intros data.
  now apply footprint_write_rows.
Qed.

Lemma footprint_scraper URL :
  P (HttpGet URL) -> (forall t, P (Message t)) ->
  footprint I P W (_get_Latest_Chapter_URL_Filtered URL).
Proof.
  intros HG HM.
  assert (Hfetch : footprint I P W (Net.fetch URL)).
  { unfold Net.fetch.
    apply footprint_bind; [now apply footprint_log|]. intros _.
    apply footprint_bind; [apply footprint_gets|]. intros now.
    apply footprint_bind; [apply footprint_gets|]. intros answer.
    apply footprint_bind; [apply footprint_tick|]. intros _.
    destruct answer; [apply footprint_ret | apply footprint_raise]. }
  assert (Hno : footprint I P W (_message_box msg_no_chapter ;; ret None
                                 : M (option string))).
  { apply footprint_bind; [now apply footprint_message_box|]. intros _.
    apply footprint_ret. }
  unfold _get_Latest_Chapter_URL_Filtered.
  destruct (_ && _); [|destruct (_ && _)].
  - unfold _webscrape_WLN_Latest_Chapter.
    apply footprint_try_except; [|exact Hno].
    apply footprint_bind; [exact Hfetch|]. intros pg.
    destruct (find_h5 pg); [apply footprint_ret | apply footprint_raise].
  - unfold _webscrape_Novelupdates_Latest_Chapter.
    apply footprint_try_except; [|exact Hno].
    apply footprint_bind; [exact Hfetch|]. intros pg.
    destruct (findAll_chp_release pg); [apply footprint_raise | apply footprint_ret].
  - apply footprint_bind; [now apply footprint_message_box|]. intros _.
    apply footprint_ret.
Qed.

Lemma footprint_send_Email updated_URLS user password :
  (forall o, I o -> _user_email o = user /\ _password o = password) ->
  P SmtpConnect -> P (SmtpLogin user password) ->
  (forall message, P (SmtpSendmail user user message)) ->
  (forall t, P (Message t)) ->
  footprint I P W (_send_Email updated_URLS).
Proof.
  intros HI HC HL HS HM. unfold _send_Email. cbv zeta.
  apply footprint_try_except; [|now apply footprint_message_box].
  apply footprint_bind; [now apply footprint_log|]. intros _.
  apply footprint_bind; [apply footprint_gets|]. intros now.
  apply footprint_bind; [apply footprint_gets|]. intros reply.
  apply footprint_bind; [apply footprint_tick|]. intros _.
  assert (Hsession :
    footprint I P W
      (try_except
         (user <- gets (fun s => _user_email (self s)) ;;
          password <- gets (fun s => _password (self s)) ;;
          log (SmtpLogin user password) ;;
          match reply with
          | LoginFails => raise SMTPException
          | _ =>
              log (SmtpSendmail user user (_integrate_Updated_URLS updated_URLS)) ;;
              match reply with
              | SendFails => raise SMTPException
              | _ => ret tt
              end
          end)
         (_message_box msg_login))).
  { apply footprint_try_except; [|now apply footprint_message_box].
    apply footprint_bind_gets. intros s H.
    destruct (HI _ H) as [-> Hp].
    refine (footprint_bind_gets _ _ _ s H). clear s H Hp. intros s H.
    destruct (HI _ H) as [_ ->].
    refine (footprint_bind _ _ _ _ s H); [now apply footprint_log|]. intros _.
    destruct reply; try apply footprint_raise;
      (apply footprint_bind; [now apply footprint_log|]; intros _);
      try apply footprint_raise; apply footprint_ret. }
  destruct reply; [apply footprint_raise | exact Hsession ..].
Qed.

End Footprint.

Lemma footprint_getitem I P W d key : footprint I P W (getitem d key).
Proof.
  unfold getitem. destruct (items d !! key);
    [apply footprint_ret | apply footprint_raise].
Qed.

Lemma footprint_as_str I P W value : footprint I P W (as_str value).
Proof. destruct value; [apply footprint_ret | apply footprint_raise]. Qed.

Lemma url_keys_lookup data : forall i d,
  data !! i = Some d -> url_keys data !! i = Some (items d !! "URL").
Proof.
  induction data as [|d' data IH]; intros [|i] d H; try discriminate.
  - injection H as ->. reflexivity.
  - apply (IH i d H).
Qed.

Lemma url_keys_insert data : forall i d,
  url_keys (<[i := d]> data) = <[i := items d !! "URL"]> (url_keys data).
Proof.
  induction data as [|d' data IH]; intros [|i] d; try reflexivity.
  cbn. f_equal. apply IH.
Qed.

(** The loop of the update check fetches URLs of the ledger only and
    keeps them all. *)
Lemma footprint_compile_loop o n : forall i acc,
  footprint (check_keeps o) (allowed o CheckForUpdates)
            (Some (_URL_file_path o)) (compile_loop n i acc).
Proof.
  induction n as [|n IH]; intros i acc; cbn [compile_loop].
  - apply footprint_ret.
  - intros s H. unfold bind at 1, url_data_at, bind at 1, gets. cbn [fst snd].
    destruct (_url_data (self s) !! i) as [dict_|] eqn:Hi;
      [|apply within_refl; exact H].
    apply url_keys_lookup in Hi. rewrite (proj1 H) in Hi. cbn [ret].
    change (FIELD_NAMES_at 0) with "URL".
    change (FIELD_NAMES_at 1) with "latestChapter".
    unfold bind at 1, getitem at 1.
    destruct (items dict_ !! "URL") as [[URL|]|] eqn:HU;
      try (apply within_refl; exact H).
    cbn [ret]. unfold bind at 1, as_str at 1. cbn [ret].
    refine (footprint_bind _ _ _ _ _ _ _ s H).
    + apply footprint_scraper; [|intros t; exact Logic.I].
      simpl. apply (list_elem_of_lookup_2 _ i). exact Hi.
    + intros [latest|]; [|apply IH].
      apply footprint_bind; [apply footprint_getitem|]. intros stored.
      apply footprint_bind; [apply footprint_as_str|]. intros token.
      destruct (PyStr.lt token latest); [|apply IH].
      apply footprint_bind; [|intros _; apply IH].
      apply footprint_modify_self. intros o' (K1 & K2 & K3 & K4).
      split; [|split; [exact K2|split; [exact K3|exact K4]]].
      simpl. rewrite url_keys_insert. unfold setitem. simpl.
      rewrite lookup_insert_ne by discriminate.
      rewrite K1, HU. now apply list_insert_id.
Qed.

Lemma footprint_webscrape_Check o :
  footprint (check_keeps o) (allowed o CheckForUpdates)
            (Some (_URL_file_path o)) _webscrape_Check.
Proof.
  unfold _webscrape_Check.
  apply footprint_bind; [apply footprint_gets|]. intros [|d data];
    [apply footprint_ret|].
  apply footprint_try_except;
    [|apply footprint_message_box; intros t; exact Logic.I].
  apply footprint_bind.
  - unfold _compile_updated_URLS.
    apply footprint_bind; [apply footprint_gets|]. intros data'.
    apply footprint_compile_loop.
  - intros [|u updated]; [apply footprint_ret|].
    apply footprint_bind; [|intros _].
    + apply (footprint_write_URL_data_to_file _ _ _ (_URL_file_path o));
        [intros o' H; apply H | now split | reflexivity].
    + apply (footprint_send_Email _ _ _ _ (_user_email o) (_password o));
        try exact Logic.I.
      * intros o' H. split; apply H.
      * now split.
      * intros message. now split.
      * intros t. exact Logic.I.
Qed.

Lemma footprint_add_scan I P W URL data :
  (forall t, P (Message t)) -> footprint I P W (add_scan data URL).
Proof.
  intros HM. induction data as [|dict_ data IH]; cbn [add_scan].
  - apply footprint_ret.
  - apply footprint_bind; [apply footprint_getitem|]. intros url.
    destruct (decide _); [|exact IH].
    apply footprint_bind; [now apply footprint_message_box|]. intros _.
    apply footprint_ret.
Qed.

Lemma footprint_addURLData o URL :
  footprint (paths_kept o) (allowed o (AddURL URL))
            (Some (_URL_file_path o)) (addURLData URL).
Proof.
  assert (HM : forall t, allowed o (AddURL URL) (Message t))
    by (intros t; exact Logic.I).
  unfold addURLData.
  apply footprint_bind; [apply footprint_gets|]. intros data.
  apply footprint_bind; [now apply footprint_add_scan|]. intros [|];
    [apply footprint_ret|].
  apply footprint_bind;
    [apply footprint_scraper; [reflexivity | exact HM]|].
  intros [latest|]; [|apply footprint_ret].
  apply footprint_bind;
    [apply footprint_modify_self; intros o' H; exact H|]. intros _.
  apply footprint_bind_gets. intros s H. rewrite (proj1 H).
  refine (footprint_bind _ _ _ _ _ _ _ s H);
    [apply footprint_Files_open_a; [now split | reflexivity]|]. intros _.
  apply footprint_bind; [apply footprint_lift|]. intros line.
  now apply footprint_Files_write.
Qed.

Lemma footprint_delete_scan o URL todo :
  footprint (paths_kept o) (allowed o (DeleteURL URL))
            (Some (_URL_file_path o)) (delete_scan todo URL).
Proof.
  assert (HM : forall t, allowed o (DeleteURL URL) (Message t))
    by (intros t; exact Logic.I).
  induction todo as [|dict_ todo IH]; cbn [delete_scan].
  - now apply footprint_message_box.
  - apply footprint_bind; [apply footprint_getitem|]. intros url.
    destruct (decide _); [|exact IH].
    apply footprint_bind; [apply footprint_gets|]. intros data.
    apply footprint_bind; [apply footprint_lift|]. intros data'.
    apply footprint_bind;
      [apply footprint_modify_self; intros o' H; exact H|]. intros _.
    apply footprint_bind; [now apply footprint_message_box|]. intros _.
    apply (footprint_write_URL_data_to_file _ _ _ (_URL_file_path o));
      [intros o' H; apply H | now split | reflexivity].
Qed.

Lemma footprint_setEmail o email :
  footprint (paths_kept o) (allowed o (SetEmail email))
            (Some (_email_file_path o)) (setEmail email).
Proof.
  unfold setEmail.
  apply footprint_bind;
    [apply footprint_modify_self; intros o' H; exact H|]. intros _.
  apply footprint_bind_gets. intros s H. rewrite (proj2 H).
  refine (footprint_bind _ _ _ _ _ _ _ s H);
    [apply footprint_Files_open_w; [now split | reflexivity]|]. intros _.
  apply footprint_bind; [apply footprint_gets|]. intros user_email.
  now apply footprint_Files_write.
Qed.

(** X19: what an operation may do outside the object.  Whatever the
    ledger holds and whatever the outcome, adding a URL fetches no page
    but that of the URL given and opens no file but the ledger file, for
    appending; deleting a URL fetches nothing and opens the ledger file
    for writing only; a check for updates fetches pages of URLs of the
    ledger only, opens the ledger file for writing only, and logs in to
    the relay and sends mail with the stored address and password only;
    [setEmail] opens the email file for writing and does nothing else;
    the getters and [setPassword] do nothing outside.  No operation
    reads a file, contacts the relay outside a check, changes a file
    other than the one it opens, or changes the two paths. *)
Theorem operation_footprint (op : operation) (s : state) :
  let s' := snd (run_op op s) in
  (exists evs, trace (env s') = trace (env s) ++ evs
               /\ Forall (allowed (self s) op) evs)
  /\ (forall path, touched_path op (self s) <> Some path ->
      fs (env s') !! path = fs (env s) !! path)
  /\ paths_kept (self s) (self s').
Proof.
  cbv zeta.
  assert (H0 : paths_kept (self s) (self s)) by (split; reflexivity).
  assert (H : within (paths_kept (self s)) (allowed (self s) op)
                     (touched_path op (self s)) s (snd (run_op op s))).
  { destruct op as [URL|URL| |email| |password| ]; cbn [run_op touched_path].
    - now apply footprint_addURLData.
    - unfold deleteURLData.
      refine (footprint_bind _ _ _ _ _ _ _ s H0); [apply footprint_gets|].
      intros data. apply footprint_delete_scan.
    - destruct (footprint_webscrape_Check (self s) s) as (K & T & F).
      { split; [reflexivity|]. split; [reflexivity|]. split; [reflexivity|].
        exact H0. }
      split; [apply K|]. split; [exact T|exact F].
    - now apply footprint_setEmail.
    - now apply within_refl.
    - split; [exact H0|]. split; [|reflexivity].
      exists []. split; [simpl; now rewrite app_nil_r | constructor].
    - now apply within_refl. }
  destruct H as (K & T & F). split; [exact T|]. split; [exact F|exact K].
Qed.

(** An add on the sample installation leaves the email file alone. *)
Lemma operation_footprint_witness :
  fs (env (snd (run_op (AddURL (Sample.wln "1")) Sample.state0)))
  !! Sample.email_path
  = fs (env Sample.state0) !! Sample.email_path.
Proof.
  refine (proj1 (proj2 (operation_footprint (AddURL (Sample.wln "1"))
                          Sample.state0)) Sample.email_path _).
  vm_compute. intros H. discriminate H.
Defined.

(* ===================================================================== *)
(** ** A check that cannot write *)
(* ===================================================================== *)

(** X20: when the check finds updates and the ledger file cannot be
    opened for writing, the check returns after its generic error and
    sends no mail: the relay is never contacted.  The new tokens are in
    memory all the same and the files are untouched, so the updates
    found are announced nowhere. *)
Theorem check_with_unwritable_file (s s1 : state)
    (rows : list (string * string)) (outs : list (option string)) (e : exn) :
  _url_data (self s) = ledger_of rows ->
  scrape_all (urls rows) s = (Ret outs, s1) ->
  updated_urls rows outs <> [] ->
  open_error (env s) (_URL_file_path (self s)) = Some e ->
  let s' := snd (_webscrape_Check s) in
  fst (_webscrape_Check s) = Ret tt
  /\ _url_data (self s') = ledger_of (apply_updates rows outs)
  /\ fs (env s') = fs (env s)
  /\ trace (env s')
     = trace (env s1)
       ++ [FileOpen (_URL_file_path (self s)) ModeW; Message msg_check]
  /\ exists evs, trace (env s1) = trace (env s) ++ evs
                 /\ Forall is_scrape_event evs.
Proof.
  intros Hs E Hu He. cbv zeta.
  destruct (compile_spec s rows Hs) as (outs' & s1' & E' & _ & F & C).
  rewrite E in E'. injection E' as <- <-.
  destruct F as (F1 & F2 & _ & _ & F5).
  set (s2 := with_self (set_url_data (ledger_of (apply_updates rows outs))) s1)
    in *.
  assert (R : _webscrape_Check s
              = (Ret tt, said msg_check
                           (opened (_URL_file_path (self s)) ModeW s2))).
  { unfold _webscrape_Check.
    rewrite (bind_Ret _ _ s (_url_data (self s)) s) by reflexivity.
    rewrite Hs. destruct rows as [|row rows]; [now elim Hu|].
    cbn [ledger_of map]. unfold try_except, bind at 1. rewrite C.
    destruct (updated_urls (row :: rows) outs) as [|u updated];
      [now elim Hu|].
    assert (W : _write_URL_data_to_file s2
                = (Raise e, opened (_URL_file_path (self s)) ModeW s2)).
    { unfold _write_URL_data_to_file.
      rewrite (bind_Ret _ _ s2 (_URL_file_path (self s2)) s2) by reflexivity.
      assert (Hp : _URL_file_path (self s2) = _URL_file_path (self s))
        by (subst s2; simpl; now rewrite F1).
      rewrite Hp.
      erewrite bind_Raise; [reflexivity|].
      apply Files_open_w_error. unfold open_error in *. subst s2. simpl.
      now rewrite F2. }
    erewrite bind_Raise by exact W. reflexivity. }
  rewrite R. cbn [fst snd].
  split; [reflexivity|]. split; [reflexivity|].
  split; [simpl; exact F2|].
  split; [simpl; now rewrite <- app_assoc | exact F5].
Qed.

(** The installation with read-only files: the served token 6 replaces
    the stored 5 in memory, and the relay is not contacted. *)
Lemma check_with_unwritable_file_witness :
  let s := Sample.state_ro in
  let s1 := snd (scrape_all [Sample.wln "1"] s) in
  let s' := snd (_webscrape_Check s) in
  fst (_webscrape_Check s) = Ret tt
  /\ _url_data (self s')
     = ledger_of (apply_updates [(Sample.wln "1", "5")] [Some "6"])
  /\ fs (env s') = fs (env s)
  /\ trace (env s')
     = trace (env s1)
       ++ [FileOpen (_URL_file_path (self s)) ModeW; Message msg_check]
  /\ exists evs, trace (env s1) = trace (env s) ++ evs
                 /\ Forall is_scrape_event evs.
Proof.
  apply (check_with_unwritable_file Sample.state_ro _
           [(Sample.wln "1", "5")] [Some "6"]
           (PermissionError Sample.URL_path)).
  - vm_compute. reflexivity.
  - vm_compute. reflexivity.
  - discriminate.
  - reflexivity.
Defined.
